(** * Governance-mechanism break-test simulator: agents and voting rounds

    A shallow embedding of [agents.py] (class [Agent]) and of
    [simulation.py] (classes [Proposal], [VoteResult], [VotingSystem]),
    followed by the properties of the voting round that the design
    document states.

    Conventions of the embedding.
    - A Python [float] is read twice.  The general properties are
      stated over the real numbers of [R], where arithmetic is exact;
      they are the ones that rounding to nearest keeps (orders that are
      not strict, bounds that include their end points, values given by
      the expression the code evaluates).  Where rounding decides, that
      is for strict growth and for sums that should meet exactly, module
      [Binary64] holds the same code on IEEE binary64 numbers, the
      floats of Python, and runs it.  A float division by zero raises
      [ZeroDivisionError], as in Python; infinities and NaN do not occur
      in the properties.
    - The process-wide generator behind [random.random()] is an explicit
      stream of draws [rng]; a function that draws returns the rest of
      the stream.
    - A Python [dict] is an association list in insertion order
      ([dict_set] keeps the position of a key that is already present).
    - The agents of a round are mutable objects.  The list handed to
      [conduct_vote] is the store, an object is its position in that
      list, and a function that mutates agents returns the new store.
      A list that names one object twice is not represented; the
      properties that depend on it assume distinct ids.
    - [AgentType] is a closed enumeration, so the [ValueError] of
      [vote_on_proposal] for an unknown type has no counterpart. *)

From Stdlib Require Import Reals Lra String ZArith.
From Stdlib Require Floats.
From stdpp Require Import base list.

Local Open Scope R_scope.
Local Open Scope string_scope.

(** ** Python values and control *)

Module Py.

Inductive exn : Type :=
| ValueError (msg : string)
| ZeroDivisionError
| TypeError
| KeyError (key : Z).

Inductive result (A : Type) : Type :=
| Ok (x : A)
| Raise (e : exn).
Arguments Ok {A} x.
Arguments Raise {A} e.

Definition bind {A B} (r : result A) (k : A -> result B) : result B :=
  match r with
  | Ok x => k x
  | Raise e => Raise e
  end.

(** Comparisons of floats, as booleans. *)
Definition Rltb (a b : R) : bool := if Rlt_dec a b then true else false.
Definition Rleb (a b : R) : bool := if Rle_dec a b then true else false.
Definition Reqb (a b : R) : bool := if Req_dec_T a b then true else false.

(** [a / b] on floats. *)
Definition fdiv (a b : R) : result R :=
  if Reqb b 0 then Raise ZeroDivisionError else Ok (a / b).

(** [math.sqrt]. *)
Definition math_sqrt (x : R) : result R :=
  if Rltb x 0 then Raise (ValueError "math domain error") else Ok (sqrt x).

(** [random.random()]: the stream of draws, each in [0, 1). *)
Definition rng : Type := nat -> R.
Definition random (g : rng) : R * rng := (g O, fun n => g (S n)).
Definition uniform01 (g : rng) : Prop := forall n, 0 <= g n < 1.

(** Dictionaries with integer keys, in insertion order. *)
Definition dict (V : Type) : Type := list (Z * V).

Fixpoint dict_set {V} (k : Z) (v : V) (d : dict V) : dict V :=
  match d with
  | [] => [(k, v)]
  | (k', v') :: d' =>
      if Z.eqb k k' then (k, v) :: d' else (k', v') :: dict_set k v d'
  end.

Fixpoint dict_get {V} (k : Z) (d : dict V) : option V :=
  match d with
  | [] => None
  | (k', v') :: d' => if Z.eqb k k' then Some v' else dict_get k d'
  end.

Definition keys {V} (d : dict V) : list Z := map fst d.
Definition values {V} (d : dict V) : list V := map snd d.

(** [sum(xs)]: left to right from 0. *)
Definition sum (xs : list R) : R := fold_left Rplus xs 0.

End Py.
Import Py.

Notation "'let*' p ':=' c1 'in' c2" := (Py.bind c1 (fun p => c2))
  (at level 10, p pattern, c1 at level 100, c2 at level 200).

(** ** agents.py *)

Inductive AgentType : Type :=
| HONEST | COLLUSION | WHALE | SYBIL | EMOTIONAL_BIAS | SYSTEMATIC_BIAS.

Module Agent.

Record t : Type := Build {
  agent_id : Z;
  agent_type : AgentType;
  stake : R;
  original_stake : R;
  amount_slashed : R;
  honesty_threshold : option R
}.

(** The dataclass constructor followed by [__post_init__]. *)
Definition new (id : Z) (ty : AgentType) (stk : R) (thr : option R) : t :=
  {| agent_id := id; agent_type := ty; stake := stk;
     original_stake := stk; amount_slashed := 0;
     honesty_threshold := thr |}.

Definition set_amount_slashed (a : t) (v : R) : t :=
  {| agent_id := agent_id a; agent_type := agent_type a; stake := stake a;
     original_stake := original_stake a; amount_slashed := v;
     honesty_threshold := honesty_threshold a |}.

Definition get_effective_stake (a : t) : R :=
  Rmax 0 (stake a - amount_slashed a).

Definition apply_slashing (a : t) (slash_amount : R) : t :=
  let s := amount_slashed a + slash_amount in
  set_amount_slashed a (if Rltb (stake a) s then stake a else s).

Definition _honest_vote (a : t) (quality : R) (g : rng)
  : result (bool * rng) :=
  match honesty_threshold a with
  | None => Raise TypeError
  | Some x =>
      if Rltb x quality then Ok (true, g)
      else if Rltb 0.4 quality && Rltb quality x then
        let* probability := fdiv quality x in
        let (u, g') := random g in Ok (Rltb u probability, g')
      else if Rltb quality 0.4 then
        let* probability := fdiv (quality - 0.2) (x + 0.5) in
        let probability := Rmax 0 probability in
        let (u, g') := random g in Ok (Rltb u probability, g')
      else if Reqb quality 0.4 then
        let* probability := fdiv (quality - 0.2) (x + 0.5) in
        let probability := Rmax 0 probability in
        let (u, g') := random g in Ok (Rltb u probability, g')
      else Ok (true, g)
  end.

Definition _collusion_vote (quality : R) (g : rng) : bool * rng :=
  let correct_vote := Rleb 0.5 quality in
  if Rltb 0.4 quality && Rltb quality 0.6 then (negb correct_vote, g)
  else if (Rltb 0.35 quality && Rleb quality 0.4)
          || (Rleb 0.6 quality && Rltb quality 0.65) then
    let (u, g') := random g in
    if Rltb u 0.5 then (negb correct_vote, g') else (correct_vote, g')
  else (correct_vote, g).

Definition _whale_vote (quality : R) (g : rng) : bool * rng :=
  _collusion_vote quality g.

Definition _sybil_vote (quality : R) (g : rng) : bool * rng :=
  let correct_vote := Rleb 0.5 quality in
  if Rltb 0.4 quality && Rltb quality 0.6 then (negb correct_vote, g)
  else (correct_vote, g).

Definition _emotional_bias_vote (quality : R) (g : rng) : bool * rng :=
  let correct_vote := Rleb 0.5 quality in
  let (u, g') := random g in
  if Rltb u 0.5 then (negb correct_vote, g') else (correct_vote, g').

Definition _systematic_bias_vote (quality : R) (g : rng) : bool * rng :=
  let correct_vote := Rleb 0.5 quality in
  (negb correct_vote, g).

Definition vote_on_proposal (a : t) (proposal_quality : R) (g : rng)
  : result (bool * rng) :=
  match agent_type a with
  | HONEST => _honest_vote a proposal_quality g
  | COLLUSION => Ok (_collusion_vote proposal_quality g)
  | WHALE => Ok (_whale_vote proposal_quality g)
  | SYBIL => Ok (_sybil_vote proposal_quality g)
  | EMOTIONAL_BIAS => Ok (_emotional_bias_vote proposal_quality g)
  | SYSTEMATIC_BIAS => Ok (_systematic_bias_vote proposal_quality g)
  end.

End Agent.

(** ** generator.py: the mechanism record *)

Record GovernanceMechanism : Type := {
  voting_method : string;
  stake_method : string;
  slashing_method : string;
  consensus_threshold : R;
  slashing_rate : R;
  sybil_resistance : R;
  max_voting_power : R
}.

(** ** simulation.py *)

Record Proposal : Type := {
  proposal_id : Z;
  quality : R
}.

Definition is_objectively_good (p : Proposal) : bool := Rleb 0.5 (quality p).

Record VoteResult : Type := {
  proposal : Proposal;
  passed : bool;
  total_voting_power : R;
  yes_voting_power : R;
  no_voting_power : R;
  votes_cast : dict bool;
  agents_slashed : list Z;
  correct_outcome : bool
}.

Module VotingSystem.

Section Mechanism.

Variable mechanism : GovernanceMechanism.

Definition calculate_voting_power (agent : Agent.t) : result R :=
  let effective_stake := Agent.get_effective_stake agent in
  let* base_power :=
    (if String.eqb (stake_method mechanism) "equal_weight" then Ok 1
     else if String.eqb (stake_method mechanism) "token_based"
          then Ok effective_stake
     else if String.eqb (stake_method mechanism) "reputation_based"
          then Ok effective_stake
     else if String.eqb (stake_method mechanism) "hybrid"
          then Ok ((effective_stake + 1) / 2)
     else Raise (ValueError "Unknown stake method")) in
  if String.eqb (voting_method mechanism) "simple_majority" then Ok 1
  else if String.eqb (voting_method mechanism) "weighted"
       then Ok base_power
  else if String.eqb (voting_method mechanism) "quadratic"
       then math_sqrt base_power
  else Raise (ValueError "Unknown voting method").

Definition apply_sybil_resistance (agent : Agent.t) (voting_power : R)
    (g : rng) : R * rng :=
  match Agent.agent_type agent with
  | SYBIL =>
      let (u, g') := random g in
      if Rltb u (sybil_resistance mechanism) then (0, g')
      else (voting_power, g')
  | _ => (voting_power, g)
  end.

Definition apply_max_voting_power_cap (agents : list Agent.t)
    (voting_powers : dict R) : dict R :=
  let total_power := Py.sum (values voting_powers) in
  if Reqb total_power 0 then voting_powers
  else
    let max_allowed_power := total_power * max_voting_power mechanism in
    map (fun '(agent_id, power) =>
           if Rltb max_allowed_power power
           then (agent_id, max_allowed_power)
           else (agent_id, power))
        voting_powers.

(** The multiplier of the exponential method (the local
    [slash_multiplier] of [calculate_slash_amount]). *)
Definition slash_multiplier (agent : Agent.t) : result R :=
  let* q := fdiv (Agent.amount_slashed agent) (Agent.original_stake agent) in
  Ok (1 + q).

Definition calculate_slash_amount (agent : Agent.t) : result R :=
  let base_slash :=
    Agent.get_effective_stake agent * slashing_rate mechanism in
  if String.eqb (slashing_method mechanism) "linear" then Ok base_slash
  else if String.eqb (slashing_method mechanism) "exponential" then
    let* slash_multiplier := slash_multiplier agent in
    Ok (base_slash * slash_multiplier)
  else if String.eqb (slashing_method mechanism) "progressive" then
    let* times_slashed :=
      (if Rltb 0 (slashing_rate mechanism)
       then fdiv (Agent.amount_slashed agent)
                 (slashing_rate mechanism * Agent.original_stake agent)
       else Ok 0) in
    let progressive_multiplier := 1 + times_slashed * 0.5 in
    Ok (base_slash * progressive_multiplier)
  else Ok base_slash.

(** [{agent.agent_id: agent for agent in agents}]: each id is bound to
    the position of the last agent that carries it. *)
Fixpoint index_agents (agents : list Agent.t) (i : nat) (d : dict nat)
  : dict nat :=
  match agents with
  | [] => d
  | a :: rest => index_agents rest (S i) (dict_set (Agent.agent_id a) i d)
  end.

Definition agents_by_id (agents : list Agent.t) : dict nat :=
  index_agents agents O [].

(** The loop of [apply_slashing] over [votes_cast.items()].  The
    result is what the call returns or raises, with the store as the
    loop left it. *)
Fixpoint slash_loop (by_id : dict nat) (good proposal_passed : bool)
    (items : list (Z * bool)) (store : list Agent.t)
    (agents_slashed : list Z) : result (list Z) * list Agent.t :=
  match items with
  | [] => (Ok agents_slashed, store)
  | (agent_id, vote) :: rest =>
      match dict_get agent_id by_id with
      | None => (Raise (KeyError agent_id), store)
      | Some ix =>
          match store !! ix with
          | None => (Raise (KeyError agent_id), store)
          | Some agent =>
              if (proposal_passed && negb good && vote)
                 || (negb proposal_passed && good && negb vote)
              then
                match calculate_slash_amount agent with
                | Raise e => (Raise e, store)
                | Ok slash_amount =>
                    slash_loop by_id good proposal_passed rest
                      (<[ix := Agent.apply_slashing agent slash_amount]>
                         store)
                      (agents_slashed ++ [agent_id])
                end
              else
                slash_loop by_id good proposal_passed rest store
                  agents_slashed
          end
      end
  end.

Definition apply_slashing (agents : list Agent.t) (votes_cast : dict bool)
    (proposal : Proposal) (proposal_passed : bool)
  : result (list Z) * list Agent.t :=
  if String.eqb (slashing_method mechanism) "none"
     || Reqb (slashing_rate mechanism) 0
  then (Ok [], agents)
  else
    slash_loop (agents_by_id agents) (is_objectively_good proposal)
      proposal_passed votes_cast agents [].

(** Step 1 of [conduct_vote]: votes and powers, agent by agent. *)
Fixpoint collect (agents : list Agent.t) (quality : R)
    (voting_powers : dict R) (votes_cast : dict bool) (g : rng)
  : result (dict R * dict bool * rng) :=
  match agents with
  | [] => Ok (voting_powers, votes_cast, g)
  | agent :: rest =>
      let* (vote, g1) := Agent.vote_on_proposal agent quality g in
      let votes_cast := dict_set (Agent.agent_id agent) vote votes_cast in
      let* power := calculate_voting_power agent in
      let (power, g2) := apply_sybil_resistance agent power g1 in
      collect rest quality
        (dict_set (Agent.agent_id agent) power voting_powers)
        votes_cast g2
  end.

(** Step 3: the three running sums, in the order (yes, no, total). *)
Fixpoint tally (items : list (Z * bool)) (voting_powers : dict R)
    (yes_power no_power total_power : R) : result (R * R * R) :=
  match items with
  | [] => Ok (yes_power, no_power, total_power)
  | (agent_id, vote) :: rest =>
      match dict_get agent_id voting_powers with
      | None => Raise (KeyError agent_id)
      | Some power =>
          let total_power := total_power + power in
          if vote
          then tally rest voting_powers (yes_power + power) no_power
                 total_power
          else tally rest voting_powers yes_power (no_power + power)
                 total_power
      end
  end.

(** Step 4: the decision. *)
Definition decide_passed (yes_power total_power : R) : result bool :=
  if Reqb total_power 0 then Ok false
  else
    let* yes_percentage := fdiv yes_power total_power in
    Ok (Rleb (consensus_threshold mechanism) yes_percentage).

Definition conduct_vote (agents : list Agent.t) (proposal : Proposal)
    (g : rng) : result (VoteResult * rng) * list Agent.t :=
  match collect agents (quality proposal) [] [] g with
  | Raise e => (Raise e, agents)
  | Ok (voting_powers, votes_cast, g') =>
      let voting_powers := apply_max_voting_power_cap agents voting_powers in
      match
        (let* (yes_power, no_power, total_power) :=
           tally votes_cast voting_powers 0 0 0 in
         let* passed := decide_passed yes_power total_power in
         Ok (yes_power, no_power, total_power, passed))
      with
      | Raise e => (Raise e, agents)
      | Ok (yes_power, no_power, total_power, passed) =>
          let should_pass := is_objectively_good proposal in
          let correct_outcome := Bool.eqb passed should_pass in
          let (slashed, agents') :=
            if negb correct_outcome
            then apply_slashing agents votes_cast proposal passed
            else (Ok [], agents) in
          match slashed with
          | Raise e => (Raise e, agents')
          | Ok agents_slashed =>
              (Ok ({| proposal := proposal;
                      passed := passed;
                      total_voting_power := total_power;
                      yes_voting_power := yes_power;
                      no_voting_power := no_power;
                      votes_cast := votes_cast;
                      agents_slashed := agents_slashed;
                      correct_outcome := correct_outcome |}, g'),
               agents')
          end
      end
  end.

End Mechanism.

End VotingSystem.

(** ** The random module, beyond [random.random()] *)

Module Random.

(** [random.uniform(a, b)] is [a + (b - a) * random()]. *)
Definition uniform (a b : R) (g : rng) : R * rng :=
  let (u, g') := random g in (a + (b - a) * u, g').

(** [random.choice(seq)] picks [seq[i]] for an index [i] below
    [len(seq)].  The indices come from a stream of naturals of their own,
    each reduced modulo the length; [None] is the [IndexError] for an
    empty sequence. *)
Definition chooser : Type := nat -> nat.

Definition choice {A : Type} (seq : list A) (c : chooser)
  : option (A * chooser) :=
  match seq with
  | [] => None
  | _ :: _ =>
      match nth_error seq (c O mod length seq) with
      | Some x => Some (x, fun n => c (S n))
      | None => None
      end
  end.

End Random.

(** ** agents.py: the factory and the attack populations *)

Module AgentFactory.

Record t : Type := Build { agent_counter : Z }.

Definition init : t := {| agent_counter := 0 |}.

Definition _get_next_id (self : t) : Z * t :=
  let c := (agent_counter self + 1)%Z in (c, {| agent_counter := c |}).

Definition create_honest_agent (self : t) (g : rng) : Agent.t * t * rng :=
  let (id, self') := _get_next_id self in
  let (stake, g1) := Random.uniform 5 10 g in
  let (threshold, g2) := Random.uniform 0.4 0.8 g1 in
  (Agent.new id HONEST stake (Some threshold), self', g2).

Definition create_collusion_agent (self : t) (g : rng)
  : Agent.t * t * rng :=
  let (id, self') := _get_next_id self in
  let (stake, g1) := Random.uniform 5 10 g in
  (Agent.new id COLLUSION stake None, self', g1).

Definition create_whale_agent (self : t) (g : rng) : Agent.t * t * rng :=
  let (id, self') := _get_next_id self in
  let (stake, g1) := Random.uniform 50 200 g in
  (Agent.new id WHALE stake None, self', g1).

Definition create_sybil_agent (self : t) (g : rng) : Agent.t * t * rng :=
  let (id, self') := _get_next_id self in
  (Agent.new id SYBIL 1 None, self', g).

Definition create_emotional_bias_agent (self : t) (g : rng)
  : Agent.t * t * rng :=
  let (id, self') := _get_next_id self in
  let (stake, g1) := Random.uniform 5 10 g in
  (Agent.new id EMOTIONAL_BIAS stake None, self', g1).

Definition create_systematic_bias_agent (self : t) (g : rng)
  : Agent.t * t * rng :=
  let (id, self') := _get_next_id self in
  let (stake, g1) := Random.uniform 5 10 g in
  (Agent.new id SYSTEMATIC_BIAS stake None, self', g1).

End AgentFactory.

Module AttackScenarioGenerator.

(** The generator owns one factory; its state is that factory. *)
Definition creator : Type :=
  AgentFactory.t -> rng -> Agent.t * AgentFactory.t * rng.

(** [for _ in range(n): agents.append(create())]. *)
Fixpoint append_created (create : creator) (n : nat)
    (agents : list Agent.t) (factory : AgentFactory.t) (g : rng)
  : list Agent.t * AgentFactory.t * rng :=
  match n with
  | O => (agents, factory, g)
  | S n' =>
      let '(a, factory', g') := create factory g in
      append_created create n' (agents ++ [a]) factory' g'
  end.

Definition generate_collusion_scenario (factory : AgentFactory.t) (g : rng)
  : list Agent.t * AgentFactory.t * rng :=
  let '(agents, factory, g) :=
    append_created AgentFactory.create_collusion_agent 8 [] factory g in
  append_created AgentFactory.create_honest_agent 42 agents factory g.

Definition generate_whale_scenario (factory : AgentFactory.t) (g : rng)
  : list Agent.t * AgentFactory.t * rng :=
  let '(agents, factory, g) :=
    append_created AgentFactory.create_whale_agent 4 [] factory g in
  append_created AgentFactory.create_honest_agent 46 agents factory g.

Definition generate_sybil_scenario (factory : AgentFactory.t) (g : rng)
  : list Agent.t * AgentFactory.t * rng :=
  let '(agents, factory, g) :=
    append_created AgentFactory.create_sybil_agent 10 [] factory g in
  append_created AgentFactory.create_honest_agent 40 agents factory g.

Definition generate_bias_scenario (factory : AgentFactory.t) (g : rng)
  : list Agent.t * AgentFactory.t * rng :=
  let '(agents, factory, g) :=
    append_created AgentFactory.create_emotional_bias_agent 5 [] factory g in
  let '(agents, factory, g) :=
    append_created AgentFactory.create_systematic_bias_agent 5 agents
      factory g in
  append_created AgentFactory.create_honest_agent 40 agents factory g.

Definition reset_factory : AgentFactory.t := AgentFactory.init.

End AttackScenarioGenerator.

(** ** simulation.py: the engine *)

Module AttackType.

Inductive t : Type := COLLUSION | WHALE | SYBIL | BIAS.

(** The order of iteration over the enumeration. *)
Definition all : list t := [COLLUSION; WHALE; SYBIL; BIAS].

End AttackType.

Record AttackResult : Type := {
  attack_type : AttackType.t;
  mechanism : GovernanceMechanism;
  total_votes : Z;
  correct_outcomes : Z;
  success_rate : R
}.

Module SimulationEngine.

Record t : Type := Build {
  scenario_generator : AgentFactory.t;
  proposal_counter : Z
}.

Definition init : t :=
  {| scenario_generator := AgentFactory.init; proposal_counter := 0 |}.

Definition generate_proposal (self : t) (g : rng) : Proposal * t * rng :=
  let counter := (proposal_counter self + 1)%Z in
  let self' := {| scenario_generator := scenario_generator self;
                  proposal_counter := counter |} in
  let (u, g1) := random g in
  let (q, g2) :=
    if Rltb u 0.3 then Random.uniform 0.4 0.6 g1 else random g1 in
  ({| proposal_id := counter; quality := q |}, self', g2).

(** The loop of [run_attack_instance].  As for [conduct_vote], the
    agents are returned as the call left them, also when it raises. *)
Fixpoint run_rounds (mechanism : GovernanceMechanism) (rounds : nat)
    (agents : list Agent.t) (results : list VoteResult) (self : t) (g : rng)
  : result (list VoteResult * t * rng) * list Agent.t :=
  match rounds with
  | O => (Ok (results, self, g), agents)
  | S rounds' =>
      let '(proposal, self1, g1) := generate_proposal self g in
      match VotingSystem.conduct_vote mechanism agents proposal g1 with
      | (Raise e, agents') => (Raise e, agents')
      | (Ok (vote_result, g2), agents') =>
          run_rounds mechanism rounds' agents' (results ++ [vote_result])
            self1 g2
      end
  end.

Definition run_attack_instance (mechanism : GovernanceMechanism)
    (attack_type : AttackType.t) (agents : list Agent.t) (rounds : nat)
    (self : t) (g : rng)
  : result (list VoteResult * t * rng) * list Agent.t :=
  run_rounds mechanism rounds agents [] self g.

Definition generate_scenario (attack_type : AttackType.t)
    (factory : AgentFactory.t) (g : rng)
  : list Agent.t * AgentFactory.t * rng :=
  match attack_type with
  | AttackType.COLLUSION =>
      AttackScenarioGenerator.generate_collusion_scenario factory g
  | AttackType.WHALE =>
      AttackScenarioGenerator.generate_whale_scenario factory g
  | AttackType.SYBIL =>
      AttackScenarioGenerator.generate_sybil_scenario factory g
  | AttackType.BIAS =>
      AttackScenarioGenerator.generate_bias_scenario factory g
  end.

(** [for result in instance_results]: the two counters, in the order
    (total_correct, total_votes). *)
Definition count_outcomes (instance_results : list VoteResult)
    (total_correct total_votes : Z) : Z * Z :=
  fold_left
    (fun '(correct, votes) result =>
       let votes := (votes + 1)%Z in
       if correct_outcome result then ((correct + 1)%Z, votes)
       else (correct, votes))
    instance_results (total_correct, total_votes).

(** The loop of [run_attack_scenario] over the instances. *)
Fixpoint run_instances (mechanism : GovernanceMechanism)
    (attack_type : AttackType.t) (instances rounds_per_instance : nat)
    (total_correct total_votes : Z) (self : t) (g : rng)
  : result (Z * Z * t * rng) :=
  match instances with
  | O => Ok (total_correct, total_votes, self, g)
  | S instances' =>
      let '(agents, factory, g1) :=
        generate_scenario attack_type (scenario_generator self) g in
      let self1 := {| scenario_generator := factory;
                      proposal_counter := proposal_counter self |} in
      match run_attack_instance mechanism attack_type agents
              rounds_per_instance self1 g1 with
      | (Raise e, _) => Raise e
      | (Ok (instance_results, self2, g2), _) =>
          let (total_correct, total_votes) :=
            count_outcomes instance_results total_correct total_votes in
          run_instances mechanism attack_type instances'
            rounds_per_instance total_correct total_votes self2 g2
      end
  end.

Definition run_attack_scenario (mechanism : GovernanceMechanism)
    (attack_type : AttackType.t) (instances rounds_per_instance : nat)
    (self : t) (g : rng) : result (AttackResult * t * rng) :=
  let* (total_correct, total_votes, self', g') :=
    run_instances mechanism attack_type instances rounds_per_instance
      0 0 self g in
  let success_rate :=
    if (0 <? total_votes)%Z then IZR total_correct / IZR total_votes
    else 0 in
  Ok ({| attack_type := attack_type;
         mechanism := mechanism;
         total_votes := total_votes;
         correct_outcomes := total_correct;
         success_rate := success_rate |}, self', g').

(** [run_full_mechanism_test], with the default 30 instances of 20
    rounds: the results in the order of the enumeration. *)
Fixpoint run_attack_types (mechanism : GovernanceMechanism)
    (attack_types : list AttackType.t)
    (results : list (AttackType.t * AttackResult)) (self : t) (g : rng)
  : result (list (AttackType.t * AttackResult) * t * rng) :=
  match attack_types with
  | [] => Ok (results, self, g)
  | attack_type :: rest =>
      let* (result, self', g') :=
        run_attack_scenario mechanism attack_type 30 20 self g in
      run_attack_types mechanism rest (results ++ [(attack_type, result)])
        self' g'
  end.

Definition run_full_mechanism_test (mechanism : GovernanceMechanism)
    (self : t) (g : rng)
  : result (list (AttackType.t * AttackResult) * t * rng) :=
  run_attack_types mechanism AttackType.all [] self g.

End SimulationEngine.

(** ** generator.py: the parameter grid *)

Module MechanismGenerator.

Definition voting_methods : list string :=
  ["simple_majority"; "weighted"; "quadratic"].

Definition stake_methods : list string :=
  ["token_based"; "reputation_based"; "hybrid"; "equal_weight"].

Definition slashing_methods : list string :=
  ["none"; "linear"; "exponential"; "progressive"].

Definition consensus_thresholds : list R :=
  [0.50; 0.51; 0.55; 0.60; 0.65; 0.70; 0.75; 0.80; 0.85; 0.90; 0.95; 0.98; 1].

Definition slashing_rates : list R := [0; 0.05; 0.1; 0.15; 0.2; 0.25; 0.3].

Definition sybil_resistance_values : list R :=
  [0; 0.125; 0.25; 0.375; 0.5; 0.625; 0.75; 0.875; 1].

Definition max_voting_power_values : list R :=
  [0.1; 0.2; 0.3; 0.4; 0.5; 0.6; 0.7; 0.8; 0.9; 1].

Definition calculate_total_possible_mechanisms : Z :=
  (Z.of_nat (length voting_methods)
   * Z.of_nat (length stake_methods)
   * Z.of_nat (length slashing_methods)
   * Z.of_nat (length consensus_thresholds)
   * Z.of_nat (length slashing_rates)
   * Z.of_nat (length sybil_resistance_values)
   * Z.of_nat (length max_voting_power_values))%Z.

(** The seven nested loops of [generate_all_mechanisms], outermost
    first. *)
Definition generate_all_mechanisms : list GovernanceMechanism :=
  flat_map (fun voting_method =>
  flat_map (fun stake_method =>
  flat_map (fun slashing_method =>
  flat_map (fun consensus_threshold =>
  flat_map (fun slashing_rate =>
  flat_map (fun sybil_resistance =>
  map (fun max_voting_power =>
         {| voting_method := voting_method;
            stake_method := stake_method;
            slashing_method := slashing_method;
            consensus_threshold := consensus_threshold;
            slashing_rate := slashing_rate;
            sybil_resistance := sybil_resistance;
            max_voting_power := max_voting_power |})
      max_voting_power_values)
    sybil_resistance_values)
    slashing_rates)
    consensus_thresholds)
    slashing_methods)
    stake_methods)
    voting_methods.

Definition generate_real_world_mechanism_classes
  : list GovernanceMechanism :=
  let bittensor :=
    flat_map (fun slashing_method =>
      map (fun slashing_rate =>
             {| voting_method := "weighted"; stake_method := "token_based";
                slashing_method := slashing_method;
                consensus_threshold := 0.51;
                slashing_rate := slashing_rate;
                sybil_resistance := 0.95; max_voting_power := 1 |})
          slashing_rates)
      slashing_methods in
  let gensyn :=
    map (fun slashing_rate =>
           {| voting_method := "simple_majority";
              stake_method := "token_based";
              slashing_method := "linear";
              consensus_threshold := 0.50;
              slashing_rate := slashing_rate;
              sybil_resistance := 0.95; max_voting_power := 1 |})
        slashing_rates in
  let ocean :=
    [{| voting_method := "weighted"; stake_method := "token_based";
        slashing_method := "none"; consensus_threshold := 0.50;
        slashing_rate := 0; sybil_resistance := 0.95;
        max_voting_power := 1 |}] in
  let singularitynet :=
    flat_map (fun slashing_method =>
      map (fun slashing_rate =>
             {| voting_method := "quadratic"; stake_method := "hybrid";
                slashing_method := slashing_method;
                consensus_threshold := 0.65;
                slashing_rate := slashing_rate;
                sybil_resistance := 0.95; max_voting_power := 1 |})
          slashing_rates)
      slashing_methods in
  bittensor ++ gensyn ++ ocean ++ singularitynet.

(** The [__eq__] of the dataclass, which decides membership in the
    set [generated_mechanisms]. *)
Definition mechanism_eqb (m1 m2 : GovernanceMechanism) : bool :=
  String.eqb (voting_method m1) (voting_method m2)
  && String.eqb (stake_method m1) (stake_method m2)
  && String.eqb (slashing_method m1) (slashing_method m2)
  && Reqb (consensus_threshold m1) (consensus_threshold m2)
  && Reqb (slashing_rate m1) (slashing_rate m2)
  && Reqb (sybil_resistance m1) (sybil_resistance m2)
  && Reqb (max_voting_power m1) (max_voting_power m2).

Definition generate_random_mechanism (c : Random.chooser)
  : option (GovernanceMechanism * Random.chooser) :=
  match Random.choice voting_methods c with
  | None => None
  | Some (voting_method, c) =>
  match Random.choice stake_methods c with
  | None => None
  | Some (stake_method, c) =>
  match Random.choice slashing_methods c with
  | None => None
  | Some (slashing_method, c) =>
  match Random.choice consensus_thresholds c with
  | None => None
  | Some (consensus_threshold, c) =>
  match Random.choice slashing_rates c with
  | None => None
  | Some (slashing_rate, c) =>
  match Random.choice sybil_resistance_values c with
  | None => None
  | Some (sybil_resistance, c) =>
  match Random.choice max_voting_power_values c with
  | None => None
  | Some (max_voting_power, c) =>
      Some ({| voting_method := voting_method;
               stake_method := stake_method;
               slashing_method := slashing_method;
               consensus_threshold := consensus_threshold;
               slashing_rate := slashing_rate;
               sybil_resistance := sybil_resistance;
               max_voting_power := max_voting_power |}, c)
  end end end end end end end.

(** The loop of [generate_unique_mechanisms]: [remaining] is
    [max_attempts - attempts], and the set [generated_mechanisms] is a
    list in which the order does not matter. *)
Fixpoint unique_loop (num_mechanisms remaining : nat)
    (mechanisms generated_mechanisms : list GovernanceMechanism)
    (c : Random.chooser)
  : option (list GovernanceMechanism * list GovernanceMechanism
            * Random.chooser) :=
  match remaining with
  | O => Some (mechanisms, generated_mechanisms, c)
  | S remaining' =>
      if (length mechanisms <? num_mechanisms)%nat then
        match generate_random_mechanism c with
        | None => None
        | Some (mechanism, c') =>
            if existsb (mechanism_eqb mechanism) generated_mechanisms
            then unique_loop num_mechanisms remaining' mechanisms
                   generated_mechanisms c'
            else unique_loop num_mechanisms remaining'
                   (mechanisms ++ [mechanism])
                   (mechanism :: generated_mechanisms) c'
        end
      else Some (mechanisms, generated_mechanisms, c)
  end.

Definition generate_unique_mechanisms (num_mechanisms : nat)
    (generated_mechanisms : list GovernanceMechanism) (c : Random.chooser)
  : option (list GovernanceMechanism * list GovernanceMechanism
            * Random.chooser) :=
  unique_loop num_mechanisms (num_mechanisms * 10) [] generated_mechanisms c.

(** [seq[:stop]] for an integer [stop]: the first [stop] items, and for
    a negative [stop] all but the last [-stop]. *)
Definition slice_to {A : Type} (seq : list A) (stop : Z) : list A :=
  if (0 <=? stop)%Z then firstn (Z.to_nat stop) seq
  else firstn (length seq - Z.to_nat (- stop)) seq.

(** [num_mechanisms] is any integer, as the command line passes it;
    [remaining] is never negative, so the call of
    [generate_unique_mechanisms] gets a natural number. *)
Definition generate_mixed_with_real_world_classes (num_mechanisms : Z)
    (generated_mechanisms : list GovernanceMechanism) (c : Random.chooser)
  : option (list GovernanceMechanism * list GovernanceMechanism
            * Random.chooser) :=
  let real_world_classes := generate_real_world_mechanism_classes in
  let mechanisms := real_world_classes in
  let remaining :=
    Z.max 0 (num_mechanisms - Z.of_nat (length real_world_classes)) in
  if (0 <? remaining)%Z then
    match generate_unique_mechanisms (Z.to_nat remaining)
            generated_mechanisms c with
    | None => None
    | Some (random_mechanisms, generated_mechanisms, c') =>
        Some (slice_to (mechanisms ++ random_mechanisms) num_mechanisms,
              generated_mechanisms, c')
    end
  else Some (slice_to mechanisms num_mechanisms, generated_mechanisms, c).

End MechanismGenerator.

(** ** pipeline.py: the real-world classes *)

Module GovernancePipeline.

Definition _is_real_world_mechanism (mechanism : GovernanceMechanism)
  : bool :=
  if String.eqb (voting_method mechanism) "weighted"
     && String.eqb (stake_method mechanism) "token_based"
     && Reqb (consensus_threshold mechanism) 0.51
     && Reqb (sybil_resistance mechanism) 0.95
     && Reqb (max_voting_power mechanism) 1
  then true
  else if String.eqb (voting_method mechanism) "simple_majority"
          && String.eqb (stake_method mechanism) "token_based"
          && String.eqb (slashing_method mechanism) "linear"
          && Reqb (consensus_threshold mechanism) 0.50
          && Reqb (sybil_resistance mechanism) 0.95
          && Reqb (max_voting_power mechanism) 1
  then true
  else if String.eqb (voting_method mechanism) "weighted"
          && String.eqb (stake_method mechanism) "token_based"
          && String.eqb (slashing_method mechanism) "none"
          && Reqb (consensus_threshold mechanism) 0.50
          && Reqb (slashing_rate mechanism) 0
          && Reqb (sybil_resistance mechanism) 0.95
          && Reqb (max_voting_power mechanism) 1
  then true
  else if String.eqb (voting_method mechanism) "quadratic"
          && String.eqb (stake_method mechanism) "hybrid"
          && Reqb (consensus_threshold mechanism) 0.65
          && Reqb (sybil_resistance mechanism) 0.95
          && Reqb (max_voting_power mechanism) 1
  then true
  else false.

End GovernancePipeline.

(** ** agents.py and simulation.py on binary64 floats

    The agent and the voting round once more, with every [float] an
    IEEE binary64 number and every operation rounded as the machine
    rounds it.  The text is that of [Agent] and [VotingSystem] above,
    read in the other arithmetic; all of it computes. *)

Module Binary64.

Import Floats.
#[local] Set Warnings "-inexact-float".
Local Open Scope float_scope.

(** [max(a, b)]: [b] when [b > a], otherwise [a]. *)
Definition fmax (a b : float) : float := if a <? b then b else a.

(** [a / b]. *)
Definition fdiv (a b : float) : result float :=
  if b =? 0 then Raise ZeroDivisionError else Ok (a / b).

(** [math.sqrt]. *)
Definition math_sqrt (x : float) : result float :=
  if x <? 0 then Raise (ValueError "math domain error") else Ok (sqrt x).

(** [random.random()]. *)
Definition rng : Type := nat -> float.
Definition random (g : rng) : float * rng := (g O, fun n => g (S n)).

(** [sum(xs)]. *)
Definition sum (xs : list float) : float := fold_left PrimFloat.add xs 0.

(** [random.uniform(a, b)]. *)
Definition uniform (a b : float) (g : rng) : float * rng :=
  let (u, g') := random g in (a + (b - a) * u, g').

Module Agent.

Record t : Type := Build {
  agent_id : Z;
  agent_type : AgentType;
  stake : float;
  original_stake : float;
  amount_slashed : float;
  honesty_threshold : option float
}.

Definition new (id : Z) (ty : AgentType) (stk : float) (thr : option float)
  : t :=
  {| agent_id := id; agent_type := ty; stake := stk;
     original_stake := stk; amount_slashed := 0;
     honesty_threshold := thr |}.

Definition set_amount_slashed (a : t) (v : float) : t :=
  {| agent_id := agent_id a; agent_type := agent_type a; stake := stake a;
     original_stake := original_stake a; amount_slashed := v;
     honesty_threshold := honesty_threshold a |}.

Definition get_effective_stake (a : t) : float :=
  fmax 0 (stake a - amount_slashed a).

Definition apply_slashing (a : t) (slash_amount : float) : t :=
  let s := amount_slashed a + slash_amount in
  set_amount_slashed a (if stake a <? s then stake a else s).

Definition _honest_vote (a : t) (quality : float) (g : rng)
  : result (bool * rng) :=
  match honesty_threshold a with
  | None => Raise TypeError
  | Some x =>
      if x <? quality then Ok (true, g)
      else if (0.4 <? quality) && (quality <? x) then
        let* probability := fdiv quality x in
        let (u, g') := random g in Ok (u <? probability, g')
      else if quality <? 0.4 then
        let* probability := fdiv (quality - 0.2) (x + 0.5) in
        let probability := fmax 0 probability in
        let (u, g') := random g in Ok (u <? probability, g')
      else if quality =? 0.4 then
        let* probability := fdiv (quality - 0.2) (x + 0.5) in
        let probability := fmax 0 probability in
        let (u, g') := random g in Ok (u <? probability, g')
      else Ok (true, g)
  end.

Definition _collusion_vote (quality : float) (g : rng) : bool * rng :=
  let correct_vote := 0.5 <=? quality in
  if (0.4 <? quality) && (quality <? 0.6) then (negb correct_vote, g)
  else if ((0.35 <? quality) && (quality <=? 0.4))
          || ((0.6 <=? quality) && (quality <? 0.65)) then
    let (u, g') := random g in
    if u <? 0.5 then (negb correct_vote, g') else (correct_vote, g')
  else (correct_vote, g).

Definition _whale_vote (quality : float) (g : rng) : bool * rng :=
  _collusion_vote quality g.

Definition _sybil_vote (quality : float) (g : rng) : bool * rng :=
  let correct_vote := 0.5 <=? quality in
  if (0.4 <? quality) && (quality <? 0.6) then (negb correct_vote, g)
  else (correct_vote, g).

Definition _emotional_bias_vote (quality : float) (g : rng) : bool * rng :=
  let correct_vote := 0.5 <=? quality in
  let (u, g') := random g in
  if u <? 0.5 then (negb correct_vote, g') else (correct_vote, g').

Definition _systematic_bias_vote (quality : float) (g : rng) : bool * rng :=
  let correct_vote := 0.5 <=? quality in
  (negb correct_vote, g).

Definition vote_on_proposal (a : t) (proposal_quality : float) (g : rng)
  : result (bool * rng) :=
  match agent_type a with
  | HONEST => _honest_vote a proposal_quality g
  | COLLUSION => Ok (_collusion_vote proposal_quality g)
  | WHALE => Ok (_whale_vote proposal_quality g)
  | SYBIL => Ok (_sybil_vote proposal_quality g)
  | EMOTIONAL_BIAS => Ok (_emotional_bias_vote proposal_quality g)
  | SYSTEMATIC_BIAS => Ok (_systematic_bias_vote proposal_quality g)
  end.

End Agent.

Record GovernanceMechanism : Type := {
  voting_method : string;
  stake_method : string;
  slashing_method : string;
  consensus_threshold : float;
  slashing_rate : float;
  sybil_resistance : float;
  max_voting_power : float
}.

Record Proposal : Type := {
  proposal_id : Z;
  quality : float
}.

Definition is_objectively_good (p : Proposal) : bool := 0.5 <=? quality p.

Record VoteResult : Type := {
  proposal : Proposal;
  passed : bool;
  total_voting_power : float;
  yes_voting_power : float;
  no_voting_power : float;
  votes_cast : dict bool;
  agents_slashed : list Z;
  correct_outcome : bool
}.

Module VotingSystem.

Section Mechanism.

Variable mechanism : GovernanceMechanism.

Definition calculate_voting_power (agent : Agent.t) : result float :=
  let effective_stake := Agent.get_effective_stake agent in
  let* base_power :=
    (if String.eqb (stake_method mechanism) "equal_weight" then Ok 1
     else if String.eqb (stake_method mechanism) "token_based"
          then Ok effective_stake
     else if String.eqb (stake_method mechanism) "reputation_based"
          then Ok effective_stake
     else if String.eqb (stake_method mechanism) "hybrid"
          then Ok ((effective_stake + 1) / 2)
     else Raise (ValueError "Unknown stake method")) in
  if String.eqb (voting_method mechanism) "simple_majority" then Ok 1
  else if String.eqb (voting_method mechanism) "weighted"
       then Ok base_power
  else if String.eqb (voting_method mechanism) "quadratic"
       then math_sqrt base_power
  else Raise (ValueError "Unknown voting method").

Definition apply_sybil_resistance (agent : Agent.t) (voting_power : float)
    (g : rng) : float * rng :=
  match Agent.agent_type agent with
  | SYBIL =>
      let (u, g') := random g in
      if u <? sybil_resistance mechanism then (0, g')
      else (voting_power, g')
  | _ => (voting_power, g)
  end.

Definition apply_max_voting_power_cap (agents : list Agent.t)
    (voting_powers : dict float) : dict float :=
  let total_power := sum (values voting_powers) in
  if total_power =? 0 then voting_powers
  else
    let max_allowed_power := total_power * max_voting_power mechanism in
    map (fun '(agent_id, power) =>
           if max_allowed_power <? power
           then (agent_id, max_allowed_power)
           else (agent_id, power))
        voting_powers.

Definition slash_multiplier (agent : Agent.t) : result float :=
  let* q := fdiv (Agent.amount_slashed agent) (Agent.original_stake agent) in
  Ok (1 + q).

Definition calculate_slash_amount (agent : Agent.t) : result float :=
  let base_slash :=
    Agent.get_effective_stake agent * slashing_rate mechanism in
  if String.eqb (slashing_method mechanism) "linear" then Ok base_slash
  else if String.eqb (slashing_method mechanism) "exponential" then
    let* slash_multiplier := slash_multiplier agent in
    Ok (base_slash * slash_multiplier)
  else if String.eqb (slashing_method mechanism) "progressive" then
    let* times_slashed :=
      (if 0 <? slashing_rate mechanism
       then fdiv (Agent.amount_slashed agent)
                 (slashing_rate mechanism * Agent.original_stake agent)
       else Ok 0) in
    let progressive_multiplier := 1 + times_slashed * 0.5 in
    Ok (base_slash * progressive_multiplier)
  else Ok base_slash.

Fixpoint index_agents (agents : list Agent.t) (i : nat) (d : dict nat)
  : dict nat :=
  match agents with
  | [] => d
  | a :: rest => index_agents rest (S i) (dict_set (Agent.agent_id a) i d)
  end.

Definition agents_by_id (agents : list Agent.t) : dict nat :=
  index_agents agents O [].

Fixpoint slash_loop (by_id : dict nat) (good proposal_passed : bool)
    (items : list (Z * bool)) (store : list Agent.t)
    (agents_slashed : list Z) : result (list Z) * list Agent.t :=
  match items with
  | [] => (Ok agents_slashed, store)
  | (agent_id, vote) :: rest =>
      match dict_get agent_id by_id with
      | None => (Raise (KeyError agent_id), store)
      | Some ix =>
          match store !! ix with
          | None => (Raise (KeyError agent_id), store)
          | Some agent =>
              if (proposal_passed && negb good && vote)
                 || (negb proposal_passed && good && negb vote)
              then
                match calculate_slash_amount agent with
                | Raise e => (Raise e, store)
                | Ok slash_amount =>
                    slash_loop by_id good proposal_passed rest
                      (<[ix := Agent.apply_slashing agent slash_amount]>
                         store)
                      (agents_slashed ++ [agent_id])%list
                end
              else
                slash_loop by_id good proposal_passed rest store
                  agents_slashed
          end
      end
  end.

Definition apply_slashing (agents : list Agent.t) (votes_cast : dict bool)
    (proposal : Proposal) (proposal_passed : bool)
  : result (list Z) * list Agent.t :=
  if String.eqb (slashing_method mechanism) "none"
     || (slashing_rate mechanism =? 0)
  then (Ok [], agents)
  else
    slash_loop (agents_by_id agents) (is_objectively_good proposal)
      proposal_passed votes_cast agents [].

Fixpoint collect (agents : list Agent.t) (quality : float)
    (voting_powers : dict float) (votes_cast : dict bool) (g : rng)
  : result (dict float * dict bool * rng) :=
  match agents with
  | [] => Ok (voting_powers, votes_cast, g)
  | agent :: rest =>
      let* (vote, g1) := Agent.vote_on_proposal agent quality g in
      let votes_cast := dict_set (Agent.agent_id agent) vote votes_cast in
      let* power := calculate_voting_power agent in
      let (power, g2) := apply_sybil_resistance agent power g1 in
      collect rest quality
        (dict_set (Agent.agent_id agent) power voting_powers)
        votes_cast g2
  end.

Fixpoint tally (items : list (Z * bool)) (voting_powers : dict float)
    (yes_power no_power total_power : float)
  : result (float * float * float) :=
  match items with
  | [] => Ok (yes_power, no_power, total_power)
  | (agent_id, vote) :: rest =>
      match dict_get agent_id voting_powers with
      | None => Raise (KeyError agent_id)
      | Some power =>
          let total_power := total_power + power in
          if vote
          then tally rest voting_powers (yes_power + power) no_power
                 total_power
          else tally rest voting_powers yes_power (no_power + power)
                 total_power
      end
  end.

Definition decide_passed (yes_power total_power : float) : result bool :=
  if total_power =? 0 then Ok false
  else
    let* yes_percentage := fdiv yes_power total_power in
    Ok (consensus_threshold mechanism <=? yes_percentage).

Definition conduct_vote (agents : list Agent.t) (proposal : Proposal)
    (g : rng) : result (VoteResult * rng) * list Agent.t :=
  match collect agents (quality proposal) [] [] g with
  | Raise e => (Raise e, agents)
  | Ok (voting_powers, votes_cast, g') =>
      let voting_powers := apply_max_voting_power_cap agents voting_powers in
      match
        (let* (yes_power, no_power, total_power) :=
           tally votes_cast voting_powers 0 0 0 in
         let* passed := decide_passed yes_power total_power in
         Ok (yes_power, no_power, total_power, passed))
      with
      | Raise e => (Raise e, agents)
      | Ok (yes_power, no_power, total_power, passed) =>
          let should_pass := is_objectively_good proposal in
          let correct_outcome := Bool.eqb passed should_pass in
          let (slashed, agents') :=
            if negb correct_outcome
            then apply_slashing agents votes_cast proposal passed
            else (Ok [], agents) in
          match slashed with
          | Raise e => (Raise e, agents')
          | Ok agents_slashed =>
              (Ok ({| proposal := proposal;
                      passed := passed;
                      total_voting_power := total_power;
                      yes_voting_power := yes_power;
                      no_voting_power := no_power;
                      votes_cast := votes_cast;
                      agents_slashed := agents_slashed;
                      correct_outcome := correct_outcome |}, g'),
               agents')
          end
      end
  end.

End Mechanism.

End VotingSystem.

Module SimulationEngine.

Record t : Type := Build {
  scenario_generator : AgentFactory.t;
  proposal_counter : Z
}.

Definition init : t :=
  {| scenario_generator := AgentFactory.init; proposal_counter := 0 |}.

Definition generate_proposal (self : t) (g : rng) : Proposal * t * rng :=
  let counter := (proposal_counter self + 1)%Z in
  let self' := {| scenario_generator := scenario_generator self;
                  proposal_counter := counter |} in
  let (u, g1) := random g in
  let (q, g2) := if u <? 0.3 then uniform 0.4 0.6 g1 else random g1 in
  ({| proposal_id := counter; quality := q |}, self', g2).

Fixpoint run_rounds (mechanism : GovernanceMechanism) (rounds : nat)
    (agents : list Agent.t) (results : list VoteResult) (self : t) (g : rng)
  : result (list VoteResult * t * rng) * list Agent.t :=
  match rounds with
  | O => (Ok (results, self, g), agents)
  | S rounds' =>
      let '(proposal, self1, g1) := generate_proposal self g in
      match VotingSystem.conduct_vote mechanism agents proposal g1 with
      | (Raise e, agents') => (Raise e, agents')
      | (Ok (vote_result, g2), agents') =>
          run_rounds mechanism rounds' agents'
            (results ++ [vote_result])%list self1 g2
      end
  end.

Definition run_attack_instance (mechanism : GovernanceMechanism)
    (attack_type : AttackType.t) (agents : list Agent.t) (rounds : nat)
    (self : t) (g : rng)
  : result (list VoteResult * t * rng) * list Agent.t :=
  run_rounds mechanism rounds agents [] self g.

End SimulationEngine.

End Binary64.

(** * Vocabulary of the properties *)

(** A vote is YES with probability [p] when it is YES exactly on the
    draws below [p]: the next draw [g 0] of [random.random()] is uniform
    on [0, 1), so that event has probability [p] for [0 <= p <= 1].  A
    vote that is always YES and draws nothing has probability 1. *)
Definition yes_with_probability (vote : rng -> result (bool * rng)) (p : R)
  : Prop :=
  0 <= p <= 1 /\
  forall g, uniform01 g -> exists g', vote g = Ok (Rltb (g O) p, g').

(** A generator that always draws one half. *)
Definition half_rng : rng := fun _ => 0.5.

(** An honest agent whose threshold is the lower end of its range. *)
Definition honest_low : Agent.t := Agent.new 1 HONEST 7 (Some 0.4).

(** An honest agent in the middle of its ranges. *)
Definition honest_mid : Agent.t := Agent.new 2 HONEST 8 (Some 0.6).

(** A sequence of [apply_slashing] calls on one agent. *)
Definition slash_all (a : Agent.t) (amounts : list R) : Agent.t :=
  fold_left Agent.apply_slashing amounts a.

(** The table of base powers, by stake method. *)
Definition spec_base_power (method : string) (effective_stake base : R)
  : Prop :=
  (method = "equal_weight" /\ base = 1) \/
  (method = "token_based" /\ base = effective_stake) \/
  (method = "reputation_based" /\ base = effective_stake) \/
  (method = "hybrid" /\ base = (effective_stake + 1) / 2).

(** The table of voting-method transforms. *)
Definition spec_voting_power (method : string) (base power : R) : Prop :=
  (method = "simple_majority" /\ power = 1) \/
  (method = "weighted" /\ power = base) \/
  (method = "quadratic" /\ power = sqrt base).

Definition recognized_stake_method (method : string) : Prop :=
  method = "equal_weight" \/ method = "token_based" \/
  method = "reputation_based" \/ method = "hybrid".

Definition recognized_voting_method (method : string) : Prop :=
  method = "simple_majority" \/ method = "weighted" \/ method = "quadratic".

(** A mechanism of the generator's catalogue. *)
Definition weighted_exponential : GovernanceMechanism :=
  {| voting_method := "weighted"; stake_method := "token_based";
     slashing_method := "exponential"; consensus_threshold := 0.5;
     slashing_rate := 0.1; sybil_resistance := 0; max_voting_power := 1 |}.

Definition quadratic_hybrid : GovernanceMechanism :=
  {| voting_method := "quadratic"; stake_method := "hybrid";
     slashing_method := "linear"; consensus_threshold := 0.65;
     slashing_rate := 0.2; sybil_resistance := 0.95; max_voting_power := 0.5 |}.

(** A mechanism whose slashing method is none of the four. *)
Definition quartic_slashing : GovernanceMechanism :=
  {| voting_method := "weighted"; stake_method := "token_based";
     slashing_method := "quartic"; consensus_threshold := 0.5;
     slashing_rate := 0.1; sybil_resistance := 0; max_voting_power := 1 |}.

(** What a round may change of an agent: nothing but [amount_slashed]. *)
Definition same_but_slashed (before after : Agent.t) : Prop :=
  Agent.agent_id after = Agent.agent_id before /\
  Agent.agent_type after = Agent.agent_type before /\
  Agent.stake after = Agent.stake before /\
  Agent.original_stake after = Agent.original_stake before /\
  Agent.honesty_threshold after = Agent.honesty_threshold before.

(** An agent as the population builder makes them: a stake that is not
    zero, recorded as the original stake, and, for an honest agent, a
    threshold in its range. *)
Definition well_formed (a : Agent.t) : Prop :=
  Agent.original_stake a <> 0 /\
  (Agent.agent_type a = HONEST ->
   exists x, Agent.honesty_threshold a = Some x /\ 0.4 <= x <= 0.8).

(** The agent voted in support of the outcome, and the outcome was
    wrong. *)
Definition supported_wrong_outcome (r : VoteResult) (agent_id : Z) : Prop :=
  (passed r = true /\ is_objectively_good (proposal r) = false /\
   dict_get agent_id (votes_cast r) = Some true) \/
  (passed r = false /\ is_objectively_good (proposal r) = true /\
   dict_get agent_id (votes_cast r) = Some false).

Definition two_powers : dict R := [(1%Z, 9); (2%Z, 1)].

Definition two_honest : list Agent.t := [honest_low; honest_mid].

Definition good_proposal : Proposal := {| proposal_id := 2; quality := 0.7 |}.

(** The test of [apply_slashing] on one vote. *)
Definition supports_wrong (good proposal_passed vote : bool) : bool :=
  (proposal_passed && negb good && vote)
  || (negb proposal_passed && good && negb vote).

(** The ids of an index are the ids of the objects it points to. *)
Definition index_sound (by_id : dict nat) (store : list Agent.t) : Prop :=
  forall k ix a,
    dict_get k by_id = Some ix -> store !! ix = Some a ->
    Agent.agent_id a = k.

(** The vote recorded for an id passes the test of [apply_slashing]. *)
Definition struck (r : VoteResult) (agent_id : Z) : Prop :=
  exists vote,
    dict_get agent_id (votes_cast r) = Some vote /\
    supports_wrong (is_objectively_good (proposal r)) (passed r) vote = true.

(** Two systematically biased agents, two sybils, and a mechanism with
    linear slashing and full sybil resistance. *)
Definition biased_pair : list Agent.t :=
  [Agent.new 1 SYSTEMATIC_BIAS 10 None; Agent.new 2 SYSTEMATIC_BIAS 5 None].

Definition sybil_pair : list Agent.t :=
  [Agent.new 1 SYBIL 1 None; Agent.new 2 SYBIL 1 None].

Definition linear_weighted : GovernanceMechanism :=
  {| voting_method := "weighted"; stake_method := "token_based";
     slashing_method := "linear"; consensus_threshold := 0.5;
     slashing_rate := 0.2; sybil_resistance := 1; max_voting_power := 1 |}.

(** The stake range of each type of agent.  The ranges include both
    end points: [random.uniform(a, b)] computes [a + (b - a) * random()]
    and rounds, so that it can return [b] itself. *)
Definition stake_in_range (a : Agent.t) : Prop :=
  match Agent.agent_type a with
  | WHALE => 50 <= Agent.stake a <= 200
  | SYBIL => Agent.stake a = 1
  | _ => 5 <= Agent.stake a <= 10
  end.

(** An agent as a factory method leaves it: never slashed, its stake in
    range and recorded as the original stake, and a threshold in
    [0.4, 0.8] exactly when it is honest. *)
Definition fresh_agent (a : Agent.t) : Prop :=
  Agent.amount_slashed a = 0 /\
  Agent.original_stake a = Agent.stake a /\
  stake_in_range a /\
  match Agent.honesty_threshold a with
  | Some x => Agent.agent_type a = HONEST /\ 0.4 <= x <= 0.8
  | None => Agent.agent_type a <> HONEST
  end.

(** A factory method that makes agents of one type. *)
Definition creates (create : AttackScenarioGenerator.creator)
    (ty : AgentType) : Prop :=
  forall factory g,
    exists a g',
      create factory g
        = (a, {| AgentFactory.agent_counter :=
                   (AgentFactory.agent_counter factory + 1)%Z |}, g') /\
      Agent.agent_id a = (AgentFactory.agent_counter factory + 1)%Z /\
      Agent.agent_type a = ty /\
      (uniform01 g -> uniform01 g' /\ fresh_agent a).

(** The ids [c + 1, ..., c + n]. *)
Definition ids_after (c : Z) (n : nat) : list Z :=
  map (fun j => (c + 1 + Z.of_nat j)%Z) (seq 0 n).

(** The types of the population of each attack scenario, in order. *)
Definition composition (attack_type : AttackType.t) : list AgentType :=
  match attack_type with
  | AttackType.COLLUSION =>
      (List.repeat COLLUSION 8 ++ List.repeat HONEST 42)%list
  | AttackType.WHALE =>
      (List.repeat WHALE 4 ++ List.repeat HONEST 46)%list
  | AttackType.SYBIL =>
      (List.repeat SYBIL 10 ++ List.repeat HONEST 40)%list
  | AttackType.BIAS =>
      (List.repeat EMOTIONAL_BIAS 5 ++ List.repeat SYSTEMATIC_BIAS 5
       ++ List.repeat HONEST 40)%list
  end.

(** The generator [g'] is [g] after some number of draws. *)
Definition continues (g g' : rng) : Prop :=
  exists k, forall n, g' n = g (k + n)%nat.

(** The capped powers of the agents recorded as voting [side], in the
    order of [votes_cast]. *)
Definition powers_of_side (side : bool) (votes_cast : dict bool)
    (voting_powers : dict R) : list R :=
  flat_map (fun '(agent_id, vote) =>
              if Bool.eqb vote side
              then match dict_get agent_id voting_powers with
                   | Some power => [power]
                   | None => []
                   end
              else [])
           votes_cast.

(** ** Scripted runs in binary64 *)

Module Scripted.

Import Floats.
#[local] Set Warnings "-inexact-float".
Local Open Scope float_scope.

(** Draws that make every proposal of [generate_proposal] one of
    quality 0.7: the first draw of each pair is not below 0.3, the
    second is the quality. *)
Definition quality_07 : Binary64.rng :=
  fun n => if Nat.even n then 0.5 else 0.7.

Definition good_proposal : Binary64.Proposal :=
  {| Binary64.proposal_id := 1; Binary64.quality := 0.7 |}.

(** Weighted voting on token stakes at a threshold of one half, without
    sybil discount or cap, under a slashing method and rate. *)
Definition weighted (method : string) (rate : float)
  : Binary64.GovernanceMechanism :=
  {| Binary64.voting_method := "weighted";
     Binary64.stake_method := "token_based";
     Binary64.slashing_method := method;
     Binary64.consensus_threshold := 0.5;
     Binary64.slashing_rate := rate;
     Binary64.sybil_resistance := 0;
     Binary64.max_voting_power := 1 |}.

(** One systematically biased agent, as its factory method can make
    it. *)
Definition biased_one : list Binary64.Agent.t :=
  [Binary64.Agent.new 1 SYSTEMATIC_BIAS 10 None].

(** A colluder and two systematically biased agents. *)
Definition three_voters : list Binary64.Agent.t :=
  [Binary64.Agent.new 1 COLLUSION 5.1 None;
   Binary64.Agent.new 2 SYSTEMATIC_BIAS 5.1 None;
   Binary64.Agent.new 3 SYSTEMATIC_BIAS 5.3 None].

(** An agent of stake 8 with a given [amount_slashed]. *)
Definition slashed_by (amount : float) : Binary64.Agent.t :=
  Binary64.Agent.set_amount_slashed
    (Binary64.Agent.new 2 HONEST 8 (Some 0.6)) amount.

(** [rounds] rounds of [run_attack_instance] on [biased_one], each on a
    proposal of quality 0.7. *)
Definition instance (m : Binary64.GovernanceMechanism) (rounds : nat)
  : result (list Binary64.VoteResult * Binary64.SimulationEngine.t
            * Binary64.rng)
    * list Binary64.Agent.t :=
  Binary64.SimulationEngine.run_attack_instance m AttackType.BIAS
    biased_one rounds Binary64.SimulationEngine.init quality_07.

(** What the last round of an instance returned: whether the proposal
    is objectively good, [passed], [correct_outcome], [votes_cast] and
    [agents_slashed]. *)
Definition last_round (m : Binary64.GovernanceMechanism) (rounds : nat)
  : option (bool * bool * bool * dict bool * list Z) :=
  match fst (instance m rounds) with
  | Ok (results, _, _) =>
      option_map
        (fun r => (Binary64.is_objectively_good (Binary64.proposal r),
                   Binary64.passed r, Binary64.correct_outcome r,
                   Binary64.votes_cast r, Binary64.agents_slashed r))
        (last results)
  | Raise _ => None
  end.

(** The [amount_slashed] of the agents after an instance. *)
Definition slashed_after (m : Binary64.GovernanceMechanism) (rounds : nat)
  : list float :=
  map Binary64.Agent.amount_slashed (snd (instance m rounds)).

End Scripted.

(** * Properties *)

(** ** Reading the float comparisons *)

Lemma Rltb_true (a b : R) : Rltb a b = true <-> a < b.
Proof. unfold Rltb; destruct (Rlt_dec a b); split; (congruence || lra). Qed.

Lemma Rltb_false (a b : R) : Rltb a b = false <-> b <= a.
Proof. unfold Rltb; destruct (Rlt_dec a b); split; (congruence || lra). Qed.

Lemma Rleb_true (a b : R) : Rleb a b = true <-> a <= b.
Proof. unfold Rleb; destruct (Rle_dec a b); split; (congruence || lra). Qed.

Lemma Rleb_false (a b : R) : Rleb a b = false <-> b < a.
Proof. unfold Rleb; destruct (Rle_dec a b); split; (congruence || lra). Qed.

Lemma Reqb_true (a b : R) : Reqb a b = true <-> a = b.
Proof. unfold Reqb; destruct (Req_dec_T a b); split; (congruence || lra). Qed.

Lemma Reqb_false (a b : R) : Reqb a b = false <-> a <> b.
Proof. unfold Reqb; destruct (Req_dec_T a b); split; (congruence || lra). Qed.

(** Decide every float comparison in sight, keeping the facts. *)
Ltac float_cases :=
  repeat match goal with
    | |- context [Rltb ?a ?b] =>
        let E := fresh "E" in
        destruct (Rltb a b) eqn:E;
        [apply Rltb_true in E | apply Rltb_false in E]
    | |- context [Rleb ?a ?b] =>
        let E := fresh "E" in
        destruct (Rleb a b) eqn:E;
        [apply Rleb_true in E | apply Rleb_false in E]
    | |- context [Reqb ?a ?b] =>
        let E := fresh "E" in
        destruct (Reqb a b) eqn:E;
        [apply Reqb_true in E | apply Reqb_false in E]
    end.

Lemma fdiv_ok (a b : R) : b <> 0 -> fdiv a b = Ok (a / b).
Proof. intros Hb; unfold fdiv; float_cases; [contradiction | reflexivity]. Qed.

Lemma fdiv_zero (a : R) : fdiv a 0 = Raise ZeroDivisionError.
Proof. unfold fdiv; float_cases; [reflexivity | contradiction]. Qed.

Lemma effective_stake_nonneg (a : Agent.t) : 0 <= Agent.get_effective_stake a.
Proof. apply Rmax_l. Qed.

Lemma effective_stake_pos (a : Agent.t) :
  Agent.amount_slashed a < Agent.stake a ->
  Agent.get_effective_stake a = Agent.stake a - Agent.amount_slashed a.
Proof. intros H; unfold Agent.get_effective_stake; apply Rmax_right; lra. Qed.

(** ** Honest votes *)

Lemma ratio_below_one (q x : R) : 0 < q -> q < x -> 0 < q / x < 1.
Proof.
  intros Hq Hx.
  assert (Hi : 0 < / x) by (apply Rinv_0_lt_compat; lra).
  assert (Hxi : x * / x = 1) by (apply Rinv_r; lra).
  unfold Rdiv; split; nra.
Qed.

Lemma low_quality_probability (q x : R) :
  0.4 <= x -> q <= 0.4 -> 0 <= Rmax 0 ((q - 0.2) / (x + 0.5)) < 1.
Proof.
  intros Hx Hq; split; [apply Rmax_l|].
  assert (Hi : 0 < / (x + 0.5)) by (apply Rinv_0_lt_compat; lra).
  assert (Hxi : (x + 0.5) * / (x + 0.5) = 1) by (apply Rinv_r; lra).
  apply Rmax_lub_lt; [lra | unfold Rdiv; nra].
Qed.

Lemma honest_vote_low (a : Agent.t) (x q : R) (g : rng) :
  Agent.honesty_threshold a = Some x -> 0.4 <= x -> q <= 0.4 ->
  Agent._honest_vote a q g =
    Ok (Rltb (g O) (Rmax 0 ((q - 0.2) / (x + 0.5))), snd (random g)).
Proof.
  intros Hx Hlo Hq; unfold Agent._honest_vote; rewrite Hx.
  rewrite (fdiv_ok (q - 0.2) (x + 0.5)) by lra; simpl.
  float_cases; simpl; try reflexivity; lra.
Qed.

Lemma honest_vote_mid (a : Agent.t) (x q : R) (g : rng) :
  Agent.honesty_threshold a = Some x -> 0.4 < q < x ->
  Agent._honest_vote a q g = Ok (Rltb (g O) (q / x), snd (random g)).
Proof.
  intros Hx Hq; unfold Agent._honest_vote; rewrite Hx.
  rewrite (fdiv_ok q x) by lra; simpl.
  float_cases; simpl; try reflexivity; lra.
Qed.

Lemma honest_vote_high (a : Agent.t) (x q : R) (g : rng) :
  Agent.honesty_threshold a = Some x -> x <= q -> 0.4 < q ->
  Agent._honest_vote a q g = Ok (true, g).
Proof.
  intros Hx Hq Hlo; unfold Agent._honest_vote; rewrite Hx.
  float_cases; simpl; try reflexivity; lra.
Qed.

(** C1, as the code has it: an honest agent with threshold [x] in
    [0.4, 0.8] votes YES on a proposal of quality [q] in [0, 1] with
    probability 1 when [q >= x], except at [q = x = 0.4]; with probability
    [q / x] when [0.4 < q < x]; and with probability
    [max(0, (q - 0.2) / (x + 0.5))] when [q <= 0.4], which includes
    [q = x = 0.4]. *)
Theorem honest_vote_distribution (a : Agent.t) (x q : R) :
  Agent.agent_type a = HONEST ->
  Agent.honesty_threshold a = Some x ->
  0.4 <= x <= 0.8 ->
  0 <= q <= 1 ->
  (x <= q -> ~ (q = 0.4 /\ x = 0.4) ->
   yes_with_probability (Agent.vote_on_proposal a q) 1) /\
  (0.4 < q < x ->
   yes_with_probability (Agent.vote_on_proposal a q) (q / x)) /\
  (q <= 0.4 ->
   yes_with_probability (Agent.vote_on_proposal a q)
     (Rmax 0 ((q - 0.2) / (x + 0.5)))).
Proof.
  intros Hty Hx Hrange Hq.
  unfold yes_with_probability, Agent.vote_on_proposal; rewrite Hty.
  split; [|split].
  - intros Hge Hcorner; split; [lra|].
    intros g Hg; exists g.
    rewrite (honest_vote_high a x q g Hx Hge) by lra.
    destruct (Hg O) as [_ Hlt]; apply Rltb_true in Hlt; rewrite Hlt.
    reflexivity.
  - intros Hmid; split.
    + pose proof (ratio_below_one q x) as Hb; lra.
    + intros g _; exists (snd (random g)).
      apply honest_vote_mid; assumption.
  - intros Hlow; split.
    + pose proof (low_quality_probability q x) as Hb; lra.
    + intros g _; exists (snd (random g)).
      apply honest_vote_low; [assumption | lra | assumption].
Qed.

Lemma honest_vote_distribution_witness :
  yes_with_probability (Agent.vote_on_proposal honest_mid 0.5) (0.5 / 0.6).
Proof.
  apply (honest_vote_distribution honest_mid 0.6 0.5);
    [reflexivity | reflexivity | lra | lra | lra].
Defined.

(** C1, as stated, fails where the threshold and the quality are both
    0.4: the quality reaches the threshold, and the vote is still NO on
    the draw one half. *)
Lemma honest_vote_at_threshold_low :
  Agent.agent_type honest_low = HONEST /\
  Agent.honesty_threshold honest_low = Some 0.4 /\
  0.4 <= 0.4 <= 0.8 /\ 0 <= 0.4 <= 1 /\ 0.4 >= 0.4 /\
  uniform01 half_rng /\
  Agent.vote_on_proposal honest_low 0.4 half_rng
    = Ok (false, snd (random half_rng)) /\
  ~ yes_with_probability (Agent.vote_on_proposal honest_low 0.4) 1.
Proof.
  assert (Hu : uniform01 half_rng) by (intros n; unfold half_rng; lra).
  assert (Hv : Agent.vote_on_proposal honest_low 0.4 half_rng
               = Ok (false, snd (random half_rng))).
  { unfold Agent.vote_on_proposal; simpl.
    rewrite (honest_vote_low honest_low 0.4 0.4 half_rng);
      [|reflexivity|lra|lra].
    pose proof (low_quality_probability 0.4 0.4) as Hb.
    assert (Hp : Rmax 0 ((0.4 - 0.2) / (0.4 + 0.5)) <= 0.5).
    { apply Rmax_lub; [lra|].
      assert (Hi : 0 < / (0.4 + 0.5)) by (apply Rinv_0_lt_compat; lra).
      assert (Hxi : (0.4 + 0.5) * / (0.4 + 0.5) = 1) by (apply Rinv_r; lra).
      unfold Rdiv; nra. }
    apply Rltb_false in Hp; unfold half_rng at 1; rewrite Hp; reflexivity. }
  repeat split; try lra; try assumption; try apply Hu.
  intros [_ Hall]; destruct (Hall half_rng Hu) as [g' Hg'].
  rewrite Hv in Hg'.
  assert (Ht : Rltb (half_rng O) 1 = true)
    by (apply Rltb_true; unfold half_rng; lra).
  rewrite Ht in Hg'; discriminate.
Qed.

(** ** Slashing of one agent *)

Lemma apply_slashing_frame (a : Agent.t) (s : R) :
  Agent.agent_id (Agent.apply_slashing a s) = Agent.agent_id a /\
  Agent.agent_type (Agent.apply_slashing a s) = Agent.agent_type a /\
  Agent.stake (Agent.apply_slashing a s) = Agent.stake a /\
  Agent.original_stake (Agent.apply_slashing a s) = Agent.original_stake a /\
  Agent.honesty_threshold (Agent.apply_slashing a s)
    = Agent.honesty_threshold a.
Proof. repeat split. Qed.

Lemma apply_slashing_step (a : Agent.t) (s : R) :
  Agent.amount_slashed a <= Agent.stake a -> 0 <= s ->
  Agent.amount_slashed a <= Agent.amount_slashed (Agent.apply_slashing a s)
    <= Agent.stake a.
Proof.
  intros Ha Hs; unfold Agent.apply_slashing; simpl.
  float_cases; lra.
Qed.

Lemma slash_all_stake (amounts : list R) (a : Agent.t) :
  Agent.stake (slash_all a amounts) = Agent.stake a.
Proof.
  revert a; induction amounts as [|s rest IH]; intros a; [reflexivity|].
  unfold slash_all in *; simpl; rewrite IH; reflexivity.
Qed.

Lemma slash_all_monotone (amounts : list R) (a : Agent.t) :
  Agent.amount_slashed a <= Agent.stake a ->
  Forall (Rle 0) amounts ->
  Agent.amount_slashed a <= Agent.amount_slashed (slash_all a amounts)
    <= Agent.stake a.
Proof.
  revert a; induction amounts as [|s rest IH]; intros a Ha Hall.
  - unfold slash_all; simpl; lra.
  - inversion Hall as [|? ? Hs Hrest]; subst.
    pose proof (apply_slashing_step a s Ha Hs) as Hstep.
    specialize (IH (Agent.apply_slashing a s)).
    change (slash_all a (s :: rest))
      with (slash_all (Agent.apply_slashing a s) rest).
    change (Agent.stake (Agent.apply_slashing a s)) with (Agent.stake a) in IH.
    specialize (IH ltac:(lra) Hrest); lra.
Qed.

(** C7: an agent built with a stake that is not negative, put through
    any two successive runs of [apply_slashing] calls with amounts that
    are not negative, never sees [amount_slashed] go down, never has it
    above [stake], and keeps its effective stake within [0, stake]. *)
Theorem slashing_monotone_and_clamped
    (id : Z) (ty : AgentType) (stk : R) (thr : option R)
    (earlier later : list R) :
  0 <= stk ->
  Forall (Rle 0) earlier -> Forall (Rle 0) later ->
  let a0 := Agent.new id ty stk thr in
  let a1 := slash_all a0 earlier in
  let a2 := slash_all a1 later in
  Agent.stake a2 = stk /\
  0 <= Agent.amount_slashed a1 <= Agent.amount_slashed a2 /\
  Agent.amount_slashed a2 <= stk /\
  0 <= Agent.get_effective_stake a2 <= stk.
Proof.
  intros Hstk Hearlier Hlater a0 a1 a2.
  assert (H1 : Agent.amount_slashed a0 <= Agent.amount_slashed a1
               <= Agent.stake a0)
    by (apply slash_all_monotone; [simpl; lra | assumption]).
  assert (Hs1 : Agent.stake a1 = stk) by (apply slash_all_stake).
  assert (H2 : Agent.amount_slashed a1 <= Agent.amount_slashed a2
               <= Agent.stake a1)
    by (apply slash_all_monotone; [rewrite Hs1; simpl in H1; lra | assumption]).
  assert (Hs2 : Agent.stake a2 = stk)
    by (unfold a2; rewrite slash_all_stake; exact Hs1).
  simpl in H1; rewrite Hs1 in H2.
  repeat split; try lra.
  - apply effective_stake_nonneg.
  - unfold Agent.get_effective_stake; rewrite Hs2; apply Rmax_lub; lra.
Qed.

Lemma slashing_monotone_and_clamped_witness :
  let a2 := slash_all (slash_all (Agent.new 1 WHALE 10 None) [3; 4]) [5] in
  Agent.stake a2 = 10 /\
  0 <= Agent.amount_slashed (slash_all (Agent.new 1 WHALE 10 None) [3; 4])
    <= Agent.amount_slashed a2 /\
  Agent.amount_slashed a2 <= 10 /\
  0 <= Agent.get_effective_stake a2 <= 10.
Proof.
  apply (slashing_monotone_and_clamped 1 WHALE 10 None [3; 4] [5]);
    [lra | repeat constructor; lra | repeat constructor; lra].
Defined.

(** ** Slash amounts *)

Lemma slash_multiplier_value (a : Agent.t) :
  Agent.original_stake a <> 0 ->
  VotingSystem.slash_multiplier a
    = Ok (1 + Agent.amount_slashed a / Agent.original_stake a).
Proof.
  intros H; unfold VotingSystem.slash_multiplier.
  rewrite fdiv_ok by assumption; reflexivity.
Qed.

(** C8: under the exponential method the slash amount is the base
    penalty times the multiplier [1 + amount_slashed / original_stake].
    For a positive original stake the multiplier does not decrease when
    [amount_slashed] grows, it is 1 for an agent that was never slashed
    and at least 1 for every other.  Nothing here says that it grows
    strictly: on binary64 floats it does not
    ([exponential_multiplier_not_strict]). *)
Theorem exponential_multiplier_monotone
    (m : GovernanceMechanism) (first second : Agent.t) :
  slashing_method m = "exponential" ->
  0 < slashing_rate m ->
  0 < Agent.original_stake first ->
  Agent.original_stake second = Agent.original_stake first ->
  0 <= Agent.amount_slashed first <= Agent.amount_slashed second ->
  exists m1 m2,
    VotingSystem.slash_multiplier first = Ok m1 /\
    VotingSystem.slash_multiplier second = Ok m2 /\
    m1 = 1 + Agent.amount_slashed first / Agent.original_stake first /\
    m2 = 1 + Agent.amount_slashed second / Agent.original_stake second /\
    1 <= m1 <= m2 /\
    (Agent.amount_slashed first = 0 -> m1 = 1) /\
    VotingSystem.calculate_slash_amount m first
      = Ok (Agent.get_effective_stake first * slashing_rate m * m1) /\
    VotingSystem.calculate_slash_amount m second
      = Ok (Agent.get_effective_stake second * slashing_rate m * m2).
Proof.
  intros Hm Hrate Hpos Hsame [Hnn Hle].
  exists (1 + Agent.amount_slashed first / Agent.original_stake first),
         (1 + Agent.amount_slashed second / Agent.original_stake second).
  assert (Hi : 0 < / Agent.original_stake first)
    by (apply Rinv_0_lt_compat; assumption).
  split; [apply slash_multiplier_value; lra|].
  split; [apply slash_multiplier_value; lra|].
  split; [reflexivity|]; split; [reflexivity|].
  split; [rewrite Hsame; unfold Rdiv; split; nra|].
  split; [intros ->; unfold Rdiv; lra|].
  unfold VotingSystem.calculate_slash_amount; rewrite Hm; simpl.
  rewrite !slash_multiplier_value by lra; simpl; split; reflexivity.
Qed.

Lemma exponential_multiplier_monotone_witness :
  exists m1 m2,
    VotingSystem.slash_multiplier honest_mid = Ok m1 /\
    VotingSystem.slash_multiplier (Agent.apply_slashing honest_mid 2)
      = Ok m2 /\
    1 <= m1 <= m2.
Proof.
  destruct (exponential_multiplier_monotone weighted_exponential
              honest_mid (Agent.apply_slashing honest_mid 2))
    as (m1 & m2 & H1 & H2 & _ & _ & Hle & _).
  - reflexivity.
  - simpl; lra.
  - simpl; lra.
  - reflexivity.
  - unfold Agent.apply_slashing; simpl. float_cases; lra.
  - exists m1, m2; auto.
Defined.

Lemma unknown_slashing_method_base (m : GovernanceMechanism) (a : Agent.t) :
  slashing_method m <> "linear" ->
  slashing_method m <> "exponential" ->
  slashing_method m <> "progressive" ->
  VotingSystem.calculate_slash_amount m a
    = Ok (Agent.get_effective_stake a * slashing_rate m).
Proof.
  intros Hl He Hp; unfold VotingSystem.calculate_slash_amount.
  apply String.eqb_neq in Hl, He, Hp; rewrite Hl, He, Hp; reflexivity.
Qed.

(** C4: with the slashing method "quartic", which is none of none,
    linear, exponential and progressive, and a rate of 0.1, the slash
    amount of a fresh agent of stake 8 is computed, not refused: it is the
    base penalty [8 * 0.1]. *)
Theorem unknown_slashing_method_not_refused :
  VotingSystem.calculate_slash_amount quartic_slashing honest_mid
    = Ok (8 * 0.1) /\
  forall e,
    VotingSystem.calculate_slash_amount quartic_slashing honest_mid
      <> Raise e.
Proof.
  assert (H : VotingSystem.calculate_slash_amount quartic_slashing honest_mid
              = Ok (8 * 0.1)).
  { rewrite unknown_slashing_method_base by (simpl; discriminate).
    rewrite effective_stake_pos by (simpl; lra).
    simpl; f_equal; lra. }
  split; [exact H | intros e; rewrite H; discriminate].
Qed.

(** ** Voting power *)

Lemma base_power_nonneg (method : string) (a : Agent.t) (base : R) :
  spec_base_power method (Agent.get_effective_stake a) base -> 0 <= base.
Proof.
  pose proof (effective_stake_nonneg a) as He.
  intros [(_ & ->)|[(_ & ->)|[(_ & ->)|(_ & ->)]]]; lra.
Qed.

Lemma math_sqrt_ok (x : R) : 0 <= x -> math_sqrt x = Ok (sqrt x).
Proof. intros H; unfold math_sqrt; float_cases; [lra | reflexivity]. Qed.

(** C6: for a recognized stake method and voting method,
    [calculate_voting_power] is the voting-method transform (1 for
    simple_majority, the base power for weighted, its square root for
    quadratic) of the base power of the stake method (1 for equal_weight,
    the effective stake for token_based and reputation_based,
    [(effective_stake + 1) / 2] for hybrid); under simple_majority any
    two agents have the same power 1, whatever their stakes. *)
Theorem voting_power_table (m : GovernanceMechanism) :
  (forall (a : Agent.t) (base power : R),
     spec_base_power (stake_method m) (Agent.get_effective_stake a) base ->
     spec_voting_power (voting_method m) base power ->
     VotingSystem.calculate_voting_power m a = Ok power) /\
  (forall a1 a2 : Agent.t,
     recognized_stake_method (stake_method m) ->
     voting_method m = "simple_majority" ->
     VotingSystem.calculate_voting_power m a1 = Ok 1 /\
     VotingSystem.calculate_voting_power m a2 = Ok 1).
Proof.
  split.
  - intros a base power Hbase Hpower.
    pose proof (base_power_nonneg _ _ _ Hbase) as Hnn.
    unfold VotingSystem.calculate_voting_power.
    destruct Hbase as [(-> & ->)|[(-> & ->)|[(-> & ->)|(-> & ->)]]];
      destruct Hpower as [(-> & ->)|[(-> & ->)|(-> & ->)]]; simpl;
      try reflexivity; apply math_sqrt_ok; assumption.
  - intros a1 a2 Hstake Hvote.
    unfold VotingSystem.calculate_voting_power; rewrite Hvote.
    destruct Hstake as [-> | [-> | [-> | ->]]]; simpl; split; reflexivity.
Qed.

Lemma voting_power_table_witness :
  VotingSystem.calculate_voting_power quadratic_hybrid honest_mid
    = Ok (sqrt ((8 + 1) / 2)).
Proof.
  apply (proj1 (voting_power_table quadratic_hybrid) honest_mid
           ((8 + 1) / 2) (sqrt ((8 + 1) / 2))).
  - right; right; right; split; [reflexivity|].
    rewrite effective_stake_pos by (simpl; lra); simpl; lra.
  - right; right; split; reflexivity.
Defined.

(** ** Dictionaries and sums *)

Section Dict.

Context {V : Type}.
Implicit Types (d : dict V) (k : Z) (v : V).

Lemma dict_get_set_eq k v d : dict_get k (dict_set k v d) = Some v.
Proof.
  induction d as [|[k' v'] d IH]; simpl.
  - rewrite Z.eqb_refl; reflexivity.
  - destruct (Z.eqb_spec k k') as [->|Hne]; simpl.
    + rewrite Z.eqb_refl; reflexivity.
    + destruct (Z.eqb_spec k k'); [contradiction | exact IH].
Qed.

Lemma dict_get_set_ne k k' v d :
  k <> k' -> dict_get k (dict_set k' v d) = dict_get k d.
Proof.
  intros Hne; induction d as [|[k0 v0] d IH]; simpl.
  - destruct (Z.eqb_spec k k'); [contradiction | reflexivity].
  - destruct (Z.eqb_spec k' k0) as [->|Hne0]; simpl.
    + destruct (Z.eqb_spec k k0); [contradiction | reflexivity].
    + destruct (Z.eqb_spec k k0); [reflexivity | exact IH].
Qed.

Lemma keys_set_In k k' v d :
  In k (keys (dict_set k' v d)) <-> k = k' \/ In k (keys d).
Proof.
  unfold keys; induction d as [|[k0 v0] d IH]; simpl.
  - intuition.
  - destruct (Z.eqb_spec k' k0) as [->|Hne]; simpl; [intuition|].
    rewrite IH; intuition.
Qed.

Lemma keys_set_NoDup k v d :
  List.NoDup (keys d) -> List.NoDup (keys (dict_set k v d)).
Proof.
  unfold keys; induction d as [|[k0 v0] d IH]; simpl; intros Hnd.
  - constructor; [intros [] | constructor].
  - inversion Hnd as [|? ? Hnotin Hrest]; subst.
    destruct (Z.eqb_spec k k0) as [->|Hne]; simpl.
    + constructor; assumption.
    + constructor; [|apply IH; assumption].
      intros Hin; apply (keys_set_In k0 k v d) in Hin.
      destruct Hin as [Heq|Hin]; [congruence | contradiction].
Qed.

Lemma dict_get_In k v d :
  List.NoDup (keys d) -> (dict_get k d = Some v <-> In (k, v) d).
Proof.
  unfold keys; induction d as [|[k0 v0] d IH]; simpl; intros Hnd.
  - split; [discriminate | intros []].
  - inversion Hnd as [|? ? Hnotin Hrest]; subst.
    destruct (Z.eqb_spec k k0) as [->|Hne].
    + split.
      * intros [= ->]; left; reflexivity.
      * intros [[= ->]|Hin]; [reflexivity|].
        exfalso; apply Hnotin.
        change k0 with (fst (k0, v)); apply in_map; exact Hin.
    + rewrite (IH Hrest); split; [right; assumption|].
      intros [[= -> ->]|Hin]; [contradiction | assumption].
Qed.

Lemma dict_get_keys k d : In k (keys d) -> exists v, dict_get k d = Some v.
Proof.
  unfold keys; induction d as [|[k0 v0] d IH]; simpl; [intros []|].
  intros Hin; destruct (Z.eqb_spec k k0) as [->|Hne]; [eauto|].
  destruct Hin as [Heq|Hin]; [congruence | auto].
Qed.

Lemma dict_get_Some_keys k v d : dict_get k d = Some v -> In k (keys d).
Proof.
  unfold keys; induction d as [|[k0 v0] d IH]; simpl; [discriminate|].
  destruct (Z.eqb_spec k k0) as [->|Hne]; [left; reflexivity|].
  intros H; right; auto.
Qed.

Lemma dict_get_values k v d : dict_get k d = Some v -> In v (values d).
Proof.
  unfold values; induction d as [|[k0 v0] d IH]; simpl; [discriminate|].
  destruct (Z.eqb_spec k k0) as [->|Hne]; [intros [= ->]; left; reflexivity|].
  intros H; right; auto.
Qed.

Lemma values_set_In v k v' d :
  In v (values (dict_set k v' d)) -> v = v' \/ In v (values d).
Proof.
  unfold values; induction d as [|[k0 v0] d IH]; simpl.
  - intuition.
  - destruct (Z.eqb_spec k k0) as [->|Hne]; simpl; intuition.
Qed.

End Dict.

Lemma keys_set_same {V W : Type} (k : Z) (v : V) (w : W)
    (d : dict V) (e : dict W) :
  keys d = keys e -> keys (dict_set k v d) = keys (dict_set k w e).
Proof.
  unfold keys; revert e; induction d as [|[k0 v0] d IH];
    intros [|[k1 w1] e]; simpl; try discriminate; [reflexivity|].
  intros [= -> Hrest].
  destruct (Z.eqb_spec k k1); simpl; f_equal; auto.
Qed.

Lemma fold_plus_from (xs : list R) (a : R) :
  fold_left Rplus xs a = a + Py.sum xs.
Proof.
  unfold Py.sum; revert a; induction xs as [|x xs IH]; intros a; simpl.
  - lra.
  - rewrite (IH (a + x)), (IH (0 + x)); lra.
Qed.

Lemma sum_cons (x : R) (xs : list R) : Py.sum (x :: xs) = x + Py.sum xs.
Proof. unfold Py.sum at 1; simpl; rewrite fold_plus_from; lra. Qed.

Lemma sum_nonneg (xs : list R) : Forall (Rle 0) xs -> 0 <= Py.sum xs.
Proof.
  induction 1 as [|x xs Hx _ IH]; [unfold Py.sum; simpl; lra|].
  rewrite sum_cons; lra.
Qed.

(** ** The voting power cap *)

Lemma cap_entries (m : GovernanceMechanism) (agents : list Agent.t)
    (voting_powers : dict R) :
  Py.sum (values voting_powers) <> 0 ->
  Forall2 (fun before after =>
             fst after = fst before /\
             snd after <= snd before /\
             snd after
               <= Py.sum (values voting_powers) * max_voting_power m)
    voting_powers
    (VotingSystem.apply_max_voting_power_cap m agents voting_powers).
Proof.
  intros HT; unfold VotingSystem.apply_max_voting_power_cap.
  apply Reqb_false in HT; rewrite HT; clear HT.
  generalize (Py.sum (values voting_powers) * max_voting_power m) as cap.
  intros cap; induction voting_powers as [|[k p] d IH]; simpl;
    constructor; try exact IH.
  float_cases; simpl; repeat split; lra.
Qed.

Lemma cap_never_increases (m : GovernanceMechanism) (agents : list Agent.t)
    (voting_powers : dict R) :
  Forall2 (fun before after =>
             fst after = fst before /\ snd after <= snd before)
    voting_powers
    (VotingSystem.apply_max_voting_power_cap m agents voting_powers).
Proof.
  destruct (Req_dec_T (Py.sum (values voting_powers)) 0) as [Hz|Hnz].
  - unfold VotingSystem.apply_max_voting_power_cap.
    apply Reqb_true in Hz; rewrite Hz; clear Hz.
    induction voting_powers; constructor; [split; [reflexivity | lra]|].
    assumption.
  - eapply Forall2_impl; [apply cap_entries; exact Hnz|].
    simpl; intros ? ? (? & ? & ?); auto.
Qed.

Lemma cap_keys (m : GovernanceMechanism) (agents : list Agent.t)
    (voting_powers : dict R) :
  keys (VotingSystem.apply_max_voting_power_cap m agents voting_powers)
    = keys voting_powers.
Proof.
  pose proof (cap_never_increases m agents voting_powers) as H.
  unfold keys; induction H as [|b a d e (Hk & _) _ IH]; simpl;
    [reflexivity | congruence].
Qed.

Lemma entries_get {P : R -> R -> Prop} (d e : dict R) (k : Z) (c : R) :
  Forall2 (fun before after => fst after = fst before
                               /\ P (snd before) (snd after)) d e ->
  dict_get k e = Some c ->
  exists p, dict_get k d = Some p /\ P p c.
Proof.
  induction 1 as [|[k0 p0] [k1 c1] d e (Hk & HP) _ IH]; simpl;
    [discriminate|].
  simpl in Hk, HP; subst k1.
  destruct (Z.eqb_spec k k0); [intros [= ->]; eauto | exact IH].
Qed.

Lemma entries_sum (d e : dict R) :
  Forall2 (fun before after => fst after = fst before
                               /\ snd after <= snd before) d e ->
  Py.sum (values e) <= Py.sum (values d).
Proof.
  unfold values; induction 1 as [|b a d e (_ & Hle) _ IH]; simpl; [lra|].
  rewrite !sum_cons; lra.
Qed.

(** C3: when the total [T] of the voting powers is strictly positive,
    every power that [apply_max_voting_power_cap] returns is at most
    [T * max_voting_power] and at most the power the same agent came in
    with, the agents are the same, and the capped powers sum to at most
    [T].  (The powers need not be assumed non-negative.) *)
Theorem cap_bounds (m : GovernanceMechanism) (agents : list Agent.t)
    (voting_powers : dict R) :
  0 < Py.sum (values voting_powers) ->
  let T := Py.sum (values voting_powers) in
  let capped :=
    VotingSystem.apply_max_voting_power_cap m agents voting_powers in
  keys capped = keys voting_powers /\
  (forall agent_id power,
     dict_get agent_id capped = Some power ->
     exists uncapped,
       dict_get agent_id voting_powers = Some uncapped /\
       power <= T * max_voting_power m /\ power <= uncapped) /\
  Py.sum (values capped) <= T.
Proof.
  intros HT T capped; split; [apply cap_keys|]; split.
  - intros k c Hget.
    apply (entries_get
             (P := fun p c => c <= p /\ c <= T * max_voting_power m)
             voting_powers capped k c) in Hget.
    + destruct Hget as (p & Hp & Hle & Hcap); eauto.
    + apply cap_entries; lra.
  - apply entries_sum, cap_never_increases.
Qed.

Lemma cap_bounds_witness :
  Py.sum (values (VotingSystem.apply_max_voting_power_cap
                    quadratic_hybrid two_honest two_powers))
    <= Py.sum (values two_powers).
Proof.
  apply (cap_bounds quadratic_hybrid two_honest two_powers).
  unfold Py.sum; simpl; lra.
Defined.

(** ** The steps of a round *)

Lemma vote_returns (a : Agent.t) (q : R) (g : rng) :
  well_formed a -> exists v g', Agent.vote_on_proposal a q g = Ok (v, g').
Proof.
  intros [_ Hthr]; unfold Agent.vote_on_proposal.
  destruct (Agent.agent_type a) eqn:Hty;
    try (eexists; eexists; f_equal; apply surjective_pairing).
  destruct (Hthr eq_refl) as (x & Hx & Hrange).
  unfold Agent._honest_vote; rewrite Hx.
  rewrite (fdiv_ok q x), (fdiv_ok (q - 0.2) (x + 0.5)) by lra; simpl.
  float_cases; simpl; eauto.
Qed.

Lemma voting_power_nonneg (m : GovernanceMechanism) (a : Agent.t) (p : R) :
  VotingSystem.calculate_voting_power m a = Ok p -> 0 <= p.
Proof.
  pose proof (effective_stake_nonneg a) as He.
  unfold VotingSystem.calculate_voting_power, math_sqrt.
  repeat match goal with
         | |- context [String.eqb ?s ?t] => destruct (String.eqb s t)
         end; simpl; float_cases; try discriminate;
    intros [= <-]; try lra; apply sqrt_pos.
Qed.

Lemma voting_power_returns (m : GovernanceMechanism) (a : Agent.t) :
  recognized_stake_method (stake_method m) ->
  recognized_voting_method (voting_method m) ->
  exists p, VotingSystem.calculate_voting_power m a = Ok p.
Proof.
  pose proof (effective_stake_nonneg a) as He.
  intros Hs Hv; unfold VotingSystem.calculate_voting_power.
  destruct Hs as [-> | [-> | [-> | ->]]];
    destruct Hv as [-> | [-> | ->]]; simpl; eauto;
    rewrite math_sqrt_ok by lra; eauto.
Qed.

Lemma sybil_resistance_nonneg (m : GovernanceMechanism) (a : Agent.t)
    (p : R) (g : rng) :
  0 <= p -> 0 <= fst (VotingSystem.apply_sybil_resistance m a p g).
Proof.
  intros Hp; unfold VotingSystem.apply_sybil_resistance.
  destruct (Agent.agent_type a); simpl; try assumption.
  float_cases; simpl; lra.
Qed.

Lemma decide_passed_value (m : GovernanceMechanism) (yes total : R) :
  VotingSystem.decide_passed m yes total
    = Ok (if Reqb total 0 then false
          else Rleb (consensus_threshold m) (yes / total)).
Proof.
  unfold VotingSystem.decide_passed.
  destruct (Reqb total 0) eqn:E; [reflexivity|].
  apply Reqb_false in E; rewrite fdiv_ok by assumption; reflexivity.
Qed.

Lemma values_set_Forall {V : Type} (P : V -> Prop) (k : Z) (v : V)
    (d : dict V) :
  P v -> Forall P (values d) -> Forall P (values (dict_set k v d)).
Proof.
  intros Hv Hd; apply List.Forall_forall; intros w Hw.
  apply values_set_In in Hw; destruct Hw as [->|Hw]; [assumption|].
  eapply List.Forall_forall in Hd; eauto.
Qed.

Lemma collect_spec (m : GovernanceMechanism) (q : R) (agents : list Agent.t) :
  forall (vp : dict R) (vc : dict bool) (g : rng) vp' vc' g',
    VotingSystem.collect m agents q vp vc g = Ok (vp', vc', g') ->
    keys vp = keys vc ->
    keys vp' = keys vc' /\
    (List.NoDup (keys vc) -> List.NoDup (keys vc')) /\
    (forall k, In k (keys vc')
               <-> In k (keys vc) \/ In k (map Agent.agent_id agents)) /\
    (Forall (Rle 0) (values vp) -> Forall (Rle 0) (values vp')).
Proof.
  induction agents as [|a rest IH]; intros vp vc g vp' vc' g'; simpl.
  - intros [= <- <- <-] Hk; repeat split; auto; simpl; intros [H|[]]; exact H.
  - destruct (Agent.vote_on_proposal a q g) as [[vote g1]|e]; simpl;
      [|discriminate].
    destruct (VotingSystem.calculate_voting_power m a) as [power|e] eqn:Hp;
      simpl; [|discriminate].
    pose proof (sybil_resistance_nonneg m a power g1
                  (voting_power_nonneg m a power Hp)) as Hnn.
    destruct (VotingSystem.apply_sybil_resistance m a power g1)
      as [power' g2].
    intros Hrun Hk.
    apply IH in Hrun; [|apply keys_set_same; exact Hk].
    destruct Hrun as (Hkeys & Hnd & Hin & Hpos).
    split; [exact Hkeys|]; split; [|split].
    + intros H; apply Hnd, keys_set_NoDup, H.
    + intros k; rewrite Hin, keys_set_In; simpl; intuition (subst; auto).
    + intros H; apply Hpos, values_set_Forall; assumption.
Qed.

Lemma collect_returns (m : GovernanceMechanism) (q : R)
    (agents : list Agent.t) :
  recognized_stake_method (stake_method m) ->
  recognized_voting_method (voting_method m) ->
  Forall well_formed agents ->
  forall (vp : dict R) (vc : dict bool) (g : rng),
    exists out, VotingSystem.collect m agents q vp vc g = Ok out.
Proof.
  intros Hs Hv; induction 1 as [|a rest Ha _ IH]; intros vp vc g; simpl.
  - eauto.
  - destruct (vote_returns a q g Ha) as (vote & g1 & ->); simpl.
    destruct (voting_power_returns m a Hs Hv) as (power & ->); simpl.
    destruct (VotingSystem.apply_sybil_resistance m a power g1).
    apply IH.
Qed.

Lemma tally_sums (vp : dict R) (items : list (Z * bool)) :
  forall y n t y' n' t',
    VotingSystem.tally items vp y n t = Ok (y', n', t') ->
    y' + n' - t' = y + n - t /\
    (Forall (Rle 0) (values vp) -> 0 <= y -> 0 <= n -> 0 <= t ->
     0 <= y' /\ 0 <= n' /\ 0 <= t').
Proof.
  induction items as [|[k vote] rest IH]; intros y n t y' n' t'; simpl.
  - intros [= <- <- <-]; split; [lra | auto].
  - destruct (dict_get k vp) as [power|] eqn:Hget; [|discriminate].
    destruct vote; intros Hrun; apply IH in Hrun;
      destruct Hrun as [Heq Hpos]; (split; [lra|]);
      intros Hvp Hy Hn Ht;
      assert (Hp : 0 <= power)
        by (eapply List.Forall_forall in Hvp;
            [exact Hvp | eapply dict_get_values; exact Hget]);
      apply Hpos; auto; lra.
Qed.

Lemma tally_returns (vp : dict R) (items : list (Z * bool)) :
  (forall k, In k (keys items) -> In k (keys vp)) ->
  forall y n t, exists out, VotingSystem.tally items vp y n t = Ok out.
Proof.
  induction items as [|[k vote] rest IH]; intros Hsub y n t; simpl.
  - eauto.
  - destruct (dict_get_keys k vp) as [power ->];
      [apply Hsub; left; reflexivity|].
    assert (Hrest : forall k', In k' (keys rest) -> In k' (keys vp))
      by (intros k' Hk'; apply Hsub; right; exact Hk').
    destruct vote; apply IH; exact Hrest.
Qed.

(** What a returned [VoteResult] says about the steps that made it. *)
Lemma conduct_vote_inv (m : GovernanceMechanism) (agents : list Agent.t)
    (p : Proposal) (g : rng) (r : VoteResult) (g' : rng)
    (agents' : list Agent.t) :
  VotingSystem.conduct_vote m agents p g = (Ok (r, g'), agents') ->
  exists vp,
    VotingSystem.collect m agents (quality p) [] [] g
      = Ok (vp, votes_cast r, g') /\
    VotingSystem.tally (votes_cast r)
        (VotingSystem.apply_max_voting_power_cap m agents vp) 0 0 0
      = Ok (yes_voting_power r, no_voting_power r, total_voting_power r) /\
    passed r = (if Reqb (total_voting_power r) 0 then false
                else Rleb (consensus_threshold m)
                       (yes_voting_power r / total_voting_power r)) /\
    proposal r = p /\
    correct_outcome r = Bool.eqb (passed r) (is_objectively_good p) /\
    (if negb (correct_outcome r)
     then VotingSystem.apply_slashing m agents (votes_cast r) p (passed r)
     else (Ok [], agents)) = (Ok (agents_slashed r), agents').
Proof.
  unfold VotingSystem.conduct_vote.
  destruct (VotingSystem.collect m agents (quality p) [] [] g)
    as [[[vp vc] g1]|e]; [|discriminate].
  destruct (VotingSystem.tally vc _ 0 0 0) as [[[yes no] total]|e] eqn:Ht;
    simpl; [|discriminate].
  rewrite decide_passed_value; simpl.
  match goal with
  | |- context [if negb ?c then ?s else ?n] =>
      destruct (if negb c then s else n) as [[slashed|e] store] eqn:Hs
  end; [|discriminate].
  intros [= <- <- <-]; simpl.
  exists vp; repeat split; try reflexivity; assumption.
Qed.

Lemma cap_nonneg (m : GovernanceMechanism) (agents : list Agent.t)
    (voting_powers : dict R) :
  0 <= max_voting_power m ->
  Forall (Rle 0) (values voting_powers) ->
  Forall (Rle 0)
    (values (VotingSystem.apply_max_voting_power_cap m agents voting_powers)).
Proof.
  intros Hm Hpos; pose proof (sum_nonneg _ Hpos) as HT.
  unfold VotingSystem.apply_max_voting_power_cap.
  destruct (Reqb (Py.sum (values voting_powers)) 0); [exact Hpos|].
  assert (Hc : 0 <= Py.sum (values voting_powers) * max_voting_power m)
    by nra.
  revert Hc; generalize (Py.sum (values voting_powers) * max_voting_power m).
  intros cap Hc; clear HT; unfold values in *.
  induction voting_powers as [|[k power] d IH]; simpl; [constructor|].
  inversion Hpos; subst; constructor; [|apply IH; assumption].
  simpl in *; float_cases; simpl; lra.
Qed.

(** ** The tally *)

(** The powers that [tally] adds to each of its three sums, in order. *)
Lemma tally_lists (vp : dict R) (items : list (Z * bool)) :
  forall y n t y' n' t',
    VotingSystem.tally items vp y n t = Ok (y', n', t') ->
    y' = fold_left Rplus (powers_of_side true items vp) y /\
    n' = fold_left Rplus (powers_of_side false items vp) n /\
    t' = fold_left Rplus
           (flat_map (fun k => match dict_get k vp with
                               | Some power => [power]
                               | None => []
                               end) (keys items)) t.
Proof.
  unfold powers_of_side.
  induction items as [|[k vote] rest IH]; intros y n t y' n' t'; simpl.
  - intros [= <- <- <-]; auto.
  - destruct (dict_get k vp) as [power|] eqn:Hget; [|discriminate].
    destruct vote; intros Hrun; apply IH in Hrun; simpl; exact Hrun.
Qed.

Lemma own_keys_values {V : Type} (d pre : dict V) :
  List.NoDup (keys (pre ++ d)%list) ->
  flat_map (fun k => match dict_get k (pre ++ d)%list with
                     | Some v => [v]
                     | None => []
                     end) (keys d) = values d.
Proof.
  revert pre; induction d as [|[k v] d IH]; intros pre Hnd; [reflexivity|].
  simpl.
  rewrite (proj2 (dict_get_In k v (pre ++ (k, v) :: d)%list Hnd))
    by (apply in_or_app; right; left; reflexivity).
  simpl; f_equal.
  change (pre ++ (k, v) :: d)%list with (pre ++ [(k, v)] ++ d)%list in *.
  rewrite app_assoc in *; apply IH; exact Hnd.
Qed.

Lemma powers_of_side_partition (vp : dict R) (items : list (Z * bool)) :
  Permutation
    (powers_of_side true items vp ++ powers_of_side false items vp)%list
    (flat_map (fun k => match dict_get k vp with
                        | Some power => [power]
                        | None => []
                        end) (keys items)).
Proof.
  unfold powers_of_side.
  induction items as [|[k vote] rest IH]; simpl; [constructor|].
  destruct (dict_get k vp) as [power|]; destruct vote; simpl;
    try exact IH.
  - constructor; exact IH.
  - etransitivity; [symmetry; apply Permutation_middle|].
    constructor; exact IH.
Qed.

(** C10: in a [VoteResult] that [conduct_vote] returns there is one
    capped power for each recorded vote; [total_voting_power] is the sum
    of all of them, [yes_voting_power] the sum of those of the agents
    recorded as voting YES and [no_voting_power] of those recorded as
    voting NO, each sum taken from 0 in the order of [votes_cast]; the
    YES and the NO powers together are the capped powers, each once; and
    under a [max_voting_power] that is not negative the three sums are
    not negative and neither tally exceeds the total.  That the two
    tallies add up to the total is not said: the three sums are rounded
    one by one ([tally_rounds_apart]). *)
Theorem tally_counts_each_power_once (m : GovernanceMechanism)
    (agents : list Agent.t) (p : Proposal) (g : rng) (r : VoteResult)
    (g' : rng) (agents' : list Agent.t) :
  0 <= max_voting_power m ->
  VotingSystem.conduct_vote m agents p g = (Ok (r, g'), agents') ->
  exists voting_powers capped,
    VotingSystem.collect m agents (quality p) [] [] g
      = Ok (voting_powers, votes_cast r, g') /\
    capped = VotingSystem.apply_max_voting_power_cap m agents voting_powers /\
    keys capped = keys (votes_cast r) /\
    List.NoDup (keys capped) /\
    total_voting_power r = Py.sum (values capped) /\
    yes_voting_power r
      = Py.sum (powers_of_side true (votes_cast r) capped) /\
    no_voting_power r
      = Py.sum (powers_of_side false (votes_cast r) capped) /\
    Permutation
      (powers_of_side true (votes_cast r) capped
       ++ powers_of_side false (votes_cast r) capped)%list
      (values capped) /\
    0 <= yes_voting_power r <= total_voting_power r /\
    0 <= no_voting_power r <= total_voting_power r.
Proof.
  intros Hcap Hrun.
  destruct (conduct_vote_inv _ _ _ _ _ _ _ Hrun) as (vp & Hcol & Htal & _).
  exists vp, (VotingSystem.apply_max_voting_power_cap m agents vp).
  split; [exact Hcol|]; split; [reflexivity|].
  apply collect_spec in Hcol; [|reflexivity].
  destruct Hcol as (Hkeys & Hnd & _ & Hpos).
  specialize (Hnd (List.NoDup_nil _)).
  specialize (Hpos (List.Forall_nil _)).
  set (capped := VotingSystem.apply_max_voting_power_cap m agents vp) in *.
  assert (Hck : keys capped = keys (votes_cast r))
    by (unfold capped; rewrite cap_keys; exact Hkeys).
  assert (Hcnd : List.NoDup (keys capped)) by (rewrite Hck; exact Hnd).
  assert (Hown : flat_map (fun k => match dict_get k capped with
                                    | Some power => [power]
                                    | None => []
                                    end) (keys (votes_cast r))
                 = values capped)
    by (rewrite <- Hck; apply (own_keys_values capped []); exact Hcnd).
  pose proof (tally_lists _ _ _ _ _ _ _ _ Htal) as (Hy & Hn & Ht).
  rewrite Hown in Ht.
  pose proof (powers_of_side_partition capped (votes_cast r)) as Hperm.
  rewrite Hown in Hperm.
  apply tally_sums in Htal; destruct Htal as [Heq Hnn].
  destruct Hnn as (H1 & H2 & H3); try lra;
    [apply cap_nonneg; assumption|].
  repeat split; try assumption; lra.
Qed.

(** ** The index of agents by id *)

Lemma index_agents_keys (l : list Agent.t) :
  forall (i0 : nat) (d : dict nat) (k : Z),
    In k (keys (VotingSystem.index_agents l i0 d))
    <-> In k (keys d) \/ In k (map Agent.agent_id l).
Proof.
  induction l as [|a rest IH]; intros i0 d k; simpl.
  - intuition.
  - rewrite IH, keys_set_In; intuition (subst; auto).
Qed.

Lemma index_agents_sound (l : list Agent.t) :
  forall (i0 : nat) (d : dict nat) (k : Z) (ix : nat),
    dict_get k (VotingSystem.index_agents l i0 d) = Some ix ->
    dict_get k d = Some ix \/
    (i0 <= ix)%nat /\
    exists a, l !! (ix - i0)%nat = Some a /\ Agent.agent_id a = k.
Proof.
  induction l as [|a rest IH]; intros i0 d k ix; simpl; [auto|].
  intros Hget; apply IH in Hget.
  destruct Hget as [Hget|(Hle & b & Hb & Hid)].
  - destruct (Z.eq_dec k (Agent.agent_id a)) as [->|Hne].
    + rewrite dict_get_set_eq in Hget; injection Hget as <-.
      right; split; [lia|]; exists a; rewrite Nat.sub_diag; auto.
    + rewrite dict_get_set_ne in Hget by assumption; auto.
  - right; split; [lia|]; exists b; split; [|assumption].
    replace (ix - i0)%nat with (S (ix - S i0)) by lia; exact Hb.
Qed.

Lemma agents_by_id_sound (agents : list Agent.t) (k : Z) (ix : nat) :
  dict_get k (VotingSystem.agents_by_id agents) = Some ix ->
  exists a, agents !! ix = Some a /\ Agent.agent_id a = k.
Proof.
  intros H; apply index_agents_sound in H.
  destruct H as [H|(_ & a & Ha & Hid)]; [discriminate|].
  rewrite Nat.sub_0_r in Ha; eauto.
Qed.

Lemma index_agents_other (l : list Agent.t) :
  forall (i0 : nat) (d : dict nat) (k : Z),
    ~ In k (map Agent.agent_id l) ->
    dict_get k (VotingSystem.index_agents l i0 d) = dict_get k d.
Proof.
  induction l as [|a rest IH]; intros i0 d k Hnot; simpl; [reflexivity|].
  simpl in Hnot; rewrite IH by tauto.
  apply dict_get_set_ne; intros ->; tauto.
Qed.

Lemma index_agents_complete (l : list Agent.t) :
  List.NoDup (map Agent.agent_id l) ->
  forall (i0 : nat) (d : dict nat) (j : nat) (a : Agent.t),
    l !! j = Some a ->
    dict_get (Agent.agent_id a) (VotingSystem.index_agents l i0 d)
      = Some (i0 + j)%nat.
Proof.
  induction l as [|b rest IH]; intros Hnd i0 d j a; [discriminate|].
  simpl in Hnd; inversion Hnd as [|? ? Hnotin Hrest]; subst.
  destruct j as [|j]; simpl.
  - intros [= ->]; rewrite index_agents_other by assumption.
    rewrite dict_get_set_eq; f_equal; lia.
  - intros Hj; rewrite (IH Hrest (S i0) _ j a Hj); f_equal; lia.
Qed.

Lemma agents_by_id_complete (agents : list Agent.t) (j : nat) (a : Agent.t) :
  List.NoDup (map Agent.agent_id agents) ->
  agents !! j = Some a ->
  dict_get (Agent.agent_id a) (VotingSystem.agents_by_id agents) = Some j.
Proof.
  intros Hnd Hj; unfold VotingSystem.agents_by_id.
  rewrite (index_agents_complete agents Hnd O [] j a Hj); reflexivity.
Qed.

(** ** The slashing loop *)

Lemma same_but_slashed_refl (a : Agent.t) : same_but_slashed a a.
Proof. repeat split. Qed.

Lemma same_but_slashed_trans (a b c : Agent.t) :
  same_but_slashed a b -> same_but_slashed b c -> same_but_slashed a c.
Proof.
  unfold same_but_slashed; intros (?&?&?&?&?) (?&?&?&?&?).
  repeat split; congruence.
Qed.

Lemma same_but_slashed_apply (a : Agent.t) (s : R) :
  same_but_slashed a (Agent.apply_slashing a s).
Proof. repeat split. Qed.

Lemma slash_amount_returns (m : GovernanceMechanism) (a : Agent.t) :
  Agent.original_stake a <> 0 ->
  exists s, VotingSystem.calculate_slash_amount m a = Ok s.
Proof.
  intros Ho; unfold VotingSystem.calculate_slash_amount.
  repeat match goal with
         | |- context [String.eqb ?s ?t] => destruct (String.eqb s t)
         end; eauto.
  - rewrite slash_multiplier_value by assumption; simpl; eauto.
  - destruct (Rltb 0 (slashing_rate m)) eqn:E; simpl; eauto.
    apply Rltb_true in E; rewrite fdiv_ok by nra; simpl; eauto.
Qed.

Section SlashLoop.

Variable m : GovernanceMechanism.
Variable by_id : dict nat.
Variables good proposal_passed : bool.

Local Abbreviation loop :=
  (VotingSystem.slash_loop m by_id good proposal_passed).
Local Abbreviation index_sound := (index_sound by_id).

Lemma index_sound_insert (store : list Agent.t) (ix : nat) (a a' : Agent.t) :
  index_sound store -> store !! ix = Some a ->
  Agent.agent_id a' = Agent.agent_id a ->
  index_sound (<[ix := a']> store).
Proof.
  intros Hs Ha Hid k jx b Hk Hb.
  destruct (Nat.eq_dec ix jx) as [<-|Hne].
  - rewrite list_lookup_insert_eq in Hb by (eapply lookup_lt_Some; eauto).
    injection Hb as <-; rewrite Hid; eapply Hs; eauto.
  - rewrite list_lookup_insert_ne in Hb by assumption; eapply Hs; eauto.
Qed.

Lemma slash_loop_frame (items : list (Z * bool)) :
  forall store slashed res store',
    loop items store slashed = (res, store') ->
    Forall2 same_but_slashed store store'.
Proof.
  induction items as [|[k vote] rest IH];
    intros store slashed res store'; simpl.
  - intros [= _ <-]; apply Forall_Forall2_diag, Forall_forall.
    intros; apply same_but_slashed_refl.
  - assert (Hrefl : Forall2 same_but_slashed store store)
      by (apply Forall_Forall2_diag, Forall_forall;
          intros; apply same_but_slashed_refl).
    destruct (dict_get k by_id) as [ix|]; [|intros [= _ <-]; exact Hrefl].
    destruct (store !! ix) as [agent|] eqn:Hag;
      [|intros [= _ <-]; exact Hrefl].
    destruct (_ || _); [|apply IH].
    destruct (VotingSystem.calculate_slash_amount m agent) as [amt|e];
      [|intros [= _ <-]; exact Hrefl].
    intros Hrun; apply IH in Hrun.
    eapply Forall2_trans; [apply same_but_slashed_trans| |exact Hrun].
    rewrite <- (list_insert_id store ix agent Hag) at 1.
    apply Forall2_insert; [exact Hrefl | apply same_but_slashed_apply].
Qed.

Lemma slash_loop_list (items : list (Z * bool)) :
  forall store slashed l store',
    loop items store slashed = (Ok l, store') ->
    forall k,
      In k l <->
      In k slashed \/
      exists vote, In (k, vote) items /\
                   supports_wrong good proposal_passed vote = true.
Proof.
  unfold supports_wrong; induction items as [|[k0 vote0] rest IH];
    intros store slashed l store'; simpl.
  - intros [= <- _] k; split; [auto | intros [H|(v & [] & _)]; exact H].
  - destruct (dict_get k0 by_id) as [ix|]; [|discriminate].
    destruct (store !! ix) as [agent|]; [|discriminate].
    destruct (_ || _) eqn:Hhit.
    + destruct (VotingSystem.calculate_slash_amount m agent) as [amt|e];
        [|discriminate].
      intros Hrun k; rewrite (IH _ _ _ _ Hrun k), in_app_iff; simpl.
      split.
      * intros [[H|[<-|[]]]|(v & Hin & Hv)]; eauto 6.
      * intros [H|(v & [[= <- <-]|Hin] & Hv)]; eauto 6.
    + intros Hrun k; rewrite (IH _ _ _ _ Hrun k).
      split.
      * intros [H|(v & Hin & Hv)]; eauto 6.
      * intros [H|(v & [[= <- <-]|Hin] & Hv)]; eauto 6; congruence.
Qed.

Lemma slash_loop_effect (items : list (Z * bool)) :
  forall store slashed l store',
    loop items store slashed = (Ok l, store') ->
    List.NoDup (keys items) ->
    index_sound store ->
    forall i a,
      store !! i = Some a ->
      let slashed_here :=
        dict_get (Agent.agent_id a) by_id = Some i /\
        exists vote, In (Agent.agent_id a, vote) items /\
                     supports_wrong good proposal_passed vote = true in
      (slashed_here ->
       exists s, VotingSystem.calculate_slash_amount m a = Ok s /\
                 store' !! i = Some (Agent.apply_slashing a s)) /\
      (~ slashed_here -> store' !! i = Some a).
Proof.
  unfold supports_wrong; induction items as [|[k vote] rest IH];
    intros store slashed l store'; simpl.
  - intros [= _ <-] _ _ i a Ha; split; [intros (_ & v & [] & _) | auto].
  - intros Hrun Hnd Hsound i a Ha.
    inversion Hnd as [|? ? Hnotin Hrest]; subst.
    destruct (dict_get k by_id) as [ix|] eqn:Hix; [|discriminate].
    destruct (store !! ix) as [agent|] eqn:Hag; [|discriminate].
    pose proof (Hsound k ix agent Hix Hag) as Hid.
    destruct (_ || _) eqn:Hhit.
    + destruct (VotingSystem.calculate_slash_amount m agent)
        as [amt|e] eqn:Hamt; [|discriminate].
      assert (Hsound' : index_sound
                (<[ix := Agent.apply_slashing agent amt]> store))
        by (eapply index_sound_insert; eauto).
      destruct (Nat.eq_dec ix i) as [->|Hne].
      * assert (a = agent) by congruence; subst a.
        assert (Hnew : <[i := Agent.apply_slashing agent amt]> store !! i
                       = Some (Agent.apply_slashing agent amt))
          by (apply list_lookup_insert_eq; eapply lookup_lt_Some; eauto).
        destruct (IH _ _ _ _ Hrun Hrest Hsound' i _ Hnew) as [_ Hkeep].
        split.
        -- intros _; exists amt; split; [assumption|].
           apply Hkeep; intros (_ & v & Hin & _).
           apply Hnotin; simpl in Hin; rewrite Hid in Hin.
           change k with (fst (k, v)); apply in_map; exact Hin.
        -- intros Hnot; exfalso; apply Hnot; split; [congruence|].
           exists vote; split; [left; congruence | exact Hhit].
      * assert (Hsame : <[ix := Agent.apply_slashing agent amt]> store !! i
                        = Some a)
          by (rewrite list_lookup_insert_ne by assumption; exact Ha).
        destruct (IH _ _ _ _ Hrun Hrest Hsound' i a Hsame) as [Hdo Hkeep].
        split.
        -- intros (Hi & v & [[= Hk Hv]|Hin] & Hw); [congruence|].
           apply Hdo; eauto.
        -- intros Hnot; apply Hkeep; intros (Hi & v & Hin & Hw).
           apply Hnot; eauto.
    + destruct (IH _ _ _ _ Hrun Hrest Hsound i a Ha) as [Hdo Hkeep].
      split.
      * intros (Hi & v & [[= Hk Hv]|Hin] & Hw); [congruence|].
        apply Hdo; eauto.
      * intros Hnot; apply Hkeep; intros (Hi & v & Hin & Hw).
        apply Hnot; eauto.
Qed.

Lemma slash_loop_returns (items : list (Z * bool)) :
  forall store slashed,
    (forall k, In k (keys items) ->
               exists ix, dict_get k by_id = Some ix
                          /\ (ix < length store)%nat) ->
    Forall (fun a => Agent.original_stake a <> 0) store ->
    exists l store', loop items store slashed = (Ok l, store').
Proof.
  induction items as [|[k vote] rest IH];
    intros store slashed Hdom Hstake; simpl; [eauto|].
  destruct (Hdom k (or_introl eq_refl)) as (ix & -> & Hlt).
  destruct (lookup_lt_is_Some_2 store ix Hlt) as [agent Hag]; rewrite Hag.
  assert (Hrest : forall store1 : list Agent.t,
            length store1 = length store ->
            forall k', In k' (keys rest) ->
              exists jx, dict_get k' by_id = Some jx
                         /\ (jx < length store1)%nat).
  { intros store1 Hlen k' Hk'; rewrite Hlen; apply Hdom; right; exact Hk'. }
  destruct (_ || _); [|apply IH; auto].
  pose proof (Forall_lookup_1 _ _ _ _ Hstake Hag) as Ho.
  destruct (slash_amount_returns m agent Ho) as [amt ->].
  apply IH; [apply Hrest, length_insert|].
  apply Forall_insert; [assumption | exact Ho].
Qed.

End SlashLoop.

(** ** Slashing after a round *)

Lemma apply_slashing_disabled (m : GovernanceMechanism)
    (agents : list Agent.t) (vc : dict bool) (p : Proposal) (passed : bool) :
  slashing_method m = "none" \/ slashing_rate m = 0 ->
  VotingSystem.apply_slashing m agents vc p passed = (Ok [], agents).
Proof.
  intros H; unfold VotingSystem.apply_slashing.
  destruct H as [-> | ->]; simpl; [reflexivity|].
  assert (E : Reqb 0 0 = true) by (apply Reqb_true; reflexivity).
  rewrite E, orb_true_r; reflexivity.
Qed.

Lemma apply_slashing_enabled (m : GovernanceMechanism)
    (agents : list Agent.t) (vc : dict bool) (p : Proposal) (passed : bool) :
  slashing_method m <> "none" -> slashing_rate m <> 0 ->
  VotingSystem.apply_slashing m agents vc p passed
    = VotingSystem.slash_loop m (VotingSystem.agents_by_id agents)
        (is_objectively_good p) passed vc agents [].
Proof.
  intros Hm Hr; unfold VotingSystem.apply_slashing.
  apply String.eqb_neq in Hm; apply Reqb_false in Hr.
  rewrite Hm, Hr; reflexivity.
Qed.

Lemma slashing_enabled_dec (m : GovernanceMechanism) :
  (slashing_method m = "none" \/ slashing_rate m = 0) \/
  (slashing_method m <> "none" /\ slashing_rate m <> 0).
Proof.
  destruct (String.eqb_spec (slashing_method m) "none"); [auto|].
  destruct (Req_dec_T (slashing_rate m) 0); auto.
Qed.

Lemma agents_index_sound (agents : list Agent.t) :
  index_sound (VotingSystem.agents_by_id agents) agents.
Proof.
  intros k ix a Hk Ha.
  destruct (agents_by_id_sound agents k ix Hk) as (b & Hb & Hid); congruence.
Qed.

Lemma apply_slashing_returns (m : GovernanceMechanism)
    (agents : list Agent.t) (vc : dict bool) (p : Proposal) (passed : bool) :
  (forall k, In k (keys vc) -> In k (map Agent.agent_id agents)) ->
  Forall (fun a => Agent.original_stake a <> 0) agents ->
  exists l store',
    VotingSystem.apply_slashing m agents vc p passed = (Ok l, store').
Proof.
  intros Hdom Hstake.
  destruct (slashing_enabled_dec m) as [Hoff|[Hm Hr]].
  - rewrite apply_slashing_disabled by assumption; eauto.
  - rewrite apply_slashing_enabled by assumption.
    apply slash_loop_returns; [|assumption].
    intros k Hk.
    destruct (dict_get_keys k (VotingSystem.agents_by_id agents))
      as [ix Hix].
    { apply index_agents_keys; right; apply Hdom; exact Hk. }
    exists ix; split; [assumption|].
    destruct (agents_by_id_sound agents k ix Hix) as (a & Ha & _).
    eapply lookup_lt_Some; exact Ha.
Qed.

Lemma apply_slashing_frame_all (m : GovernanceMechanism)
    (agents : list Agent.t) (vc : dict bool) (p : Proposal) (passed : bool)
    res store' :
  VotingSystem.apply_slashing m agents vc p passed = (res, store') ->
  Forall2 same_but_slashed agents store'.
Proof.
  destruct (slashing_enabled_dec m) as [Hoff|[Hm Hr]].
  - rewrite apply_slashing_disabled by assumption; intros [= _ <-].
    apply Forall_Forall2_diag, Forall_forall.
    intros; apply same_but_slashed_refl.
  - rewrite apply_slashing_enabled by assumption; apply slash_loop_frame.
Qed.

Lemma conduct_vote_returns (m : GovernanceMechanism) (agents : list Agent.t)
    (p : Proposal) (g : rng) :
  recognized_stake_method (stake_method m) ->
  recognized_voting_method (voting_method m) ->
  Forall well_formed agents ->
  exists r g' agents',
    VotingSystem.conduct_vote m agents p g = (Ok (r, g'), agents').
Proof.
  intros Hs Hv Hwf.
  destruct (collect_returns m (quality p) agents Hs Hv Hwf [] [] g)
    as [[[vp vc] g1] Hcol].
  destruct (collect_spec _ _ _ _ _ _ _ _ _ Hcol eq_refl)
    as (Hkeys & _ & Hin & _).
  destruct (tally_returns
              (VotingSystem.apply_max_voting_power_cap m agents vp) vc)
    with (y := 0) (n := 0) (t := 0) as [[[yes no] total] Htal].
  { intros k Hk; rewrite cap_keys, Hkeys; exact Hk. }
  unfold VotingSystem.conduct_vote; rewrite Hcol, Htal; simpl.
  rewrite decide_passed_value; simpl.
  destruct (negb _); [|eauto].
  destruct (apply_slashing_returns m agents vc p
              (if Reqb total 0 then false
               else Rleb (consensus_threshold m) (yes / total)))
    as (l & store' & ->); [| |eauto].
  - intros k Hk; apply Hin in Hk; destruct Hk as [[]|Hk]; exact Hk.
  - eapply Forall_impl; [exact Hwf|]; intros a [Ho _]; exact Ho.
Qed.

Lemma conduct_vote_frame (m : GovernanceMechanism) (agents : list Agent.t)
    (p : Proposal) (g : rng) res agents' :
  VotingSystem.conduct_vote m agents p g = (res, agents') ->
  Forall2 same_but_slashed agents agents'.
Proof.
  assert (Hrefl : Forall2 same_but_slashed agents agents)
    by (apply Forall_Forall2_diag, Forall_forall;
        intros; apply same_but_slashed_refl).
  unfold VotingSystem.conduct_vote.
  destruct (VotingSystem.collect m agents (quality p) [] [] g)
    as [[[vp vc] g1]|e]; [|intros [= _ <-]; exact Hrefl].
  destruct (VotingSystem.tally vc _ 0 0 0) as [[[yes no] total]|e];
    simpl; [|intros [= _ <-]; exact Hrefl].
  rewrite decide_passed_value; simpl.
  destruct (negb _).
  - destruct (VotingSystem.apply_slashing m agents vc p _)
      as [slashed store] eqn:Hsl.
    apply apply_slashing_frame_all in Hsl.
    destruct slashed; intros [= _ <-]; exact Hsl.
  - intros [= _ <-]; exact Hrefl.
Qed.

Lemma conduct_vote_no_slashing (m : GovernanceMechanism)
    (agents : list Agent.t) (p : Proposal) (g : rng) (r : VoteResult)
    (g' : rng) (agents' : list Agent.t) :
  VotingSystem.conduct_vote m agents p g = (Ok (r, g'), agents') ->
  correct_outcome r = true \/ slashing_method m = "none"
  \/ slashing_rate m = 0 ->
  agents_slashed r = [] /\ agents' = agents.
Proof.
  intros Hrun Hoff.
  destruct (conduct_vote_inv _ _ _ _ _ _ _ Hrun)
    as (vp & _ & _ & _ & _ & _ & Hsl).
  destruct (correct_outcome r); simpl in Hsl.
  - injection Hsl as <- <-; auto.
  - rewrite apply_slashing_disabled in Hsl
      by (destruct Hoff as [?|[?|?]]; [discriminate | auto | auto]).
    injection Hsl as <- <-; auto.
Qed.

Lemma conduct_vote_slashing (m : GovernanceMechanism)
    (agents : list Agent.t) (p : Proposal) (g : rng) (r : VoteResult)
    (g' : rng) (agents' : list Agent.t) :
  VotingSystem.conduct_vote m agents p g = (Ok (r, g'), agents') ->
  correct_outcome r = false ->
  slashing_method m <> "none" ->
  slashing_rate m <> 0 ->
  (forall k, In k (agents_slashed r) <-> struck r k) /\
  (forall i a,
     agents !! i = Some a ->
     let here :=
       dict_get (Agent.agent_id a) (VotingSystem.agents_by_id agents) = Some i
       /\ struck r (Agent.agent_id a) in
     (here ->
      exists s, VotingSystem.calculate_slash_amount m a = Ok s /\
                agents' !! i = Some (Agent.apply_slashing a s)) /\
     (~ here -> agents' !! i = Some a)).
Proof.
  intros Hrun Hwrong Hm Hr.
  destruct (conduct_vote_inv _ _ _ _ _ _ _ Hrun)
    as (vp & Hcol & _ & _ & Hp & _ & Hsl).
  apply collect_spec in Hcol; [|reflexivity].
  destruct Hcol as (_ & Hnd & _ & _).
  specialize (Hnd (List.NoDup_nil _)).
  rewrite Hwrong in Hsl; simpl in Hsl.
  rewrite apply_slashing_enabled in Hsl by assumption.
  assert (Hstruck : forall k,
            struck r k <->
            exists vote, In (k, vote) (votes_cast r) /\
              supports_wrong (is_objectively_good p) (passed r) vote = true).
  { intros k; unfold struck; rewrite Hp.
    split; intros (v & Hv & Hw); exists v; split; try assumption;
      apply (dict_get_In k v (votes_cast r) Hnd); assumption. }
  split.
  - intros k; rewrite (slash_loop_list _ _ _ _ _ _ _ _ _ Hsl k), Hstruck.
    simpl; tauto.
  - intros i a Ha.
    destruct (slash_loop_effect _ _ _ _ _ _ _ _ _ Hsl Hnd
                (agents_index_sound agents) i a Ha) as [Hdo Hkeep].
    split.
    + intros [Hi Hs]; apply Hdo; split; [assumption|].
      apply Hstruck; assumption.
    + intros Hnot; apply Hkeep; intros [Hi Hs]; apply Hnot.
      split; [assumption|]; apply Hstruck; assumption.
Qed.

Lemma struck_iff (r : VoteResult) (k : Z) :
  struck r k <-> supported_wrong_outcome r k.
Proof.
  unfold struck, supported_wrong_outcome, supports_wrong; split.
  - intros (vote & Hget & Hw); rewrite Hget.
    destruct (passed r), (is_objectively_good (proposal r)), vote;
      simpl in Hw; try discriminate; auto.
  - intros [(Hp & Hg & Hv)|(Hp & Hg & Hv)]; rewrite Hp, Hg;
      eexists; (split; [exact Hv | reflexivity]).
Qed.

Lemma struck_dec (r : VoteResult) (k : Z) : struck r k \/ ~ struck r k.
Proof.
  unfold struck; destruct (dict_get k (votes_cast r)) as [vote|];
    [|right; intros (v & [=] & _)].
  destruct (supports_wrong (is_objectively_good (proposal r)) (passed r) vote)
    eqn:Hw; [left; eauto | right].
  intros (v & [= <-] & Hv); congruence.
Qed.

Lemma slash_amount_value (m : GovernanceMechanism) (a : Agent.t) (s : R) :
  0 < slashing_rate m ->
  0 <= Agent.amount_slashed a ->
  0 < Agent.original_stake a ->
  VotingSystem.calculate_slash_amount m a = Ok s ->
  exists multiplier,
    s = Agent.get_effective_stake a * slashing_rate m * multiplier /\
    1 <= multiplier /\
    (slashing_method m = "linear" -> multiplier = 1).
Proof.
  intros Hr Ha Ho; unfold VotingSystem.calculate_slash_amount.
  destruct (String.eqb_spec (slashing_method m) "linear") as [Hl|Hl].
  { intros [= <-]; exists 1; repeat split; lra. }
  destruct (String.eqb_spec (slashing_method m) "exponential") as [He|He].
  { rewrite slash_multiplier_value by lra; simpl; intros [= <-].
    eexists; split; [reflexivity|]; split; [|contradiction].
    assert (0 <= Agent.amount_slashed a / Agent.original_stake a)
      by (apply Rmult_le_pos; [lra | left; apply Rinv_0_lt_compat; lra]).
    lra. }
  destruct (String.eqb_spec (slashing_method m) "progressive") as [Hp|Hp].
  { apply Rltb_true in Hr; rewrite Hr; apply Rltb_true in Hr.
    assert (Hd : 0 < slashing_rate m * Agent.original_stake a)
      by (apply Rmult_lt_0_compat; assumption).
    rewrite fdiv_ok by lra; simpl; intros [= <-].
    eexists; split; [reflexivity|]; split; [|contradiction].
    assert (0 <= Agent.amount_slashed a
                 / (slashing_rate m * Agent.original_stake a))
      by (apply Rmult_le_pos; [lra | left; apply Rinv_0_lt_compat; lra]).
    lra. }
  intros [= <-]; exists 1; repeat split; lra.
Qed.

(** C2: in a round that [conduct_vote] completes, on agents of distinct
    ids with [0 <= amount_slashed <= stake] and a positive original
    stake, no agent is added or lost.  When the outcome is incorrect, the
    slashing method is not none and the rate is positive, the ids in
    [agents_slashed] are exactly those of the agents that supported the
    wrong outcome (passed, bad, voted YES; or failed, good, voted NO);
    each of these agents leaves the round as [apply_slashing] makes it
    from the base penalty [effective_stake * slashing_rate] times a
    multiplier that is 1 under linear slashing and at least 1 otherwise,
    so that its [amount_slashed] does not go down and stays within its
    stake; every other agent leaves the round as it entered it.  When the
    outcome is correct, the method is none or the rate is 0, nobody is
    slashed and no agent changes.  That a listed agent's [amount_slashed]
    goes up is not said: it does not when the stake is used up, nor when
    the penalty is lost in rounding ([listed_without_increase]). *)
Theorem slashing_targets (m : GovernanceMechanism) (agents : list Agent.t)
    (p : Proposal) (g : rng) (r : VoteResult) (g' : rng)
    (agents' : list Agent.t) :
  VotingSystem.conduct_vote m agents p g = (Ok (r, g'), agents') ->
  List.NoDup (map Agent.agent_id agents) ->
  Forall (fun a => 0 <= Agent.amount_slashed a <= Agent.stake a
                   /\ 0 < Agent.original_stake a) agents ->
  length agents' = length agents /\
  (correct_outcome r = false ->
   slashing_method m <> "none" ->
   0 < slashing_rate m ->
   (forall k,
      In k (agents_slashed r) <-> supported_wrong_outcome r k) /\
   forall i a,
     agents !! i = Some a ->
     (supported_wrong_outcome r (Agent.agent_id a) ->
      exists multiplier,
        1 <= multiplier /\
        (slashing_method m = "linear" -> multiplier = 1) /\
        agents' !! i
          = Some (Agent.apply_slashing a
                    (Agent.get_effective_stake a * slashing_rate m
                     * multiplier)) /\
        Agent.amount_slashed a
          <= Agent.amount_slashed
               (Agent.apply_slashing a
                  (Agent.get_effective_stake a * slashing_rate m
                   * multiplier))
          <= Agent.stake a) /\
     (~ supported_wrong_outcome r (Agent.agent_id a) ->
      agents' !! i = Some a))
  /\
  (correct_outcome r = true \/ slashing_method m = "none"
   \/ slashing_rate m = 0 ->
   agents_slashed r = [] /\ agents' = agents).
Proof.
  intros Hrun Hnd Hinv.
  split; [symmetry; eapply Forall2_length, conduct_vote_frame; exact Hrun|].
  split; [|apply (conduct_vote_no_slashing _ _ _ _ _ _ _ Hrun)].
  intros Hwrong Hm Hrate.
  destruct (conduct_vote_slashing _ _ _ _ _ _ _ Hrun Hwrong Hm)
    as [Hlist Heff]; [lra|].
  split; [intros k; rewrite Hlist; apply struck_iff|].
  intros i a Ha.
  destruct (Heff i a Ha) as [Hdo Hkeep]; clear Heff.
  pose proof (agents_by_id_complete agents i a Hnd Ha) as Hix.
  destruct (Forall_lookup_1 _ _ _ _ Hinv Ha) as [Hamt Horig].
  split.
  - intros Hs; apply struck_iff in Hs.
    destruct (Hdo (conj Hix Hs)) as (s & Hcalc & Hnew).
    destruct (slash_amount_value m a s Hrate) as (mu & -> & Hmu & Hlin);
      try assumption; try lra.
    exists mu; split; [assumption|]; split; [assumption|].
    split; [exact Hnew|].
    pose proof (effective_stake_nonneg a) as He.
    apply apply_slashing_step; [lra|].
    apply Rmult_le_pos; [apply Rmult_le_pos|]; lra.
  - intros Hnot; apply Hkeep; intros [_ Hs].
    apply Hnot, struck_iff, Hs.
Qed.

(** C9: whatever [conduct_vote] does, returning or raising, every agent
    keeps its id, type, stake, original stake and threshold; when it
    returns, an agent that changed at all has its id in [agents_slashed];
    and when the outcome is correct, the method is none or the rate is 0,
    the agents are unchanged. *)
Theorem round_frame (m : GovernanceMechanism) (agents : list Agent.t)
    (p : Proposal) (g : rng) (res : result (VoteResult * rng))
    (agents' : list Agent.t) :
  VotingSystem.conduct_vote m agents p g = (res, agents') ->
  Forall2 same_but_slashed agents agents' /\
  forall r g',
    res = Ok (r, g') ->
    (forall i a a',
       agents !! i = Some a -> agents' !! i = Some a' -> a' <> a ->
       In (Agent.agent_id a) (agents_slashed r)) /\
    (correct_outcome r = true \/ slashing_method m = "none"
     \/ slashing_rate m = 0 ->
     agents' = agents).
Proof.
  intros Hrun; split; [eapply conduct_vote_frame; exact Hrun|].
  intros r g' ->; split;
    [|intros Hoff; eapply conduct_vote_no_slashing; eauto].
  intros i a a' Ha Ha' Hne.
  destruct (correct_outcome r) eqn:Hc;
    [|destruct (slashing_enabled_dec m) as [Hoff|[Hm Hr]]].
  - destruct (conduct_vote_no_slashing _ _ _ _ _ _ _ Hrun) as [_ ->];
      [auto | congruence].
  - destruct (conduct_vote_no_slashing _ _ _ _ _ _ _ Hrun) as [_ ->];
      [tauto | congruence].
  - destruct (conduct_vote_slashing _ _ _ _ _ _ _ Hrun Hc Hm Hr)
      as [Hlist Heff].
    destruct (Heff i a Ha) as [_ Hkeep].
    apply Hlist.
    destruct (struck_dec r (Agent.agent_id a)) as [Hs|Hs]; [exact Hs|].
    rewrite Hkeep in Ha' by tauto; congruence.
Qed.

(** C5: the decision of a round is [false] when the total power is 0
    and [yes_power / total_power >= consensus_threshold] otherwise; the
    decision step returns on every tally, zero total included; and with
    a recognized stake method and voting method and agents as the
    population builder makes them, [conduct_vote] returns a result. *)
Theorem degenerate_vote_fails_quietly (m : GovernanceMechanism)
    (agents : list Agent.t) (p : Proposal) (g : rng) :
  (forall yes total,
     exists decision, VotingSystem.decide_passed m yes total = Ok decision) /\
  (forall r g' agents',
     VotingSystem.conduct_vote m agents p g = (Ok (r, g'), agents') ->
     (total_voting_power r = 0 -> passed r = false) /\
     (total_voting_power r <> 0 ->
      passed r = Rleb (consensus_threshold m)
                   (yes_voting_power r / total_voting_power r))) /\
  (recognized_stake_method (stake_method m) ->
   recognized_voting_method (voting_method m) ->
   Forall well_formed agents ->
   exists r g' agents',
     VotingSystem.conduct_vote m agents p g = (Ok (r, g'), agents')).
Proof.
  split; [|split].
  - intros yes total; rewrite decide_passed_value; eauto.
  - intros r g' agents' Hrun.
    destruct (conduct_vote_inv _ _ _ _ _ _ _ Hrun)
      as (vp & _ & _ & -> & _).
    split; intros H.
    + apply Reqb_true in H; rewrite H; reflexivity.
    + apply Reqb_false in H; rewrite H; reflexivity.
  - apply conduct_vote_returns.
Qed.

(** ** Two rounds, run *)

(** Settle each float comparison of a closed goal by arithmetic. *)
Ltac float_eval :=
  repeat (simpl;
    match goal with
    | |- context [Rmax 0 ?x] => rewrite (Rmax_right 0 x) by lra
    | |- context [Rltb ?a ?b] =>
        first [ rewrite (proj2 (Rltb_true a b)) by lra
              | rewrite (proj2 (Rltb_false a b)) by lra ]
    | |- context [Rleb ?a ?b] =>
        first [ rewrite (proj2 (Rleb_true a b)) by lra
              | rewrite (proj2 (Rleb_false a b)) by lra ]
    | |- context [Reqb ?a ?b] =>
        first [ rewrite (proj2 (Reqb_true a b)) by lra
              | rewrite (proj2 (Reqb_false a b)) by lra ]
    end).

Ltac run_round :=
  unfold VotingSystem.conduct_vote, Agent.new;
  cbn [VotingSystem.collect Agent.vote_on_proposal Agent.agent_type
       Agent._systematic_bias_vote Agent._sybil_vote quality Py.bind
       Agent.agent_id];
  unfold VotingSystem.calculate_voting_power, Agent.get_effective_stake,
    VotingSystem.apply_sybil_resistance, Agent._sybil_vote, half_rng;
  float_eval;
  unfold VotingSystem.apply_max_voting_power_cap, Py.sum,
    is_objectively_good, VotingSystem.decide_passed, fdiv;
  float_eval;
  unfold VotingSystem.apply_slashing; float_eval;
  unfold VotingSystem.calculate_slash_amount, Agent.apply_slashing,
    Agent.get_effective_stake, is_objectively_good;
  float_eval.

(** Both biased agents vote NO on a good proposal: it fails, wrongly,
    and both lose a fifth of their stake. *)
Lemma biased_round :
  exists r g' agents',
    VotingSystem.conduct_vote linear_weighted biased_pair good_proposal
      half_rng = (Ok (r, g'), agents') /\
    passed r = false /\ correct_outcome r = false /\
    votes_cast r = [(1%Z, false); (2%Z, false)] /\
    agents_slashed r = [1%Z; 2%Z] /\
    map Agent.amount_slashed agents' = [2; 1].
Proof.
  eexists; eexists; eexists; unfold biased_pair, good_proposal.
  split; [run_round; reflexivity|].
  simpl; repeat split; repeat f_equal; lra.
Qed.

(** Both sybils are discounted to no power: the good proposal fails
    without an error, and nobody is slashed, as both voted YES. *)
Lemma sybil_round :
  exists r g' agents',
    VotingSystem.conduct_vote linear_weighted sybil_pair good_proposal
      half_rng = (Ok (r, g'), agents') /\
    total_voting_power r = 0 /\ passed r = false /\
    correct_outcome r = false /\
    agents_slashed r = [] /\ agents' = sybil_pair.
Proof.
  eexists; eexists; eexists; unfold sybil_pair, good_proposal.
  split; [run_round; reflexivity|].
  simpl; repeat split; lra.
Qed.

Lemma biased_pair_bounded :
  Forall (fun a => 0 <= Agent.amount_slashed a <= Agent.stake a
                   /\ 0 < Agent.original_stake a) biased_pair.
Proof. repeat constructor; simpl; lra. Qed.

Lemma biased_pair_distinct : List.NoDup (map Agent.agent_id biased_pair).
Proof.
  simpl; repeat constructor; simpl; intuition discriminate.
Qed.

Lemma slashing_targets_witness :
  exists r g' agents',
    VotingSystem.conduct_vote linear_weighted biased_pair good_proposal
      half_rng = (Ok (r, g'), agents') /\
    length agents' = length biased_pair /\
    (forall k, In k (agents_slashed r) <-> supported_wrong_outcome r k).
Proof.
  destruct biased_round as (r & g' & agents' & Hrun & _ & Hc & _).
  exists r, g', agents'; split; [exact Hrun|].
  destruct (slashing_targets linear_weighted biased_pair good_proposal
              half_rng r g' agents' Hrun biased_pair_distinct
              biased_pair_bounded) as (Hlen & Hon & _).
  split; [exact Hlen|].
  apply Hon; [exact Hc | discriminate | simpl; lra].
Defined.

Lemma round_frame_witness :
  Forall2 same_but_slashed biased_pair
    (snd (VotingSystem.conduct_vote linear_weighted biased_pair
            good_proposal half_rng)).
Proof.
  exact (proj1 (round_frame linear_weighted biased_pair good_proposal
                  half_rng _ _ (surjective_pairing _))).
Defined.

Lemma tally_counts_each_power_once_witness :
  exists r g' agents',
    VotingSystem.conduct_vote linear_weighted biased_pair good_proposal
      half_rng = (Ok (r, g'), agents') /\
    0 <= yes_voting_power r <= total_voting_power r /\
    0 <= no_voting_power r <= total_voting_power r.
Proof.
  destruct biased_round as (r & g' & agents' & Hrun & _).
  exists r, g', agents'; split; [exact Hrun|].
  destruct (tally_counts_each_power_once linear_weighted biased_pair
              good_proposal half_rng r g' agents')
    as (vp & capped & _ & _ & _ & _ & _ & _ & _ & _ & Hy & Hn);
    [simpl; lra | exact Hrun | split; assumption].
Defined.

Lemma degenerate_vote_fails_quietly_witness :
  exists r g' agents',
    VotingSystem.conduct_vote linear_weighted sybil_pair good_proposal
      half_rng = (Ok (r, g'), agents') /\
    total_voting_power r = 0 /\ passed r = false.
Proof.
  destruct (degenerate_vote_fails_quietly linear_weighted sybil_pair
              good_proposal half_rng) as (_ & Hdecision & Hreturns).
  destruct Hreturns as (r & g' & agents' & Hrun).
  - right; left; reflexivity.
  - right; left; reflexivity.
  - repeat constructor; simpl; try lra; discriminate.
  - exists r, g', agents'; split; [exact Hrun|].
    destruct sybil_round as (r0 & g0 & agents0 & Hrun0 & Hzero & _).
    rewrite Hrun in Hrun0; injection Hrun0 as <- _ _.
    split; [exact Hzero | apply (Hdecision r g' agents' Hrun), Hzero].
Defined.

(** ** The same rounds on binary64 floats *)

Section Binary64Runs.

Import Floats.
#[local] Set Warnings "-inexact-float".
Local Open Scope float_scope.

(** On binary64 floats the multiplier [1 + amount_slashed /
    original_stake] does not grow strictly.  For an original stake of 8,
    the amounts 2 and the next float above 2 both give 1.25.  And under
    the exponential method at the positive rate 1e-17, an agent of stake
    8 that was slashed once has a positive [amount_slashed], yet its
    multiplier at the second slashing is 1, as it was at the first. *)
Lemma exponential_multiplier_not_strict :
  (Binary64.Agent.amount_slashed (Scripted.slashed_by 2)
   <? Binary64.Agent.amount_slashed (Scripted.slashed_by (next_up 2)))
    = true /\
  Binary64.VotingSystem.slash_multiplier (Scripted.slashed_by 2)
    = Ok 1.25 /\
  Binary64.VotingSystem.slash_multiplier (Scripted.slashed_by (next_up 2))
    = Ok 1.25 /\
  exists first_slash slashed_once,
    (0 <? Binary64.slashing_rate (Scripted.weighted "exponential" 1e-17))
      = true /\
    Binary64.VotingSystem.calculate_slash_amount
      (Scripted.weighted "exponential" 1e-17) (Scripted.slashed_by 0)
      = Ok first_slash /\
    slashed_once
      = Binary64.Agent.apply_slashing (Scripted.slashed_by 0) first_slash /\
    (0 <? Binary64.Agent.amount_slashed slashed_once) = true /\
    Binary64.VotingSystem.slash_multiplier (Scripted.slashed_by 0) = Ok 1 /\
    Binary64.VotingSystem.slash_multiplier slashed_once = Ok 1.
Proof.
  split; [vm_compute; reflexivity|].
  split; [vm_compute; reflexivity|].
  split; [vm_compute; reflexivity|].
  eexists; eexists.
  split; [vm_compute; reflexivity|].
  split; [vm_compute; reflexivity|].
  split; [reflexivity|].
  repeat split; vm_compute; reflexivity.
Qed.

(** On binary64 floats the two tallies need not add up to the total.  A
    colluder of stake 5.1 and two systematically biased agents of stakes
    5.1 and 5.3 vote on a proposal of quality 0.7, under weighted voting
    on token stakes: the colluder votes YES, the other two NO; the total
    is (5.1 + 5.1) + 5.3 = 15.5, the NO tally 5.1 + 5.3 rounds to
    10.399999999999999, and YES plus NO is 15.499999999999998. *)
Lemma tally_rounds_apart :
  exists r g' agents',
    Binary64.VotingSystem.conduct_vote (Scripted.weighted "none" 0)
      Scripted.three_voters Scripted.good_proposal Scripted.quality_07
      = (Ok (r, g'), agents') /\
    Binary64.votes_cast r = [(1%Z, true); (2%Z, false); (3%Z, false)] /\
    Binary64.yes_voting_power r = 5.1 /\
    Binary64.no_voting_power r = 10.399999999999999 /\
    Binary64.total_voting_power r = 15.5 /\
    Binary64.yes_voting_power r + Binary64.no_voting_power r
      = 15.499999999999998 /\
    (Binary64.yes_voting_power r + Binary64.no_voting_power r
     =? Binary64.total_voting_power r) = false.
Proof.
  eexists; eexists; eexists; split; [vm_compute; reflexivity|].
  vm_compute; repeat split.
Qed.

(** On binary64 floats an agent can be listed in [agents_slashed]
    without any increase of its [amount_slashed].  One systematically
    biased agent of stake 10 votes NO on good proposals, round after
    round of one attack instance; every round fails the proposal, so the
    outcome is incorrect and the agent supported it.

    Under progressive slashing at rate 0.3 the 26th slash brings
    [amount_slashed] to the stake itself; in round 27 the agent is listed
    again and stays at 10.

    Under linear slashing at rate 0.3 the agent stands at
    9.9999999999999982, below its stake, after round 101; in round 102 it
    is listed again, and the penalty, 0.3 times what is left, is lost
    when it is added. *)
Lemma listed_without_increase :
  Scripted.slashed_after (Scripted.weighted "progressive" 0.3) 25
    = [9.9999999999999982] /\
  Scripted.slashed_after (Scripted.weighted "progressive" 0.3) 26 = [10] /\
  map Binary64.Agent.stake
    (snd (Scripted.instance (Scripted.weighted "progressive" 0.3) 26))
    = [10] /\
  Scripted.last_round (Scripted.weighted "progressive" 0.3) 27
    = Some (true, false, false, [(1%Z, false)], [1%Z]) /\
  Scripted.slashed_after (Scripted.weighted "progressive" 0.3) 27 = [10] /\
  Scripted.slashed_after (Scripted.weighted "linear" 0.3) 101
    = [9.9999999999999982] /\
  (9.9999999999999982 <? 10) = true /\
  Scripted.last_round (Scripted.weighted "linear" 0.3) 102
    = Some (true, false, false, [(1%Z, false)], [1%Z]) /\
  Scripted.slashed_after (Scripted.weighted "linear" 0.3) 102
    = [9.9999999999999982].
Proof. vm_compute; repeat split. Qed.

(** On binary64 floats [random.uniform(a, b)] returns [b] itself at the
    largest draw below 1: a stake of 10, a threshold of 0.8, and a
    proposal of quality 0.6 from the branch of [generate_proposal] that
    aims at the band around one half. *)
Lemma uniform_reaches_upper_end :
  (0x1.fffffffffffffp-1 <? 1) = true /\
  fst (Binary64.uniform 5 10 (fun _ => 0x1.fffffffffffffp-1)) = 10 /\
  fst (Binary64.uniform 0.4 0.8 (fun _ => 0x1.fffffffffffffp-1)) = 0.8 /\
  Binary64.quality
    (fst (fst (Binary64.SimulationEngine.generate_proposal
                 Binary64.SimulationEngine.init
                 (fun n => match n with
                           | O => 0.25
                           | S _ => 0x1.fffffffffffffp-1
                           end))))
    = 0.6.
Proof. vm_compute; repeat split. Qed.

End Binary64Runs.

(** * Further properties of the code *)

(** ** Adversarial votes *)

(** X1: on a proposal in the manipulation band [0.4 < quality < 0.6], a
    colluding, whale, sybil or systematically biased agent votes against
    the objective quality, and draws nothing. *)
Theorem adversaries_oppose_in_band (a : Agent.t) (q : R) (g : rng) :
  In (Agent.agent_type a) [COLLUSION; WHALE; SYBIL; SYSTEMATIC_BIAS] ->
  0.4 < q < 0.6 ->
  Agent.vote_on_proposal a q g = Ok (negb (Rleb 0.5 q), g).
Proof.
  intros Hty Hq; unfold Agent.vote_on_proposal.
  simpl in Hty; destruct Hty as [<-|[<-|[<-|[<-|[]]]]];
    unfold Agent._whale_vote, Agent._collusion_vote, Agent._sybil_vote,
      Agent._systematic_bias_vote; float_cases; simpl;
    try reflexivity; lra.
Qed.

Lemma adversaries_oppose_in_band_witness :
  Agent.vote_on_proposal (Agent.new 3 WHALE 120 None) 0.55 half_rng
    = Ok (negb (Rleb 0.5 0.55), half_rng).
Proof.
  apply adversaries_oppose_in_band; [simpl; auto | lra].
Defined.

(** X2: away from the band, a colluding or whale agent
    ([quality <= 0.35] or [quality >= 0.65]) and a sybil agent
    ([quality <= 0.4] or [quality >= 0.6]) vote with the objective
    quality, and draw nothing. *)
Theorem manipulators_correct_outside (a : Agent.t) (q : R) (g : rng) :
  (In (Agent.agent_type a) [COLLUSION; WHALE] /\ (q <= 0.35 \/ 0.65 <= q))
  \/ (Agent.agent_type a = SYBIL /\ (q <= 0.4 \/ 0.6 <= q)) ->
  Agent.vote_on_proposal a q g = Ok (Rleb 0.5 q, g).
Proof.
  unfold Agent.vote_on_proposal.
  intros [[Hty Hq]|[-> Hq]];
    [simpl in Hty; destruct Hty as [<-|[<-|[]]]|];
    unfold Agent._whale_vote, Agent._collusion_vote, Agent._sybil_vote;
    float_cases; simpl; try reflexivity; lra.
Qed.

Lemma manipulators_correct_outside_witness :
  Agent.vote_on_proposal (Agent.new 4 SYBIL 1 None) 0.4 half_rng
    = Ok (Rleb 0.5 0.4, half_rng).
Proof.
  apply manipulators_correct_outside; right; split; [reflexivity | lra].
Defined.

(** X3: in the two decay bands [0.35 < quality <= 0.4] and
    [0.6 <= quality < 0.65] a colluding or whale agent takes one draw and
    votes against the objective quality exactly when the draw is below
    one half. *)
Theorem colluders_half_wrong_in_decay_band (a : Agent.t) (q : R) (g : rng) :
  In (Agent.agent_type a) [COLLUSION; WHALE] ->
  0.35 < q <= 0.4 \/ 0.6 <= q < 0.65 ->
  Agent.vote_on_proposal a q g
    = Ok (if Rltb (g O) 0.5 then negb (Rleb 0.5 q) else Rleb 0.5 q,
          snd (random g)).
Proof.
  unfold Agent.vote_on_proposal; intros Hty Hq.
  simpl in Hty; destruct Hty as [<-|[<-|[]]];
    unfold Agent._whale_vote, Agent._collusion_vote; simpl;
    float_cases; simpl; try reflexivity; lra.
Qed.

Lemma colluders_half_wrong_in_decay_band_witness :
  Agent.vote_on_proposal (Agent.new 5 COLLUSION 6 None) 0.6 half_rng
    = Ok (if Rltb (half_rng O) 0.5 then negb (Rleb 0.5 0.6)
          else Rleb 0.5 0.6, snd (random half_rng)).
Proof.
  apply colluders_half_wrong_in_decay_band; [simpl; auto | lra].
Defined.

(** ** Honest votes, further *)

(** X4: an honest agent whose threshold is at least 0.4 never votes YES
    on a proposal of quality at most 0.2: the negative probability is
    clamped to zero and no draw of [random()] is below zero. *)
Theorem honest_rejects_low_quality (a : Agent.t) (x q : R) (g : rng) :
  Agent.agent_type a = HONEST ->
  Agent.honesty_threshold a = Some x ->
  0.4 <= x ->
  q <= 0.2 ->
  uniform01 g ->
  Agent.vote_on_proposal a q g = Ok (false, snd (random g)).
Proof.
  intros Hty Hx Hlo Hq Hg; unfold Agent.vote_on_proposal; rewrite Hty.
  rewrite (honest_vote_low a x q g Hx Hlo) by lra.
  assert (Hi : 0 < / (x + 0.5)) by (apply Rinv_0_lt_compat; lra).
  assert (Hp : Rmax 0 ((q - 0.2) / (x + 0.5)) <= g O).
  { destruct (Hg O) as [H0 _]; apply Rmax_lub; [exact H0|].
    unfold Rdiv; nra. }
  apply Rltb_false in Hp; rewrite Hp; reflexivity.
Qed.

Lemma honest_rejects_low_quality_witness :
  Agent.vote_on_proposal honest_mid 0.1 half_rng
    = Ok (false, snd (random half_rng)).
Proof.
  apply (honest_rejects_low_quality honest_mid 0.6 0.1 half_rng);
    [reflexivity | reflexivity | lra | lra |].
  intros n; unfold half_rng; lra.
Defined.

(** X5: on the same draw, an honest agent with threshold in [0.4, 0.8]
    that votes YES on a proposal also votes YES on every proposal of
    higher quality in [0, 1]: the probability of YES does not decrease
    with quality. *)
Theorem honest_vote_monotone (a : Agent.t) (x q1 q2 : R) (g g1 : rng) :
  Agent.agent_type a = HONEST ->
  Agent.honesty_threshold a = Some x ->
  0.4 <= x <= 0.8 ->
  0 <= q1 <= q2 -> q2 <= 1 ->
  Agent.vote_on_proposal a q1 g = Ok (true, g1) ->
  exists g2, Agent.vote_on_proposal a q2 g = Ok (true, g2).
Proof.
  intros Hty Hx Hrange Hq Hq2; unfold Agent.vote_on_proposal; rewrite Hty.
  assert (Hix : 0 < / x) by (apply Rinv_0_lt_compat; lra).
  assert (Hxx : x * / x = 1) by (apply Rinv_r; lra).
  assert (Hiy : 0 < / (x + 0.5)) by (apply Rinv_0_lt_compat; lra).
  assert (Hyy : (x + 0.5) * / (x + 0.5) = 1) by (apply Rinv_r; lra).
  destruct (Rlt_le_dec 0.4 q2) as [Hhi2|Hlo2].
  - destruct (Rlt_le_dec q2 x) as [Hmid2|Htop2].
    + rewrite (honest_vote_mid a x q2 g Hx) by lra.
      destruct (Rlt_le_dec 0.4 q1) as [Hhi1|Hlo1].
      * rewrite (honest_vote_mid a x q1 g Hx) by lra.
        intros [= Hv _]; apply Rltb_true in Hv.
        assert (Hv2 : g O < q2 / x) by (unfold Rdiv in *; nra).
        apply Rltb_true in Hv2; rewrite Hv2; eauto.
      * rewrite (honest_vote_low a x q1 g Hx) by lra.
        intros [= Hv _]; apply Rltb_true in Hv.
        assert (Hp : Rmax 0 ((q1 - 0.2) / (x + 0.5)) <= 0.5)
          by (apply Rmax_lub; [lra | unfold Rdiv; nra]).
        assert (Hv2 : g O < q2 / x) by (unfold Rdiv; nra).
        apply Rltb_true in Hv2; rewrite Hv2; eauto.
    + intros _; rewrite (honest_vote_high a x q2 g Hx) by lra; eauto.
  - rewrite (honest_vote_low a x q1 g Hx), (honest_vote_low a x q2 g Hx)
      by lra.
    intros [= Hv _]; apply Rltb_true in Hv.
    assert (Hle : Rmax 0 ((q1 - 0.2) / (x + 0.5))
                  <= Rmax 0 ((q2 - 0.2) / (x + 0.5))).
    { apply Rmax_lub; [apply Rmax_l|].
      eapply Rle_trans; [|apply Rmax_r]; unfold Rdiv; nra. }
    assert (Hv2 : g O < Rmax 0 ((q2 - 0.2) / (x + 0.5))) by lra.
    apply Rltb_true in Hv2; rewrite Hv2; eauto.
Qed.

Lemma honest_vote_monotone_witness :
  exists g2, Agent.vote_on_proposal honest_mid 0.9 half_rng = Ok (true, g2).
Proof.
  apply (honest_vote_monotone honest_mid 0.6 0.7 0.9 half_rng half_rng);
    [reflexivity | reflexivity | lra | lra | lra |].
  unfold Agent.vote_on_proposal; simpl.
  apply (honest_vote_high honest_mid 0.6 0.7 half_rng); [reflexivity | lra | lra].
Defined.

(** ** Saturated slashing *)

(** X6: a slash that reaches the remaining stake uses it up:
    [amount_slashed] becomes [stake], the effective stake becomes 0, and
    no later slash with an amount that is not negative changes the agent
    again. *)
Theorem slashing_saturates (a : Agent.t) (s : R) (later : list R) :
  Agent.amount_slashed a <= Agent.stake a ->
  Agent.stake a - Agent.amount_slashed a <= s ->
  Forall (Rle 0) later ->
  let a' := Agent.apply_slashing a s in
  Agent.amount_slashed a' = Agent.stake a /\
  Agent.get_effective_stake a' = 0 /\
  slash_all a' later = a'.
Proof.
  intros Ha Hs Hlater a'.
  assert (Hfull : Agent.amount_slashed a' = Agent.stake a)
    by (unfold a', Agent.apply_slashing; simpl; float_cases; lra).
  split; [exact Hfull|]; split.
  - unfold Agent.get_effective_stake; rewrite Hfull.
    change (Agent.stake a') with (Agent.stake a).
    rewrite Rmax_left; lra.
  - assert (Hfix : forall t, 0 <= t -> Agent.apply_slashing a' t = a').
    { intros t Ht; revert Hfull; unfold a'.
      unfold Agent.apply_slashing, Agent.set_amount_slashed; simpl.
      intros Hfull; f_equal; rewrite Hfull; float_cases; lra. }
    unfold slash_all; induction Hlater as [|t rest Ht _ IH]; simpl;
      [reflexivity|].
    rewrite Hfix by assumption; exact IH.
Qed.

Lemma slashing_saturates_witness :
  let a' := Agent.apply_slashing (Agent.new 1 WHALE 10 None) 12 in
  Agent.amount_slashed a' = 10 /\
  Agent.get_effective_stake a' = 0 /\
  slash_all a' [3; 0] = a'.
Proof.
  apply (slashing_saturates (Agent.new 1 WHALE 10 None) 12 [3; 0]);
    [simpl; lra | simpl; lra | repeat constructor; lra].
Defined.

(** ** Sybil discount and cap, at their extremes *)

(** X7: [apply_sybil_resistance] leaves the power of an agent that is
    not a sybil alone and draws nothing; for a sybil it takes one draw,
    and on draws in [0, 1) a resistance of at least 1 always discards the
    vote while a resistance of at most 0 never does. *)
Theorem sybil_discount_extremes (m : GovernanceMechanism) (a : Agent.t)
    (power : R) (g : rng) :
  (Agent.agent_type a <> SYBIL ->
   VotingSystem.apply_sybil_resistance m a power g = (power, g)) /\
  (Agent.agent_type a = SYBIL -> uniform01 g ->
   (1 <= sybil_resistance m ->
    VotingSystem.apply_sybil_resistance m a power g = (0, snd (random g)))
   /\
   (sybil_resistance m <= 0 ->
    VotingSystem.apply_sybil_resistance m a power g
      = (power, snd (random g)))).
Proof.
  unfold VotingSystem.apply_sybil_resistance; split.
  - destruct (Agent.agent_type a); intros H; try reflexivity.
    contradiction.
  - intros -> Hg; destruct (Hg O) as [H0 H1]; simpl.
    split; intros Hr; float_cases; try reflexivity; lra.
Qed.

Lemma sybil_discount_extremes_witness :
  VotingSystem.apply_sybil_resistance linear_weighted
    (Agent.new 1 SYBIL 1 None) 1 half_rng = (0, snd (random half_rng)).
Proof.
  apply (sybil_discount_extremes linear_weighted (Agent.new 1 SYBIL 1 None)
           1 half_rng); [reflexivity | | simpl; lra].
  intros n; unfold half_rng; lra.
Defined.

Lemma nonneg_le_sum (xs : list R) (x : R) :
  Forall (Rle 0) xs -> In x xs -> x <= Py.sum xs.
Proof.
  induction 1 as [|y ys Hy Hys IH]; intros Hin; [destruct Hin|].
  rewrite sum_cons; pose proof (sum_nonneg ys Hys) as Hs.
  destruct Hin as [->|Hin]; [lra|].
  specialize (IH Hin); lra.
Qed.

(** X8: with [max_voting_power] at least 1 the cap changes nothing when
    no power is negative: no single power exceeds the total. *)
Theorem cap_inactive_at_full_share (m : GovernanceMechanism)
    (agents : list Agent.t) (voting_powers : dict R) :
  1 <= max_voting_power m ->
  Forall (Rle 0) (values voting_powers) ->
  VotingSystem.apply_max_voting_power_cap m agents voting_powers
    = voting_powers.
Proof.
  intros Hm Hpos; unfold VotingSystem.apply_max_voting_power_cap.
  destruct (Reqb (Py.sum (values voting_powers)) 0); [reflexivity|].
  pose proof (sum_nonneg _ Hpos) as HT.
  rewrite <- (map_id voting_powers) at 2.
  apply map_ext_in; intros [k p] Hin.
  assert (Hp : p <= Py.sum (values voting_powers)).
  { apply nonneg_le_sum; [assumption|].
    unfold values; change p with (snd (k, p)); apply in_map; exact Hin. }
  assert (Hc : p <= Py.sum (values voting_powers) * max_voting_power m)
    by nra.
  apply Rltb_false in Hc; rewrite Hc; reflexivity.
Qed.

Lemma cap_inactive_at_full_share_witness :
  VotingSystem.apply_max_voting_power_cap linear_weighted two_honest
    two_powers = two_powers.
Proof.
  apply cap_inactive_at_full_share; [simpl; lra|].
  repeat constructor; simpl; lra.
Defined.

(** ** Slash amounts, at the edges *)

(** X9: for an agent that was never slashed and has a nonzero original
    stake, every slashing method, known or not, gives the same amount:
    the base penalty [effective_stake * slashing_rate]. *)
Theorem first_slash_is_base_penalty (m : GovernanceMechanism) (a : Agent.t) :
  Agent.amount_slashed a = 0 ->
  Agent.original_stake a <> 0 ->
  exists s,
    VotingSystem.calculate_slash_amount m a = Ok s /\
    s = Agent.get_effective_stake a * slashing_rate m.
Proof.
  intros Hz Ho; unfold VotingSystem.calculate_slash_amount.
  repeat match goal with
         | |- context [String.eqb ?x ?y] => destruct (String.eqb x y)
         end; try (eexists; split; [reflexivity | reflexivity]).
  - rewrite slash_multiplier_value by assumption; simpl.
    eexists; split; [reflexivity|]; rewrite Hz; unfold Rdiv; lra.
  - destruct (Rltb 0 (slashing_rate m)) eqn:E; simpl.
    + apply Rltb_true in E; rewrite fdiv_ok by nra; simpl.
      eexists; split; [reflexivity|]; rewrite Hz; unfold Rdiv; lra.
    + eexists; split; [reflexivity | lra].
Qed.

Lemma first_slash_is_base_penalty_witness :
  exists s,
    VotingSystem.calculate_slash_amount weighted_exponential honest_mid
      = Ok s /\
    s = Agent.get_effective_stake honest_mid
        * slashing_rate weighted_exponential.
Proof.
  apply first_slash_is_base_penalty; [reflexivity | simpl; lra].
Defined.

(** X10: for an agent whose original stake is 0, computing the slash
    amount raises [ZeroDivisionError] under the exponential method, and
    under the progressive method when the rate is positive; under the
    progressive method with a rate that is not positive, and under every
    other method, it returns. *)
Theorem zero_original_stake_divides_by_zero (m : GovernanceMechanism)
    (a : Agent.t) :
  Agent.original_stake a = 0 ->
  (slashing_method m = "exponential" ->
   VotingSystem.calculate_slash_amount m a = Raise ZeroDivisionError) /\
  (slashing_method m = "progressive" -> 0 < slashing_rate m ->
   VotingSystem.calculate_slash_amount m a = Raise ZeroDivisionError) /\
  ((slashing_method m = "progressive" /\ slashing_rate m <= 0)
   \/ (slashing_method m <> "exponential"
       /\ slashing_method m <> "progressive") ->
   exists s, VotingSystem.calculate_slash_amount m a = Ok s).
Proof.
  intros Ho; unfold VotingSystem.calculate_slash_amount,
    VotingSystem.slash_multiplier; rewrite Ho.
  split; [|split].
  - intros ->; simpl; rewrite fdiv_zero; reflexivity.
  - intros -> Hr; simpl; apply Rltb_true in Hr; rewrite Hr.
    rewrite Rmult_0_r, fdiv_zero; reflexivity.
  - intros [[-> Hr]|[He Hp]]; simpl.
    + apply Rltb_false in Hr; rewrite Hr; simpl; eauto.
    + apply String.eqb_neq in He, Hp; rewrite He, Hp.
      destruct (String.eqb (slashing_method m) "linear"); eauto.
Qed.

Lemma zero_original_stake_divides_by_zero_witness :
  VotingSystem.calculate_slash_amount weighted_exponential
    (Agent.new 1 SYSTEMATIC_BIAS 0 None) = Raise ZeroDivisionError.
Proof.
  apply (proj1 (zero_original_stake_divides_by_zero weighted_exponential
                  (Agent.new 1 SYSTEMATIC_BIAS 0 None) eq_refl));
    reflexivity.
Defined.

(** ** Invalid configurations and empty populations *)

Lemma recognized_stake_method_dec (method : string) :
  recognized_stake_method method \/ ~ recognized_stake_method method.
Proof.
  unfold recognized_stake_method.
  destruct (String.eqb_spec method "equal_weight"); [auto|].
  destruct (String.eqb_spec method "token_based"); [auto|].
  destruct (String.eqb_spec method "reputation_based"); [auto|].
  destruct (String.eqb_spec method "hybrid"); [auto|].
  right; intuition.
Qed.

Lemma unknown_stake_method_raises (m : GovernanceMechanism) (a : Agent.t) :
  ~ recognized_stake_method (stake_method m) ->
  exists msg,
    VotingSystem.calculate_voting_power m a = Raise (ValueError msg).
Proof.
  unfold recognized_stake_method, VotingSystem.calculate_voting_power.
  intros Hs.
  destruct (String.eqb_spec (stake_method m) "equal_weight"); [tauto|].
  destruct (String.eqb_spec (stake_method m) "token_based"); [tauto|].
  destruct (String.eqb_spec (stake_method m) "reputation_based"); [tauto|].
  destruct (String.eqb_spec (stake_method m) "hybrid"); [tauto|].
  simpl; eauto.
Qed.

Lemma unknown_voting_method_raises (m : GovernanceMechanism) (a : Agent.t) :
  recognized_stake_method (stake_method m) ->
  ~ recognized_voting_method (voting_method m) ->
  exists msg,
    VotingSystem.calculate_voting_power m a = Raise (ValueError msg).
Proof.
  unfold recognized_voting_method, VotingSystem.calculate_voting_power.
  intros Hs Hv.
  destruct (String.eqb_spec (voting_method m) "simple_majority"); [tauto|].
  destruct (String.eqb_spec (voting_method m) "weighted"); [tauto|].
  destruct (String.eqb_spec (voting_method m) "quadratic"); [tauto|].
  destruct Hs as [-> | [-> | [-> | ->]]]; simpl; eauto.
Qed.

(** X11: an unrecognized stake method makes [calculate_voting_power]
    raise [ValueError] under every voting method, simple_majority
    included, and so does an unrecognized voting method; a round with at
    least one agent, the first of them well formed, then raises
    [ValueError] and leaves every agent as it was. *)
Theorem unknown_methods_abort_the_round (m : GovernanceMechanism)
    (a : Agent.t) (rest : list Agent.t) (p : Proposal) (g : rng) :
  ~ recognized_stake_method (stake_method m)
  \/ ~ recognized_voting_method (voting_method m) ->
  (exists msg,
     VotingSystem.calculate_voting_power m a = Raise (ValueError msg)) /\
  (well_formed a ->
   exists msg,
     VotingSystem.conduct_vote m (a :: rest) p g
       = (Raise (ValueError msg), a :: rest)).
Proof.
  intros Hbad.
  assert (Hraise : exists msg,
            VotingSystem.calculate_voting_power m a
              = Raise (ValueError msg)).
  { destruct (recognized_stake_method_dec (stake_method m)) as [Hs|Hs];
      [|apply unknown_stake_method_raises; exact Hs].
    apply unknown_voting_method_raises; tauto. }
  split; [exact Hraise|].
  intros Hwf; destruct Hraise as [msg Hmsg]; exists msg.
  destruct (vote_returns a (quality p) g Hwf) as (v & g1 & Hv).
  unfold VotingSystem.conduct_vote; simpl.
  rewrite Hv; simpl; rewrite Hmsg; reflexivity.
Qed.

Lemma unknown_methods_abort_the_round_witness :
  exists msg,
    VotingSystem.conduct_vote
      {| voting_method := "simple_majority"; stake_method := "proof_of_work";
         slashing_method := "linear"; consensus_threshold := 0.5;
         slashing_rate := 0.1; sybil_resistance := 0;
         max_voting_power := 1 |}
      (honest_mid :: two_honest) good_proposal half_rng
    = (Raise (ValueError msg), honest_mid :: two_honest).
Proof.
  apply unknown_methods_abort_the_round.
  - left; unfold recognized_stake_method; simpl.
    intros [H|[H|[H|H]]]; discriminate.
  - split; [simpl; lra|].
    intros _; exists 0.6; split; [reflexivity | lra].
Defined.

(** X12: a round without agents returns under every mechanism, whatever
    its methods: no votes, no power, the proposal fails, nobody is
    slashed, the generator is untouched, and the outcome counts as
    correct exactly for a proposal that is not objectively good. *)
Theorem empty_round (m : GovernanceMechanism) (p : Proposal) (g : rng) :
  exists r,
    VotingSystem.conduct_vote m [] p g = (Ok (r, g), []) /\
    proposal r = p /\ passed r = false /\
    total_voting_power r = 0 /\ yes_voting_power r = 0 /\
    no_voting_power r = 0 /\
    votes_cast r = [] /\ agents_slashed r = [] /\
    correct_outcome r = negb (is_objectively_good p).
Proof.
  assert (E : Reqb 0 0 = true) by (apply Reqb_true; reflexivity).
  unfold VotingSystem.conduct_vote; simpl.
  rewrite decide_passed_value, E; simpl.
  unfold VotingSystem.apply_slashing.
  destruct (is_objectively_good p); simpl.
  - destruct (_ || _); simpl; eexists; repeat split.
  - eexists; repeat split.
Qed.

Lemma empty_round_witness :
  exists r,
    VotingSystem.conduct_vote quartic_slashing [] good_proposal half_rng
      = (Ok (r, half_rng), []) /\
    passed r = false /\ correct_outcome r = false.
Proof.
  destruct (empty_round quartic_slashing good_proposal half_rng)
    as (r & Hrun & _ & Hp & _ & _ & _ & _ & _ & Hc).
  exists r; repeat split; try assumption.
  rewrite Hc; unfold is_objectively_good, good_proposal; simpl.
  assert (E : Rleb 0.5 0.7 = true) by (apply Rleb_true; lra).
  rewrite E; reflexivity.
Defined.

(** ** What the votes of a round record *)

Lemma keys_set_new {V : Type} (k : Z) (v : V) (d : dict V) :
  ~ In k (keys d) -> keys (dict_set k v d) = (keys d ++ [k])%list.
Proof.
  unfold keys; induction d as [|[k0 v0] d IH]; simpl; [reflexivity|].
  intros Hnot; destruct (Z.eqb_spec k k0) as [->|Hne]; [tauto|].
  simpl; f_equal; apply IH; tauto.
Qed.

Lemma collect_keys_in_order (m : GovernanceMechanism) (q : R)
    (agents : list Agent.t) :
  forall (vp : dict R) (vc : dict bool) (g : rng) vp' vc' g',
    VotingSystem.collect m agents q vp vc g = Ok (vp', vc', g') ->
    List.NoDup (keys vc ++ map Agent.agent_id agents)%list ->
    keys vc' = (keys vc ++ map Agent.agent_id agents)%list.
Proof.
  induction agents as [|a rest IH]; intros vp vc g vp' vc' g'; simpl.
  - intros [= _ <- _] _; rewrite app_nil_r; reflexivity.
  - destruct (Agent.vote_on_proposal a q g) as [[vote g1]|e]; simpl;
      [|discriminate].
    destruct (VotingSystem.calculate_voting_power m a) as [power|e];
      simpl; [|discriminate].
    destruct (VotingSystem.apply_sybil_resistance m a power g1)
      as [power' g2].
    intros Hrun Hnd.
    assert (Hnew : ~ In (Agent.agent_id a) (keys vc)).
    { apply NoDup_remove_2 in Hnd; intros Hin; apply Hnd.
      apply in_or_app; left; exact Hin. }
    apply IH in Hrun; rewrite keys_set_new in * by assumption.
    + rewrite Hrun, <- app_assoc; reflexivity.
    + rewrite <- app_assoc; simpl.
      apply NoDup_remove_1 in Hnd as Hnd1.
      apply NoDup_remove_2 in Hnd as Hnd2.
      apply List.NoDup_app_remove_l in Hnd1 as Hrest.
      clear Hrun IH; revert Hnd Hnd1 Hnd2.
      generalize (keys vc) as ks; intros ks; induction ks as [|k ks IHk];
        simpl; intros Hnd Hnd1 Hnd2.
      * constructor; [|exact Hrest].
        intros Hin; apply Hnd2; exact Hin.
      * inversion Hnd as [|? ? Hk Hks]; subst.
        inversion Hnd1 as [|? ? Hk1 Hks1]; subst.
        constructor.
        -- intros Hin; apply Hk; apply in_app_or in Hin.
           apply in_or_app; destruct Hin as [Hin|Hin]; [left; exact Hin|].
           right; exact Hin.
        -- apply IHk; try assumption.
           intros Hin; apply Hnd2; right; exact Hin.
Qed.

Lemma collect_other_keys (m : GovernanceMechanism) (q : R)
    (agents : list Agent.t) (k : Z) :
  ~ In k (map Agent.agent_id agents) ->
  forall (vp : dict R) (vc : dict bool) (g : rng) vp' vc' g',
    VotingSystem.collect m agents q vp vc g = Ok (vp', vc', g') ->
    dict_get k vc' = dict_get k vc /\ dict_get k vp' = dict_get k vp.
Proof.
  induction agents as [|a rest IH]; intros Hnot vp vc g vp' vc' g'; simpl.
  - intros [= <- <- _]; auto.
  - destruct (Agent.vote_on_proposal a q g) as [[vote g1]|e]; simpl;
      [|discriminate].
    destruct (VotingSystem.calculate_voting_power m a) as [power|e];
      simpl; [|discriminate].
    destruct (VotingSystem.apply_sybil_resistance m a power g1)
      as [power' g2].
    simpl in Hnot; intros Hrun; apply IH in Hrun; [|tauto].
    destruct Hrun as [-> ->].
    rewrite !dict_get_set_ne by (intros ->; tauto); auto.
Qed.

Lemma collect_records_own_vote (m : GovernanceMechanism) (q : R)
    (agents : list Agent.t) :
  List.NoDup (map Agent.agent_id agents) ->
  forall (vp : dict R) (vc : dict bool) (g : rng) vp' vc' g' i a,
    VotingSystem.collect m agents q vp vc g = Ok (vp', vc', g') ->
    agents !! i = Some a ->
    exists g0 v g1,
      Agent.vote_on_proposal a q g0 = Ok (v, g1) /\
      dict_get (Agent.agent_id a) vc' = Some v.
Proof.
  induction agents as [|b rest IH]; intros Hnd vp vc g vp' vc' g' i a;
    simpl; [discriminate|].
  simpl in Hnd; inversion Hnd as [|? ? Hnotin Hrest]; subst.
  destruct (Agent.vote_on_proposal b q g) as [[vote g1]|e] eqn:Hv; simpl;
    [|discriminate].
  destruct (VotingSystem.calculate_voting_power m b) as [power|e];
    simpl; [|discriminate].
  destruct (VotingSystem.apply_sybil_resistance m b power g1)
    as [power' g2].
  intros Hrun Hi; destruct i as [|i]; simpl in Hi.
  - injection Hi as <-; exists g, vote, g1; split; [exact Hv|].
    destruct (collect_other_keys m q rest (Agent.agent_id b) Hnotin
                _ _ _ _ _ _ Hrun) as [-> _].
    apply dict_get_set_eq.
  - eapply IH; eauto.
Qed.

(** X13: the [votes_cast] of a returned round has one entry per agent
    id and no other, without repetition; when the ids are distinct the
    entries follow the order of the agents, and the vote recorded for an
    agent is one that agent's own [vote_on_proposal] returned on the
    round's proposal. *)
Theorem votes_cast_covers_agents (m : GovernanceMechanism)
    (agents : list Agent.t) (p : Proposal) (g : rng) (r : VoteResult)
    (g' : rng) (agents' : list Agent.t) :
  VotingSystem.conduct_vote m agents p g = (Ok (r, g'), agents') ->
  List.NoDup (keys (votes_cast r)) /\
  (forall k, In k (keys (votes_cast r))
             <-> In k (map Agent.agent_id agents)) /\
  (List.NoDup (map Agent.agent_id agents) ->
   keys (votes_cast r) = map Agent.agent_id agents /\
   forall i a,
     agents !! i = Some a ->
     exists g0 v g1,
       Agent.vote_on_proposal a (quality p) g0 = Ok (v, g1) /\
       dict_get (Agent.agent_id a) (votes_cast r) = Some v).
Proof.
  intros Hrun.
  destruct (conduct_vote_inv _ _ _ _ _ _ _ Hrun) as (vp & Hcol & _).
  destruct (collect_spec _ _ _ _ _ _ _ _ _ Hcol eq_refl)
    as (_ & Hnd & Hin & _).
  split; [apply Hnd; constructor|]; split.
  - intros k; rewrite Hin; simpl; tauto.
  - intros Hids; split.
    + apply (collect_keys_in_order _ _ _ _ _ _ _ _ _ Hcol); exact Hids.
    + intros i a Ha.
      eapply collect_records_own_vote; eauto.
Qed.

Lemma votes_cast_covers_agents_witness :
  exists r g' agents',
    VotingSystem.conduct_vote linear_weighted biased_pair good_proposal
      half_rng = (Ok (r, g'), agents') /\
    keys (votes_cast r) = map Agent.agent_id biased_pair.
Proof.
  destruct biased_round as (r & g' & agents' & Hrun & _).
  exists r, g', agents'; split; [exact Hrun|].
  apply (votes_cast_covers_agents _ _ _ _ _ _ _ Hrun), biased_pair_distinct.
Defined.

(** X14: whoever is in [agents_slashed] has a recorded vote against the
    objective quality of the proposal, in a round whose outcome is
    incorrect; and an agent whose recorded vote agrees with the objective
    quality leaves the round exactly as it entered it. *)
Theorem only_wrong_voters_are_slashed (m : GovernanceMechanism)
    (agents : list Agent.t) (p : Proposal) (g : rng) (r : VoteResult)
    (g' : rng) (agents' : list Agent.t) :
  VotingSystem.conduct_vote m agents p g = (Ok (r, g'), agents') ->
  (forall k,
     In k (agents_slashed r) ->
     correct_outcome r = false /\
     dict_get k (votes_cast r) = Some (negb (is_objectively_good p))) /\
  (forall i a,
     agents !! i = Some a ->
     dict_get (Agent.agent_id a) (votes_cast r)
       = Some (is_objectively_good p) ->
     agents' !! i = Some a).
Proof.
  intros Hrun.
  destruct (conduct_vote_inv _ _ _ _ _ _ _ Hrun)
    as (vp & _ & _ & _ & Hp & Hc & _).
  assert (Hstruck : forall k,
            struck r k ->
            dict_get k (votes_cast r)
              = Some (negb (is_objectively_good p))).
  { intros k (vote & Hget & Hw); rewrite Hget; f_equal.
    rewrite Hp in Hw; unfold supports_wrong in Hw.
    destruct (passed r), (is_objectively_good p), vote;
      simpl in Hw; try discriminate; reflexivity. }
  destruct (correct_outcome r) eqn:Hco.
  { destruct (conduct_vote_no_slashing _ _ _ _ _ _ _ Hrun) as [Hl ->];
      [auto|].
    rewrite Hl; split; [intros k []| auto]. }
  destruct (slashing_enabled_dec m) as [Hoff|[Hm Hr]].
  { destruct (conduct_vote_no_slashing _ _ _ _ _ _ _ Hrun) as [Hl ->];
      [tauto|].
    rewrite Hl; split; [intros k []| auto]. }
  destruct (conduct_vote_slashing _ _ _ _ _ _ _ Hrun Hco Hm Hr)
    as [Hlist Heff].
  split.
  - intros k Hk; split; [reflexivity|].
    apply Hstruck, Hlist, Hk.
  - intros i a Ha Hvote.
    destruct (Heff i a Ha) as [_ Hkeep]; apply Hkeep.
    intros [_ Hs]; apply Hstruck in Hs; rewrite Hs in Hvote.
    injection Hvote; destruct (is_objectively_good p); discriminate.
Qed.

Lemma only_wrong_voters_are_slashed_witness :
  exists r g' agents',
    VotingSystem.conduct_vote linear_weighted biased_pair good_proposal
      half_rng = (Ok (r, g'), agents') /\
    forall k,
      In k (agents_slashed r) ->
      correct_outcome r = false /\
      dict_get k (votes_cast r)
        = Some (negb (is_objectively_good good_proposal)).
Proof.
  destruct biased_round as (r & g' & agents' & Hrun & _).
  exists r, g', agents'; split; [exact Hrun|].
  apply (only_wrong_voters_are_slashed _ _ _ _ _ _ _ Hrun).
Defined.

(** X15: in a round with distinct ids whose outcome is incorrect, under
    a slashing method other than none and a rate other than 0, every
    systematically biased agent is in [agents_slashed] and leaves the
    round as [apply_slashing] makes it from its computed slash amount:
    it always voted for the wrong outcome. *)
Theorem systematic_bias_always_slashed (m : GovernanceMechanism)
    (agents : list Agent.t) (p : Proposal) (g : rng) (r : VoteResult)
    (g' : rng) (agents' : list Agent.t) (i : nat) (a : Agent.t) :
  VotingSystem.conduct_vote m agents p g = (Ok (r, g'), agents') ->
  List.NoDup (map Agent.agent_id agents) ->
  correct_outcome r = false ->
  slashing_method m <> "none" ->
  slashing_rate m <> 0 ->
  agents !! i = Some a ->
  Agent.agent_type a = SYSTEMATIC_BIAS ->
  In (Agent.agent_id a) (agents_slashed r) /\
  dict_get (Agent.agent_id a) (votes_cast r)
    = Some (negb (is_objectively_good p)) /\
  exists slash_amount,
    VotingSystem.calculate_slash_amount m a = Ok slash_amount /\
    agents' !! i = Some (Agent.apply_slashing a slash_amount).
Proof.
  intros Hrun Hnd Hwrong Hm Hrate Ha Hty.
  destruct (conduct_vote_inv _ _ _ _ _ _ _ Hrun)
    as (vp & Hcol & _ & _ & Hp & Hc & _).
  destruct (collect_records_own_vote _ _ _ Hnd _ _ _ _ _ _ i a Hcol Ha)
    as (g0 & v & g1 & Hv & Hget).
  unfold Agent.vote_on_proposal in Hv; rewrite Hty in Hv.
  unfold Agent._systematic_bias_vote in Hv; injection Hv as <- _.
  assert (Hs : struck r (Agent.agent_id a)).
  { exists (negb (Rleb 0.5 (quality p))); split; [exact Hget|].
    rewrite Hp, Hwrong in *; unfold supports_wrong, is_objectively_good in *.
    destruct (passed r), (Rleb 0.5 (quality p)); simpl in *;
      try discriminate; reflexivity. }
  destruct (conduct_vote_slashing _ _ _ _ _ _ _ Hrun Hwrong Hm Hrate)
    as [Hlist Heff].
  split; [apply Hlist; exact Hs|]; split; [exact Hget|].
  destruct (Heff i a Ha) as [Hdo _].
  apply Hdo; split; [apply agents_by_id_complete; assumption | exact Hs].
Qed.

Lemma systematic_bias_always_slashed_witness :
  exists r g' agents',
    VotingSystem.conduct_vote linear_weighted biased_pair good_proposal
      half_rng = (Ok (r, g'), agents') /\
    In 1%Z (agents_slashed r) /\
    exists slash_amount,
      agents' !! O
        = Some (Agent.apply_slashing (Agent.new 1 SYSTEMATIC_BIAS 10 None)
                  slash_amount).
Proof.
  destruct biased_round as (r & g' & agents' & Hrun & _ & Hc & _).
  exists r, g', agents'; split; [exact Hrun|].
  destruct (systematic_bias_always_slashed linear_weighted biased_pair
              good_proposal half_rng r g' agents' O
              (Agent.new 1 SYSTEMATIC_BIAS 10 None) Hrun
              biased_pair_distinct Hc)
    as (Hin & _ & s & _ & Hnew);
    try reflexivity; [discriminate | simpl; lra |].
  split; [exact Hin | exists s; exact Hnew].
Defined.

(** ** Stake across rounds *)

Lemma slash_loop_keeps (m : GovernanceMechanism) (by_id : dict nat)
    (good proposal_passed : bool)
    (P : Agent.t -> Prop) (Q : Agent.t -> Agent.t -> Prop) :
  (forall a, Q a a) ->
  (forall a b c, Q a b -> Q b c -> Q a c) ->
  (forall a s,
     P a -> VotingSystem.calculate_slash_amount m a = Ok s ->
     P (Agent.apply_slashing a s) /\ Q a (Agent.apply_slashing a s)) ->
  forall items store slashed res store',
    VotingSystem.slash_loop m by_id good proposal_passed items store slashed
      = (res, store') ->
    Forall P store ->
    Forall P store' /\ Forall2 Q store store'.
Proof.
  intros Qrefl Qtrans Hstep.
  assert (Hdiag : forall l : list Agent.t, Forall2 Q l l)
    by (intros l; apply Forall_Forall2_diag, Forall_forall; auto).
  induction items as [|[k vote] rest IH];
    intros store slashed res store'; simpl.
  - intros [= _ <-] HP; auto.
  - destruct (dict_get k by_id) as [ix|]; [|intros [= _ <-]; auto].
    destruct (store !! ix) as [agent|] eqn:Hag; [|intros [= _ <-]; auto].
    destruct (_ || _); [|apply IH].
    destruct (VotingSystem.calculate_slash_amount m agent) as [s|e] eqn:Hs;
      [|intros [= _ <-]; auto].
    intros Hrun HP.
    destruct (Hstep agent s (Forall_lookup_1 _ _ _ _ HP Hag) Hs)
      as [HPa HQa].
    apply IH in Hrun; [|apply Forall_insert; assumption].
    destruct Hrun as [HP' HQ']; split; [exact HP'|].
    eapply Forall2_trans; [exact Qtrans| |exact HQ'].
    rewrite <- (list_insert_id store ix agent Hag) at 1.
    apply Forall2_insert; [apply Hdiag | exact HQa].
Qed.

(** X16: under a slashing rate that is not negative, a round, whether
    it returns or raises, keeps every agent within its stake
    ([0 <= amount_slashed <= stake = original_stake], the stake
    positive) and lowers nobody's [amount_slashed]: what holds of a fresh
    population holds after every round of a trial. *)
Theorem round_keeps_stake_bounded (m : GovernanceMechanism)
    (agents : list Agent.t) (p : Proposal) (g : rng)
    (res : result (VoteResult * rng)) (agents' : list Agent.t) :
  0 <= slashing_rate m ->
  Forall (fun a => 0 <= Agent.amount_slashed a <= Agent.stake a
                   /\ 0 < Agent.stake a
                   /\ Agent.original_stake a = Agent.stake a) agents ->
  VotingSystem.conduct_vote m agents p g = (res, agents') ->
  Forall (fun a => 0 <= Agent.amount_slashed a <= Agent.stake a
                   /\ 0 < Agent.stake a
                   /\ Agent.original_stake a = Agent.stake a) agents' /\
  Forall2 (fun a a' => Agent.amount_slashed a <= Agent.amount_slashed a')
    agents agents'.
Proof.
  intros Hrate Hinv.
  assert (Hsame : Forall2
            (fun a a' => Agent.amount_slashed a <= Agent.amount_slashed a')
            agents agents)
    by (apply Forall_Forall2_diag, Forall_forall; intros; lra).
  unfold VotingSystem.conduct_vote.
  destruct (VotingSystem.collect m agents (quality p) [] [] g)
    as [[[vp vc] g1]|e]; [|intros [= _ <-]; auto].
  destruct (VotingSystem.tally vc _ 0 0 0) as [[[yes no] total]|e];
    simpl; [|intros [= _ <-]; auto].
  rewrite decide_passed_value; simpl.
  destruct (negb _); [|intros [= _ <-]; auto].
  destruct (VotingSystem.apply_slashing m agents vc p _)
    as [slashed store] eqn:Hsl.
  assert (Hgoal :
    Forall (fun a => 0 <= Agent.amount_slashed a <= Agent.stake a
                     /\ 0 < Agent.stake a
                     /\ Agent.original_stake a = Agent.stake a) store /\
    Forall2 (fun a a' => Agent.amount_slashed a <= Agent.amount_slashed a')
      agents store).
  { destruct (slashing_enabled_dec m) as [Hoff|[Hm Hr]].
    - rewrite apply_slashing_disabled in Hsl by assumption.
      injection Hsl as _ <-; auto.
    - rewrite apply_slashing_enabled in Hsl by assumption.
      eapply slash_loop_keeps; [| | |exact Hsl|exact Hinv].
      + intros; simpl; lra.
      + intros; simpl in *; lra.
      + intros a s (Ha & Hs & Ho) Hcalc.
        destruct (slash_amount_value m a s) as (mu & -> & Hmu & _);
          try assumption; try lra.
        assert (He : 0 <= Agent.get_effective_stake a)
          by apply effective_stake_nonneg.
        assert (Hpos : 0 <= Agent.get_effective_stake a * slashing_rate m
                            * mu)
          by (apply Rmult_le_pos; [apply Rmult_le_pos|]; lra).
        pose proof (apply_slashing_step a _ (proj2 Ha) Hpos) as Hstep.
        split; [|lra].
        split; [|split; assumption].
        change (Agent.stake (Agent.apply_slashing a
                  (Agent.get_effective_stake a * slashing_rate m * mu)))
          with (Agent.stake a); lra. }
  destruct slashed; intros [= _ <-]; exact Hgoal.
Qed.

Lemma round_keeps_stake_bounded_witness :
  Forall (fun a => 0 <= Agent.amount_slashed a <= Agent.stake a
                   /\ 0 < Agent.stake a
                   /\ Agent.original_stake a = Agent.stake a)
    (snd (VotingSystem.conduct_vote linear_weighted biased_pair
            good_proposal half_rng)).
Proof.
  refine (proj1 (round_keeps_stake_bounded linear_weighted biased_pair
                   good_proposal half_rng _ _ _ _ (surjective_pairing _))).
  - simpl; lra.
  - repeat constructor; simpl; lra.
Defined.

(** ** Unanimous and powerless rounds *)

Lemma tally_one_sided (vp : dict R) (side : bool)
    (items : list (Z * bool)) :
  Forall (fun kv => snd kv = side) items ->
  forall y n t y' n' t',
    VotingSystem.tally items vp y n t = Ok (y', n', t') ->
    if side then n' = n /\ y' - y = t' - t
    else y' = y /\ n' - n = t' - t.
Proof.
  induction 1 as [|[k vote] rest Hv _ IH]; intros y n t y' n' t'; simpl.
  - intros [= <- <- <-]; destruct side; split; lra.
  - destruct (dict_get k vp) as [power|]; [|discriminate].
    simpl in Hv; subst vote; destruct side; intros Hrun;
      apply IH in Hrun; destruct Hrun; split; lra.
Qed.

(** X17: when every recorded vote of a returned round is YES, the no
    power is 0, the yes power is the total, and the proposal passes as
    soon as the total is not zero and the threshold is at most 1; when
    every recorded vote is NO, the yes power is 0 and the proposal fails
    under every positive threshold. *)
Theorem unanimous_rounds (m : GovernanceMechanism) (agents : list Agent.t)
    (p : Proposal) (g : rng) (r : VoteResult) (g' : rng)
    (agents' : list Agent.t) :
  VotingSystem.conduct_vote m agents p g = (Ok (r, g'), agents') ->
  (Forall (fun kv => snd kv = true) (votes_cast r) ->
   no_voting_power r = 0 /\
   yes_voting_power r = total_voting_power r /\
   (total_voting_power r <> 0 -> consensus_threshold m <= 1 ->
    passed r = true)) /\
  (Forall (fun kv => snd kv = false) (votes_cast r) ->
   yes_voting_power r = 0 /\
   no_voting_power r = total_voting_power r /\
   (0 < consensus_threshold m -> passed r = false)).
Proof.
  intros Hrun.
  destruct (conduct_vote_inv _ _ _ _ _ _ _ Hrun)
    as (vp & _ & Htal & Hpass & _).
  split; intros Hall;
    pose proof (tally_one_sided _ _ _ Hall _ _ _ _ _ _ Htal) as Hside;
    simpl in Hside; destruct Hside as [H1 H2].
  - repeat split; try lra.
    intros Hnz Hthr; rewrite Hpass.
    apply Reqb_false in Hnz as E; rewrite E.
    apply Rleb_true.
    replace (yes_voting_power r) with (total_voting_power r) by lra.
    unfold Rdiv; rewrite Rinv_r by assumption; exact Hthr.
  - repeat split; try lra.
    intros Hthr; rewrite Hpass.
    destruct (Reqb (total_voting_power r) 0); [reflexivity|].
    apply Rleb_false; rewrite H1; unfold Rdiv; lra.
Qed.

Lemma unanimous_rounds_witness :
  exists r g' agents',
    VotingSystem.conduct_vote linear_weighted biased_pair good_proposal
      half_rng = (Ok (r, g'), agents') /\
    yes_voting_power r = 0 /\
    no_voting_power r = total_voting_power r /\
    (0 < consensus_threshold linear_weighted -> passed r = false).
Proof.
  destruct biased_round as (r & g' & agents' & Hrun & _ & _ & Hvotes & _).
  exists r, g', agents'; split; [exact Hrun|].
  apply (unanimous_rounds _ _ _ _ _ _ _ Hrun).
  rewrite Hvotes; repeat constructor.
Defined.

Lemma uniform01_tail (g : rng) : uniform01 g -> uniform01 (snd (random g)).
Proof. intros Hg n; apply (Hg (S n)). Qed.

Lemma collect_all_sybil (m : GovernanceMechanism) (q : R)
    (agents : list Agent.t) :
  1 <= sybil_resistance m ->
  Forall (fun a => Agent.agent_type a = SYBIL) agents ->
  forall (vp : dict R) (vc : dict bool) (g : rng) vp' vc' g',
    uniform01 g ->
    Forall (fun v => v = 0) (values vp) ->
    VotingSystem.collect m agents q vp vc g = Ok (vp', vc', g') ->
    Forall (fun v => v = 0) (values vp').
Proof.
  intros Hres; induction 1 as [|a rest Ha _ IH];
    intros vp vc g vp' vc' g' Hg Hz; simpl.
  - intros [= <- _ _]; exact Hz.
  - unfold Agent.vote_on_proposal; rewrite Ha; simpl.
    assert (Hsv : exists v, Agent._sybil_vote q g = (v, g))
      by (unfold Agent._sybil_vote; destruct (_ && _); eauto).
    destruct Hsv as [v ->].
    destruct (VotingSystem.calculate_voting_power m a) as [power|e];
      simpl; [|discriminate].
    unfold VotingSystem.apply_sybil_resistance; rewrite Ha; simpl.
    assert (E : Rltb (g O) (sybil_resistance m) = true)
      by (apply Rltb_true; destruct (Hg O); lra).
    rewrite E; apply IH; [|apply values_set_Forall; auto].
    intros n; apply (Hg (S n)).
Qed.

Lemma tally_powerless (vp : dict R) (items : list (Z * bool)) :
  Forall (fun v => v = 0) (values vp) ->
  forall y n t y' n' t',
    VotingSystem.tally items vp y n t = Ok (y', n', t') ->
    y' = y /\ n' = n /\ t' = t.
Proof.
  intros Hz; induction items as [|[k vote] rest IH];
    intros y n t y' n' t'; simpl.
  - intros [= <- <- <-]; auto.
  - destruct (dict_get k vp) as [power|] eqn:Hget; [|discriminate].
    assert (Hp : power = 0).
    { eapply List.Forall_forall in Hz; [exact Hz|].
      eapply dict_get_values; exact Hget. }
    subst power; destruct vote; intros Hrun; apply IH in Hrun;
      destruct Hrun as (-> & -> & ->); repeat split; lra.
Qed.

(** X18: with a sybil resistance of at least 1 and draws in [0, 1), a
    round in which every agent is a sybil ends with no voting power at
    all, so the proposal fails whatever the votes and the threshold. *)
Theorem all_sybil_round_is_powerless (m : GovernanceMechanism)
    (agents : list Agent.t) (p : Proposal) (g : rng) (r : VoteResult)
    (g' : rng) (agents' : list Agent.t) :
  1 <= sybil_resistance m ->
  uniform01 g ->
  Forall (fun a => Agent.agent_type a = SYBIL) agents ->
  VotingSystem.conduct_vote m agents p g = (Ok (r, g'), agents') ->
  total_voting_power r = 0 /\ yes_voting_power r = 0 /\
  no_voting_power r = 0 /\ passed r = false.
Proof.
  intros Hres Hg Hall Hrun.
  destruct (conduct_vote_inv _ _ _ _ _ _ _ Hrun)
    as (vp & Hcol & Htal & Hpass & _).
  apply (collect_all_sybil m _ _ Hres Hall) in Hcol;
    [|assumption|constructor].
  assert (Hsum : Py.sum (values vp) = 0).
  { clear -Hcol; induction Hcol as [|x xs -> _ IH];
      [reflexivity | rewrite sum_cons; lra]. }
  unfold VotingSystem.apply_max_voting_power_cap in Htal.
  apply Reqb_true in Hsum; rewrite Hsum in Htal.
  destruct (tally_powerless _ _ Hcol _ _ _ _ _ _ Htal) as (Hy & Hn & Ht).
  repeat split; try assumption.
  rewrite Hpass, Ht.
  assert (E : Reqb 0 0 = true) by (apply Reqb_true; reflexivity).
  rewrite E; reflexivity.
Qed.

Lemma all_sybil_round_is_powerless_witness :
  exists r g' agents',
    VotingSystem.conduct_vote linear_weighted sybil_pair good_proposal
      half_rng = (Ok (r, g'), agents') /\
    total_voting_power r = 0 /\ yes_voting_power r = 0 /\
    no_voting_power r = 0 /\ passed r = false.
Proof.
  destruct sybil_round as (r & g' & agents' & Hrun & _).
  exists r, g', agents'; split; [exact Hrun|].
  apply (all_sybil_round_is_powerless linear_weighted sybil_pair
           good_proposal half_rng r g' agents');
    [simpl; lra | intros n; unfold half_rng; lra
     | repeat constructor | exact Hrun].
Defined.

(** ** Votes without an agent *)

Lemma slash_loop_needs_index (m : GovernanceMechanism) (by_id : dict nat)
    (good proposal_passed : bool) (items : list (Z * bool)) :
  forall store slashed l store',
    VotingSystem.slash_loop m by_id good proposal_passed items store slashed
      = (Ok l, store') ->
    forall k, In k (keys items) -> In k (keys by_id).
Proof.
  induction items as [|[k0 vote] rest IH]; intros store slashed l store';
    simpl; [intros _ k []|].
  destruct (dict_get k0 by_id) as [ix|] eqn:Hix; [|discriminate].
  destruct (store !! ix) as [agent|]; [|discriminate].
  intros Hrun k [<-|Hk]; [eapply dict_get_Some_keys; exact Hix|].
  destruct (_ || _);
    [destruct (VotingSystem.calculate_slash_amount m agent);
     [|discriminate]|];
    eapply IH; eauto.
Qed.

(** X19: called with slashing enabled and a vote under an id that no
    agent carries, [apply_slashing] does not return: it raises (the
    [KeyError] of the lookup, unless an earlier agent already raised). *)
Theorem slashing_unknown_voter_raises (m : GovernanceMechanism)
    (agents : list Agent.t) (votes : dict bool) (p : Proposal)
    (proposal_passed : bool) (k : Z) :
  slashing_method m <> "none" ->
  slashing_rate m <> 0 ->
  In k (keys votes) ->
  ~ In k (map Agent.agent_id agents) ->
  exists e,
    fst (VotingSystem.apply_slashing m agents votes p proposal_passed)
      = Raise e.
Proof.
  intros Hm Hr Hk Hnot; rewrite apply_slashing_enabled by assumption.
  destruct (VotingSystem.slash_loop m (VotingSystem.agents_by_id agents)
              (is_objectively_good p) proposal_passed votes agents [])
    as [[l|e] store] eqn:Hrun; [|simpl; eauto].
  exfalso; apply Hnot.
  apply (slash_loop_needs_index _ _ _ _ _ _ _ _ _ Hrun) in Hk.
  apply index_agents_keys in Hk; destruct Hk as [[]|Hk]; exact Hk.
Qed.

Lemma slashing_unknown_voter_raises_witness :
  exists e,
    fst (VotingSystem.apply_slashing linear_weighted biased_pair
           [(7%Z, true)] good_proposal false) = Raise e.
Proof.
  apply (slashing_unknown_voter_raises linear_weighted biased_pair
           [(7%Z, true)] good_proposal false 7%Z).
  - simpl; discriminate.
  - simpl; lra.
  - simpl; auto.
  - simpl; intros [H|[H|[]]]; discriminate.
Defined.

(** ** The factory and the attack populations *)

Lemma uniform_in_range (a b : R) (g : rng) :
  a <= b -> uniform01 g ->
  a <= fst (Random.uniform a b g) <= b /\
  uniform01 (snd (Random.uniform a b g)).
Proof.
  intros Hab Hg; unfold Random.uniform; simpl.
  destruct (Hg O) as [H0 H1].
  split; [split; nra | intros n; apply (Hg (S n))].
Qed.

Lemma factory_eta (factory : AgentFactory.t) :
  factory = {| AgentFactory.agent_counter :=
                 (AgentFactory.agent_counter factory + 0)%Z |}.
Proof. destruct factory; simpl; f_equal; lia. Qed.

Ltac creator_spec :=
  intros factory g; eexists; eexists;
  split; [reflexivity|]; split; [reflexivity|]; split; [reflexivity|];
  intros Hg; unfold fresh_agent, stake_in_range; simpl.

Lemma creates_honest : creates AgentFactory.create_honest_agent HONEST.
Proof.
  creator_spec.
  destruct (Hg O) as [H0 H1]; destruct (Hg 1%nat) as [H2 H3].
  split; [intros n; apply (Hg (S (S n)))|].
  repeat split; try nra.
Qed.

Lemma creates_collusion :
  creates AgentFactory.create_collusion_agent COLLUSION.
Proof.
  creator_spec; destruct (Hg O) as [H0 H1].
  split; [intros n; apply (Hg (S n))|].
  repeat split; try nra; discriminate.
Qed.

Lemma creates_whale : creates AgentFactory.create_whale_agent WHALE.
Proof.
  creator_spec; destruct (Hg O) as [H0 H1].
  split; [intros n; apply (Hg (S n))|].
  repeat split; try nra; discriminate.
Qed.

Lemma creates_sybil : creates AgentFactory.create_sybil_agent SYBIL.
Proof.
  creator_spec; split; [exact Hg|].
  repeat split; discriminate.
Qed.

Lemma creates_emotional :
  creates AgentFactory.create_emotional_bias_agent EMOTIONAL_BIAS.
Proof.
  creator_spec; destruct (Hg O) as [H0 H1].
  split; [intros n; apply (Hg (S n))|].
  repeat split; try nra; discriminate.
Qed.

Lemma creates_systematic :
  creates AgentFactory.create_systematic_bias_agent SYSTEMATIC_BIAS.
Proof.
  creator_spec; destruct (Hg O) as [H0 H1].
  split; [intros n; apply (Hg (S n))|].
  repeat split; try nra; discriminate.
Qed.

Lemma ids_after_succ (c : Z) (n : nat) :
  ids_after c (S n) = (c + 1)%Z :: ids_after (c + 1) n.
Proof.
  unfold ids_after; simpl; f_equal; [lia|].
  rewrite <- seq_shift, map_map; apply map_ext; intros j; lia.
Qed.

Lemma append_created_spec (create : AttackScenarioGenerator.creator)
    (ty : AgentType) :
  creates create ty ->
  forall n agents factory g,
    exists new g',
      AttackScenarioGenerator.append_created create n agents factory g
        = ((agents ++ new)%list,
           {| AgentFactory.agent_counter :=
                (AgentFactory.agent_counter factory + Z.of_nat n)%Z |},
           g') /\
      map Agent.agent_id new
        = ids_after (AgentFactory.agent_counter factory) n /\
      map Agent.agent_type new = List.repeat ty n /\
      (uniform01 g -> uniform01 g' /\ Forall fresh_agent new).
Proof.
  intros Hc; induction n as [|n IH]; intros agents factory g.
  - exists [], g; simpl; rewrite app_nil_r, <- factory_eta; auto.
  - destruct (Hc factory g) as (a & g1 & Hcreate & Hid & Hty & Hfresh).
    cbn [AttackScenarioGenerator.append_created]; rewrite Hcreate.
    destruct (IH (agents ++ [a])%list
                {| AgentFactory.agent_counter :=
                     (AgentFactory.agent_counter factory + 1)%Z |} g1)
      as (new & g' & Hrun & Hids & Htys & Hrest).
    exists (a :: new), g'; rewrite Hrun, <- app_assoc.
    change ([a] ++ new)%list with (a :: new).
    cbn [AgentFactory.agent_counter] in *.
    split; [f_equal; f_equal; f_equal; lia|].
    split; [cbn [map]; rewrite ids_after_succ, Hid, Hids; reflexivity|].
    split; [cbn [map List.repeat]; rewrite Hty, Htys; reflexivity|].
    intros Hg; destruct (Hfresh Hg) as [Hg1 Ha].
    destruct (Hrest Hg1); auto.
Qed.

Lemma ids_after_app (c : Z) (n k : nat) :
  ids_after c (n + k)
  = (ids_after c n ++ ids_after (c + Z.of_nat n) k)%list.
Proof.
  revert c; induction n as [|n IH]; intros c.
  - simpl; f_equal; lia.
  - change (S n + k)%nat with (S (n + k)).
    rewrite !ids_after_succ, IH; simpl; do 3 f_equal; lia.
Qed.

Lemma ids_after_bounds (c : Z) (n : nat) (k : Z) :
  In k (ids_after c n) -> (c < k <= c + Z.of_nat n)%Z.
Proof.
  unfold ids_after; intros Hin; apply in_map_iff in Hin.
  destruct Hin as (j & <- & Hj); apply in_seq in Hj; lia.
Qed.

Lemma ids_after_NoDup (c : Z) (n : nat) : List.NoDup (ids_after c n).
Proof.
  revert c; induction n as [|n IH]; intros c; [constructor|].
  rewrite ids_after_succ; constructor; [|apply IH].
  intros Hin; apply ids_after_bounds in Hin; lia.
Qed.

Lemma fresh_agent_well_formed (a : Agent.t) : fresh_agent a -> well_formed a.
Proof.
  unfold fresh_agent, well_formed, stake_in_range.
  intros (_ & -> & Hstake & Hthr); split.
  - destruct (Agent.agent_type a); lra.
  - intros Hty; destruct (Agent.honesty_threshold a) as [x|];
      [exists x; split; [reflexivity | lra] | contradiction].
Qed.

Ltac step_created H l g' Hi Ht Hf :=
  cbv beta iota;
  match goal with
  | |- context [AttackScenarioGenerator.append_created ?c ?n ?a ?f ?g] =>
      destruct (append_created_spec c _ H n a f g)
        as (l & g' & -> & Hi & Ht & Hf)
  end.

Lemma generate_scenario_spec (attack_type : AttackType.t)
    (factory : AgentFactory.t) (g : rng) :
  exists agents g',
    SimulationEngine.generate_scenario attack_type factory g
      = (agents,
         {| AgentFactory.agent_counter :=
              (AgentFactory.agent_counter factory + 50)%Z |}, g') /\
    map Agent.agent_id agents
      = ids_after (AgentFactory.agent_counter factory) 50 /\
    map Agent.agent_type agents = composition attack_type /\
    (uniform01 g -> uniform01 g' /\ Forall fresh_agent agents).
Proof.
  destruct attack_type;
    unfold SimulationEngine.generate_scenario,
      AttackScenarioGenerator.generate_collusion_scenario,
      AttackScenarioGenerator.generate_whale_scenario,
      AttackScenarioGenerator.generate_sybil_scenario,
      AttackScenarioGenerator.generate_bias_scenario.
  - step_created creates_collusion l1 g1 Hi1 Ht1 Hf1.
    step_created creates_honest l2 g2 Hi2 Ht2 Hf2.
    exists (l1 ++ l2)%list, g2; cbn [AgentFactory.agent_counter app] in *.
    split; [do 3 f_equal; lia|].
    rewrite !map_app, Hi1, Hi2, Ht1, Ht2.
    split; [symmetry; apply (ids_after_app _ 8 42)|].
    split; [reflexivity|].
    intros Hg; destruct (Hf1 Hg) as [Hg1 H1]; destruct (Hf2 Hg1) as [Hg2 H2].
    split; [exact Hg2 | apply Forall_app; auto].
  - step_created creates_whale l1 g1 Hi1 Ht1 Hf1.
    step_created creates_honest l2 g2 Hi2 Ht2 Hf2.
    exists (l1 ++ l2)%list, g2; cbn [AgentFactory.agent_counter app] in *.
    split; [do 3 f_equal; lia|].
    rewrite !map_app, Hi1, Hi2, Ht1, Ht2.
    split; [symmetry; apply (ids_after_app _ 4 46)|].
    split; [reflexivity|].
    intros Hg; destruct (Hf1 Hg) as [Hg1 H1]; destruct (Hf2 Hg1) as [Hg2 H2].
    split; [exact Hg2 | apply Forall_app; auto].
  - step_created creates_sybil l1 g1 Hi1 Ht1 Hf1.
    step_created creates_honest l2 g2 Hi2 Ht2 Hf2.
    exists (l1 ++ l2)%list, g2; cbn [AgentFactory.agent_counter app] in *.
    split; [do 3 f_equal; lia|].
    rewrite !map_app, Hi1, Hi2, Ht1, Ht2.
    split; [symmetry; apply (ids_after_app _ 10 40)|].
    split; [reflexivity|].
    intros Hg; destruct (Hf1 Hg) as [Hg1 H1]; destruct (Hf2 Hg1) as [Hg2 H2].
    split; [exact Hg2 | apply Forall_app; auto].
  - step_created creates_emotional l1 g1 Hi1 Ht1 Hf1.
    step_created creates_systematic l2 g2 Hi2 Ht2 Hf2.
    step_created creates_honest l3 g3 Hi3 Ht3 Hf3.
    exists (l1 ++ l2 ++ l3)%list, g3;
      cbn [AgentFactory.agent_counter app] in *.
    split; [rewrite <- app_assoc; do 3 f_equal; lia|].
    rewrite !map_app, Hi1, Hi2, Hi3, Ht1, Ht2, Ht3.
    split.
    + symmetry; etransitivity; [apply (ids_after_app _ 5 45)|].
      f_equal; etransitivity; [apply (ids_after_app _ 5 40)|].
      do 2 f_equal; lia.
    + split; [reflexivity|].
      intros Hg; destruct (Hf1 Hg) as [Hg1 H1];
        destruct (Hf2 Hg1) as [Hg2 H2]; destruct (Hf3 Hg2) as [Hg3 H3].
      split; [exact Hg3|].
      apply Forall_app; split; [assumption|].
      apply Forall_app; split; assumption.
Qed.

(** X20: every attack scenario builds 50 agents in a fixed order of
    types: 8 colluding then 42 honest; 4 whales then 46 honest; 10 sybils
    then 40 honest; 5 emotionally then 5 systematically biased then 40
    honest. *)
Theorem scenario_composition (attack_type : AttackType.t)
    (factory : AgentFactory.t) (g : rng) :
  let agents :=
    fst (fst (SimulationEngine.generate_scenario attack_type factory g)) in
  map Agent.agent_type agents = composition attack_type /\
  length agents = 50%nat.
Proof.
  destruct (generate_scenario_spec attack_type factory g)
    as (agents & g' & -> & Hids & Htys & _); cbn [fst snd].
  split; [exact Htys|].
  rewrite <- (length_map Agent.agent_type), Htys.
  destruct attack_type; reflexivity.
Qed.

(** X21: a scenario built by a factory whose counter is [c] gives its 50
    agents the ids [c + 1, ..., c + 50] in order, all distinct, and
    leaves the counter at [c + 50]: the next scenario of the same
    generator shares no id with it. *)
Theorem scenario_ids_are_fresh (attack_type : AttackType.t)
    (factory : AgentFactory.t) (g : rng) :
  let built := SimulationEngine.generate_scenario attack_type factory g in
  let ids := map Agent.agent_id (fst (fst built)) in
  let c := AgentFactory.agent_counter factory in
  ids = ids_after c 50 /\
  List.NoDup ids /\
  AgentFactory.agent_counter (snd (fst built)) = (c + 50)%Z /\
  forall (next_type : AttackType.t) (g2 : rng) (k : Z),
    In k ids ->
    ~ In k (map Agent.agent_id
              (fst (fst (SimulationEngine.generate_scenario next_type
                           (snd (fst built)) g2)))).
Proof.
  destruct (generate_scenario_spec attack_type factory g)
    as (agents & g' & -> & Hids & _); cbn [fst snd].
  rewrite Hids; split; [reflexivity|]; split; [apply ids_after_NoDup|].
  split; [reflexivity|].
  intros next_type g2 k Hk.
  destruct (generate_scenario_spec next_type
              {| AgentFactory.agent_counter :=
                   (AgentFactory.agent_counter factory + 50)%Z |} g2)
    as (agents2 & g2' & -> & Hids2 & _); cbn [fst snd].
  rewrite Hids2; cbn [AgentFactory.agent_counter]; intros Hk2.
  apply ids_after_bounds in Hk, Hk2; lia.
Qed.

(** X22: on draws in [0, 1), every agent of every scenario is fresh: not
    slashed, its stake equal to its original stake and within [5, 10]
    (exactly 1 for a sybil, within [50, 200] for a whale), with a
    threshold in [0.4, 0.8] exactly when honest; so it is well formed,
    and the generator is left with draws in [0, 1).  The ranges include
    their upper ends, which [random.uniform] reaches on floats
    ([uniform_reaches_upper_end]). *)
Theorem scenario_agents_are_fresh (attack_type : AttackType.t)
    (factory : AgentFactory.t) (g : rng) :
  uniform01 g ->
  let built := SimulationEngine.generate_scenario attack_type factory g in
  Forall fresh_agent (fst (fst built)) /\
  Forall well_formed (fst (fst built)) /\
  uniform01 (snd built).
Proof.
  intros Hg.
  destruct (generate_scenario_spec attack_type factory g)
    as (agents & g' & -> & _ & _ & Hfresh); cbn [fst snd].
  destruct (Hfresh Hg) as [Hg' Hall].
  split; [exact Hall|]; split; [|exact Hg'].
  eapply Forall_impl; [exact Hall | apply fresh_agent_well_formed].
Qed.

Lemma scenario_agents_are_fresh_witness :
  Forall well_formed
    (fst (fst (SimulationEngine.generate_scenario AttackType.WHALE
                 AgentFactory.init half_rng))).
Proof.
  apply (scenario_agents_are_fresh AttackType.WHALE AgentFactory.init
           half_rng).
  intros n; unfold half_rng; lra.
Defined.

(** ** The engine: proposals, rounds, scenarios *)

Lemma continues_refl (g : rng) : continues g g.
Proof. exists O; reflexivity. Qed.

Lemma continues_tail (g : rng) : continues g (snd (random g)).
Proof. exists 1%nat; reflexivity. Qed.

Lemma continues_trans (g1 g2 g3 : rng) :
  continues g1 g2 -> continues g2 g3 -> continues g1 g3.
Proof.
  intros [k Hk] [j Hj]; exists (k + j)%nat; intros n.
  rewrite Hj, Hk; f_equal; lia.
Qed.

Lemma continues_uniform (g g' : rng) :
  continues g g' -> uniform01 g -> uniform01 g'.
Proof. intros [k Hk] Hg n; rewrite Hk; apply Hg. Qed.

Lemma vote_continues (a : Agent.t) (q : R) (g : rng) (v : bool) (g' : rng) :
  Agent.vote_on_proposal a q g = Ok (v, g') -> continues g g'.
Proof.
  unfold Agent.vote_on_proposal, Agent._honest_vote, Agent._whale_vote,
    Agent._collusion_vote, Agent._sybil_vote, Agent._emotional_bias_vote,
    Agent._systematic_bias_vote, fdiv.
  destruct (Agent.agent_type a); [destruct (Agent.honesty_threshold a)|..];
    simpl; repeat (float_cases; simpl); try discriminate;
    intros [= _ <-]; (apply continues_refl || apply continues_tail).
Qed.

Lemma sybil_resistance_continues (m : GovernanceMechanism) (a : Agent.t)
    (power : R) (g : rng) :
  continues g (snd (VotingSystem.apply_sybil_resistance m a power g)).
Proof.
  unfold VotingSystem.apply_sybil_resistance.
  destruct (Agent.agent_type a); simpl; float_cases; simpl;
    (apply continues_refl || apply continues_tail).
Qed.

Lemma collect_continues (m : GovernanceMechanism) (q : R)
    (agents : list Agent.t) :
  forall (vp : dict R) (vc : dict bool) (g : rng) vp' vc' g',
    VotingSystem.collect m agents q vp vc g = Ok (vp', vc', g') ->
    continues g g'.
Proof.
  induction agents as [|a rest IH]; intros vp vc g vp' vc' g'; simpl.
  - intros [= _ _ <-]; apply continues_refl.
  - destruct (Agent.vote_on_proposal a q g) as [[vote g1]|e] eqn:Hv; simpl;
      [|discriminate].
    destruct (VotingSystem.calculate_voting_power m a) as [power|e];
      simpl; [|discriminate].
    pose proof (sybil_resistance_continues m a power g1) as Hs.
    destruct (VotingSystem.apply_sybil_resistance m a power g1)
      as [power' g2].
    intros Hrun; apply IH in Hrun.
    eapply continues_trans; [eapply vote_continues; exact Hv|].
    eapply continues_trans; [exact Hs | exact Hrun].
Qed.

Lemma conduct_vote_continues (m : GovernanceMechanism)
    (agents : list Agent.t) (p : Proposal) (g : rng) (r : VoteResult)
    (g' : rng) (agents' : list Agent.t) :
  VotingSystem.conduct_vote m agents p g = (Ok (r, g'), agents') ->
  continues g g'.
Proof.
  intros Hrun.
  destruct (conduct_vote_inv _ _ _ _ _ _ _ Hrun) as (vp & Hcol & _).
  eapply collect_continues; exact Hcol.
Qed.

Lemma well_formed_frame (a a' : Agent.t) :
  same_but_slashed a a' -> well_formed a -> well_formed a'.
Proof.
  unfold same_but_slashed, well_formed.
  intros (_ & -> & _ & -> & ->); auto.
Qed.

Lemma well_formed_frame_all (agents agents' : list Agent.t) :
  Forall2 same_but_slashed agents agents' ->
  Forall well_formed agents -> Forall well_formed agents'.
Proof.
  induction 1 as [|a a' l l' Ha _ IH]; intros Hwf; [constructor|].
  inversion Hwf; subst; constructor; [eapply well_formed_frame; eauto|].
  apply IH; assumption.
Qed.

Lemma generate_proposal_spec (self : SimulationEngine.t) (g : rng) :
  exists p g',
    SimulationEngine.generate_proposal self g
      = (p,
         {| SimulationEngine.scenario_generator :=
              SimulationEngine.scenario_generator self;
            SimulationEngine.proposal_counter :=
              (SimulationEngine.proposal_counter self + 1)%Z |}, g') /\
    proposal_id p = (SimulationEngine.proposal_counter self + 1)%Z /\
    g' = snd (random (snd (random g))) /\
    (uniform01 g ->
     0 <= quality p < 1 /\
     (g O < 0.3 -> 0.4 <= quality p <= 0.6) /\
     (0.3 <= g O -> quality p = g 1%nat)).
Proof.
  unfold SimulationEngine.generate_proposal, Random.uniform; simpl.
  destruct (Rltb (g O) 0.3) eqn:E; simpl;
    [apply Rltb_true in E | apply Rltb_false in E];
    eexists; eexists; (split; [reflexivity|]);
    (split; [reflexivity|]); (split; [reflexivity|]);
    intros Hg; destruct (Hg 1%nat) as [H0 H1]; simpl;
    repeat split; intros; try lra.
Qed.

(** X23: [generate_proposal] numbers the proposal with the next value of
    the counter and takes exactly two draws; on draws in [0, 1) the
    quality lies in [0, 1), and in [0.4, 0.6], both ends included, when
    the first draw is below 0.3. *)
Theorem generate_proposal_in_range (self : SimulationEngine.t) (g : rng) :
  uniform01 g ->
  let '(p, self', g') := SimulationEngine.generate_proposal self g in
  proposal_id p = (SimulationEngine.proposal_counter self + 1)%Z /\
  SimulationEngine.proposal_counter self' = proposal_id p /\
  SimulationEngine.scenario_generator self'
    = SimulationEngine.scenario_generator self /\
  g' = snd (random (snd (random g))) /\
  0 <= quality p < 1 /\
  (g O < 0.3 -> 0.4 <= quality p <= 0.6).
Proof.
  intros Hg.
  destruct (generate_proposal_spec self g)
    as (p & g' & -> & Hid & Hg' & Hq).
  destruct (Hq Hg) as (Hrange & Hnear & _); simpl.
  rewrite Hid; split; [reflexivity|]; split; [reflexivity|].
  split; [reflexivity|]; split; [exact Hg'|]; split; assumption.
Qed.

Lemma generate_proposal_in_range_witness :
  let '(p, self', g') :=
    SimulationEngine.generate_proposal SimulationEngine.init half_rng in
  proposal_id p = 1%Z /\ 0 <= quality p < 1.
Proof.
  pose proof (generate_proposal_in_range SimulationEngine.init half_rng)
    as H.
  destruct (SimulationEngine.generate_proposal SimulationEngine.init half_rng)
    as [[p self'] g'].
  destruct H as (Hid & _ & _ & _ & Hq & _);
    [intros n; unfold half_rng; lra|].
  split; [exact Hid | exact Hq].
Defined.

Lemma engine_eta (self : SimulationEngine.t) :
  self = {| SimulationEngine.scenario_generator :=
              SimulationEngine.scenario_generator self;
            SimulationEngine.proposal_counter :=
              (SimulationEngine.proposal_counter self + 0)%Z |}.
Proof. destruct self; simpl; f_equal; lia. Qed.

Lemma run_rounds_spec (m : GovernanceMechanism) :
  recognized_stake_method (stake_method m) ->
  recognized_voting_method (voting_method m) ->
  forall rounds agents results self g,
    Forall well_formed agents ->
    exists new self' g' agents',
      SimulationEngine.run_rounds m rounds agents results self g
        = (Ok ((results ++ new)%list, self', g'), agents') /\
      length new = rounds /\
      Forall2 same_but_slashed agents agents' /\
      self' = {| SimulationEngine.scenario_generator :=
                   SimulationEngine.scenario_generator self;
                 SimulationEngine.proposal_counter :=
                   (SimulationEngine.proposal_counter self
                    + Z.of_nat rounds)%Z |} /\
      map (fun r => proposal_id (proposal r)) new
        = ids_after (SimulationEngine.proposal_counter self) rounds /\
      continues g g' /\
      (uniform01 g ->
       Forall (fun r => 0 <= quality (proposal r) < 1) new).
Proof.
  intros Hs Hv; induction rounds as [|rounds IH];
    intros agents results self g Hwf.
  - exists [], self, g, agents; simpl; rewrite app_nil_r.
    repeat split; try apply engine_eta; try apply continues_refl;
      try constructor.
    apply Forall_Forall2_diag, Forall_forall.
    intros; apply same_but_slashed_refl.
  - destruct (generate_proposal_spec self g)
      as (p & g1 & Hgen & Hid & Hg1 & Hq).
    destruct (conduct_vote_returns m agents p g1 Hs Hv Hwf)
      as (r & g2 & agents1 & Hrun).
    pose proof (conduct_vote_frame _ _ _ _ _ _ Hrun) as Hframe.
    pose proof (conduct_vote_continues _ _ _ _ _ _ _ Hrun) as Hcont.
    destruct (conduct_vote_inv _ _ _ _ _ _ _ Hrun)
      as (_ & _ & _ & _ & Hp & _).
    destruct (IH agents1 (results ++ [r])%list
                {| SimulationEngine.scenario_generator :=
                     SimulationEngine.scenario_generator self;
                   SimulationEngine.proposal_counter :=
                     (SimulationEngine.proposal_counter self + 1)%Z |} g2
                (well_formed_frame_all _ _ Hframe Hwf))
      as (new & self' & g' & agents' & Hrest & Hlen & Hframe' & Hself
          & Hids & Hcont' & Hqs).
    exists (r :: new), self', g', agents'.
    cbn [SimulationEngine.run_rounds]; rewrite Hgen, Hrun, Hrest.
    rewrite <- app_assoc; change ([r] ++ new)%list with (r :: new).
    cbn [SimulationEngine.scenario_generator
           SimulationEngine.proposal_counter] in *.
    assert (Hg1c : continues g g1).
    { rewrite Hg1; eapply continues_trans; apply continues_tail. }
    split; [reflexivity|].
    split; [cbn [length]; rewrite Hlen; reflexivity|].
    split.
    { eapply Forall2_trans; [apply same_but_slashed_trans| |exact Hframe'].
      exact Hframe. }
    split; [rewrite Hself; f_equal; lia|].
    split; [cbn [map]; rewrite ids_after_succ, Hp, Hid, Hids; reflexivity|].
    split.
    { eapply continues_trans; [exact Hg1c|].
      eapply continues_trans; [exact Hcont | exact Hcont']. }
    intros Hg; constructor.
    + rewrite Hp; apply (Hq Hg).
    + apply Hqs.
      eapply continues_uniform; [exact Hcont|].
      eapply continues_uniform; [exact Hg1c | exact Hg].
Qed.

(** X24: under a recognized stake method and voting method, an attack
    instance on well-formed agents never raises: it returns one result
    per round, on proposals numbered consecutively from the engine's
    counter, each of quality in [0, 1) on draws in [0, 1), and the agents
    come out with nothing changed but [amount_slashed]. *)
Theorem attack_instance_returns (m : GovernanceMechanism)
    (attack_type : AttackType.t) (agents : list Agent.t) (rounds : nat)
    (self : SimulationEngine.t) (g : rng) :
  recognized_stake_method (stake_method m) ->
  recognized_voting_method (voting_method m) ->
  Forall well_formed agents ->
  exists results self' g' agents',
    SimulationEngine.run_attack_instance m attack_type agents rounds self g
      = (Ok (results, self', g'), agents') /\
    length results = rounds /\
    map (fun r => proposal_id (proposal r)) results
      = ids_after (SimulationEngine.proposal_counter self) rounds /\
    SimulationEngine.proposal_counter self'
      = (SimulationEngine.proposal_counter self + Z.of_nat rounds)%Z /\
    Forall2 same_but_slashed agents agents' /\
    (uniform01 g ->
     uniform01 g' /\
     Forall (fun r => 0 <= quality (proposal r) < 1) results).
Proof.
  intros Hs Hv Hwf.
  destruct (run_rounds_spec m Hs Hv rounds agents [] self g Hwf)
    as (new & self' & g' & agents' & Hrun & Hlen & Hframe & Hself & Hids
        & Hcont & Hq).
  exists new, self', g', agents'.
  unfold SimulationEngine.run_attack_instance; rewrite Hrun.
  split; [reflexivity|]; split; [exact Hlen|]; split; [exact Hids|].
  split; [rewrite Hself; reflexivity|]; split; [exact Hframe|].
  intros Hg; split; [eapply continues_uniform; eauto | apply Hq, Hg].
Qed.

Lemma biased_pair_well_formed : Forall well_formed biased_pair.
Proof.
  repeat constructor; simpl; try lra; discriminate.
Qed.

Lemma attack_instance_returns_witness :
  exists results self' g' agents',
    SimulationEngine.run_attack_instance linear_weighted AttackType.BIAS
      biased_pair 20 SimulationEngine.init half_rng
      = (Ok (results, self', g'), agents') /\
    length results = 20%nat.
Proof.
  destruct (attack_instance_returns linear_weighted AttackType.BIAS
              biased_pair 20 SimulationEngine.init half_rng)
    as (results & self' & g' & agents' & Hrun & Hlen & _).
  - right; left; reflexivity.
  - right; left; reflexivity.
  - exact biased_pair_well_formed.
  - exists results, self', g', agents'; auto.
Defined.

Lemma count_outcomes_spec (results : list VoteResult) :
  forall total_correct total_votes,
    SimulationEngine.count_outcomes results total_correct total_votes
    = ((total_correct
        + Z.of_nat (length (List.filter correct_outcome results)))%Z,
       (total_votes + Z.of_nat (length results))%Z).
Proof.
  unfold SimulationEngine.count_outcomes.
  induction results as [|r rest IH]; intros tc tv; simpl.
  - f_equal; lia.
  - destruct (correct_outcome r); rewrite IH; simpl; f_equal; lia.
Qed.

Lemma filter_length_bound {A : Type} (f : A -> bool) (l : list A) :
  (length (List.filter f l) <= length l)%nat.
Proof.
  induction l as [|x l IH]; simpl; [lia|].
  destruct (f x); simpl; lia.
Qed.

Lemma run_instances_spec (m : GovernanceMechanism)
    (attack_type : AttackType.t) (rounds : nat) :
  recognized_stake_method (stake_method m) ->
  recognized_voting_method (voting_method m) ->
  forall instances total_correct total_votes self g,
    uniform01 g ->
    exists correct' votes' self' g',
      SimulationEngine.run_instances m attack_type instances rounds
        total_correct total_votes self g
        = Ok (correct', votes', self', g') /\
      votes' = (total_votes + Z.of_nat instances * Z.of_nat rounds)%Z /\
      (total_correct <= correct'
       <= total_correct + Z.of_nat instances * Z.of_nat rounds)%Z /\
      AgentFactory.agent_counter (SimulationEngine.scenario_generator self')
        = (AgentFactory.agent_counter
             (SimulationEngine.scenario_generator self)
           + 50 * Z.of_nat instances)%Z /\
      SimulationEngine.proposal_counter self'
        = (SimulationEngine.proposal_counter self
           + Z.of_nat instances * Z.of_nat rounds)%Z /\
      uniform01 g'.
Proof.
  intros Hs Hv; induction instances as [|instances IH];
    intros tc tv self g Hg.
  - exists tc, tv, self, g; simpl; repeat split; try lia; apply Hg.
  - destruct (generate_scenario_spec attack_type
                (SimulationEngine.scenario_generator self) g)
      as (agents & g1 & Hgen & _ & _ & Hfresh).
    destruct (Hfresh Hg) as [Hg1 Hall].
    assert (Hwf : Forall well_formed agents)
      by (eapply Forall_impl; [exact Hall | apply fresh_agent_well_formed]).
    destruct (run_rounds_spec m Hs Hv rounds agents []
                {| SimulationEngine.scenario_generator :=
                     {| AgentFactory.agent_counter :=
                          (AgentFactory.agent_counter
                             (SimulationEngine.scenario_generator self)
                           + 50)%Z |};
                   SimulationEngine.proposal_counter :=
                     SimulationEngine.proposal_counter self |} g1 Hwf)
      as (new & self2 & g2 & agents' & Hrun & Hlen & _ & Hself & _
          & Hcont & _).
    pose proof (continues_uniform _ _ Hcont Hg1) as Hg2.
    pose proof (filter_length_bound correct_outcome new) as Hle.
    destruct (IH (tc + Z.of_nat (length (List.filter correct_outcome new)))%Z
                (tv + Z.of_nat (length new))%Z self2 g2 Hg2)
      as (tc' & tv' & self' & g' & Hrest & Hvotes & Hcorrect & Hfc & Hpc
          & Hg').
    exists tc', tv', self', g'.
    cbn [SimulationEngine.run_instances]; rewrite Hgen.
    unfold SimulationEngine.run_attack_instance; rewrite Hrun.
    cbn [app]; rewrite count_outcomes_spec, Hrest.
    rewrite Hself in Hfc, Hpc.
    cbn [SimulationEngine.scenario_generator
           SimulationEngine.proposal_counter
           AgentFactory.agent_counter] in *.
    repeat split; try assumption; try lia; try apply Hg'.
Qed.

(** X25: under a recognized stake method and voting method and on draws
    in [0, 1), [run_attack_scenario] never raises, whatever the attack
    type: it counts exactly [instances * rounds_per_instance] votes (600
    for 30 instances of 20 rounds), between 0 and that many correct
    outcomes, and a success rate of correct over total that lies in
    [0, 1], taken as 0 when no vote was held. *)
Theorem attack_scenario_counts (m : GovernanceMechanism)
    (kind : AttackType.t) (instances rounds : nat)
    (self : SimulationEngine.t) (g : rng) :
  recognized_stake_method (stake_method m) ->
  recognized_voting_method (voting_method m) ->
  uniform01 g ->
  exists res self' g',
    SimulationEngine.run_attack_scenario m kind instances rounds
      self g = Ok (res, self', g') /\
    attack_type res = kind /\
    mechanism res = m /\
    total_votes res = (Z.of_nat instances * Z.of_nat rounds)%Z /\
    (0 <= correct_outcomes res <= total_votes res)%Z /\
    success_rate res
      = (if (0 <? total_votes res)%Z
         then IZR (correct_outcomes res) / IZR (total_votes res) else 0) /\
    0 <= success_rate res <= 1 /\
    uniform01 g'.
Proof.
  intros Hs Hv Hg.
  destruct (run_instances_spec m kind rounds Hs Hv instances
              0%Z 0%Z self g Hg)
    as (tc & tv & self' & g' & Hrun & Hvotes & Hcorrect & _ & _ & Hg').
  unfold SimulationEngine.run_attack_scenario; rewrite Hrun; simpl.
  eexists; exists self', g'; split; [reflexivity|]; simpl.
  repeat split; try lia; try apply Hg'.
  - destruct (Z.ltb_spec 0 tv) as [Hpos|Hzero]; [|lra].
    apply Rmult_le_pos; [apply IZR_le; lia|].
    left; apply Rinv_0_lt_compat, IZR_lt; exact Hpos.
  - destruct (Z.ltb_spec 0 tv) as [Hpos|Hzero]; [|lra].
    assert (Ht : 0 < IZR tv) by (apply IZR_lt; exact Hpos).
    assert (Hc : IZR tc <= IZR tv) by (apply IZR_le; lia).
    assert (Hi : 0 < / IZR tv) by (apply Rinv_0_lt_compat; exact Ht).
    assert (Hone : IZR tv * / IZR tv = 1) by (apply Rinv_r; lra).
    unfold Rdiv; nra.
Qed.

Lemma half_rng_uniform : uniform01 half_rng.
Proof. intros n; unfold half_rng; lra. Qed.

Lemma attack_scenario_counts_witness :
  exists res self' g',
    SimulationEngine.run_attack_scenario linear_weighted AttackType.SYBIL
      30 20 SimulationEngine.init half_rng = Ok (res, self', g') /\
    total_votes res = 600%Z /\
    0 <= success_rate res <= 1.
Proof.
  destruct (attack_scenario_counts linear_weighted AttackType.SYBIL 30 20
              SimulationEngine.init half_rng)
    as (res & self' & g' & Hrun & _ & _ & Hvotes & _ & _ & Hrate & _).
  - right; left; reflexivity.
  - right; left; reflexivity.
  - exact half_rng_uniform.
  - exists res, self', g'; repeat split; try assumption; apply Hrate.
Defined.

Lemma default_scenario_spec (m : GovernanceMechanism) (kind : AttackType.t)
    (self : SimulationEngine.t) (g : rng) :
  recognized_stake_method (stake_method m) ->
  recognized_voting_method (voting_method m) ->
  uniform01 g ->
  exists res self' g',
    SimulationEngine.run_attack_scenario m kind 30 20 self g
      = Ok (res, self', g') /\
    attack_type res = kind /\ mechanism res = m /\
    total_votes res = 600%Z /\ uniform01 g'.
Proof.
  intros Hs Hv Hg.
  destruct (run_instances_spec m kind 20 Hs Hv 30 0%Z 0%Z self g Hg)
    as (tc & tv & self' & g' & Hrun & Hvotes & _ & _ & _ & Hg').
  unfold SimulationEngine.run_attack_scenario; rewrite Hrun; simpl.
  eexists; exists self', g'; split; [reflexivity|]; simpl.
  repeat split; try apply Hg'; lia.
Qed.

Lemma run_attack_types_spec (m : GovernanceMechanism) :
  recognized_stake_method (stake_method m) ->
  recognized_voting_method (voting_method m) ->
  forall kinds results self g,
    uniform01 g ->
    exists new self' g',
      SimulationEngine.run_attack_types m kinds results self g
        = Ok ((results ++ new)%list, self', g') /\
      map fst new = kinds /\
      Forall (fun tr => attack_type (snd tr) = fst tr
                        /\ mechanism (snd tr) = m
                        /\ total_votes (snd tr) = 600%Z) new /\
      uniform01 g'.
Proof.
  intros Hs Hv; induction kinds as [|kind rest IH];
    intros results self g Hg.
  - exists [], self, g; simpl; rewrite app_nil_r; auto.
  - destruct (default_scenario_spec m kind self g Hs Hv Hg)
      as (res & self1 & g1 & Hrun & Hk & Hm & Hvotes & Hg1).
    destruct (IH (results ++ [(kind, res)])%list self1 g1 Hg1)
      as (new & self' & g' & Hrest & Hkinds & Hall & Hg').
    exists ((kind, res) :: new), self', g'.
    cbn [SimulationEngine.run_attack_types]; rewrite Hrun; simpl.
    rewrite Hrest, <- app_assoc; simpl.
    repeat split; try (f_equal; assumption); try apply Hg'.
    constructor; [simpl; auto | exact Hall].
Qed.

(** X26: under a recognized stake method and voting method and on draws
    in [0, 1), [run_full_mechanism_test] never raises: it returns one
    result per attack type, in the order collusion, whale, sybil, bias,
    each filed under its own type and mechanism with exactly 600 votes,
    2400 in all. *)
Theorem full_mechanism_test_counts (m : GovernanceMechanism)
    (self : SimulationEngine.t) (g : rng) :
  recognized_stake_method (stake_method m) ->
  recognized_voting_method (voting_method m) ->
  uniform01 g ->
  exists results self' g',
    SimulationEngine.run_full_mechanism_test m self g
      = Ok (results, self', g') /\
    map fst results = [AttackType.COLLUSION; AttackType.WHALE;
                       AttackType.SYBIL; AttackType.BIAS] /\
    Forall (fun tr => attack_type (snd tr) = fst tr
                      /\ mechanism (snd tr) = m
                      /\ total_votes (snd tr) = 600%Z) results /\
    fold_right Z.add 0%Z (map (fun tr => total_votes (snd tr)) results)
      = 2400%Z.
Proof.
  intros Hs Hv Hg.
  destruct (run_attack_types_spec m Hs Hv AttackType.all [] self g Hg)
    as (results & self' & g' & Hrun & Hkinds & Hall & _).
  exists results, self', g'; split; [exact Hrun|].
  split; [exact Hkinds|]; split; [exact Hall|].
  destruct results as [|r1 [|r2 [|r3 [|r4 [|r5 rest]]]]]; try discriminate.
  inversion Hall as [|? ? (_ & _ & H1) Hall1]; subst.
  inversion Hall1 as [|? ? (_ & _ & H2) Hall2]; subst.
  inversion Hall2 as [|? ? (_ & _ & H3) Hall3]; subst.
  inversion Hall3 as [|? ? (_ & _ & H4) _]; subst.
  simpl; lia.
Qed.

Lemma full_mechanism_test_counts_witness :
  exists results self' g',
    SimulationEngine.run_full_mechanism_test quadratic_hybrid
      SimulationEngine.init half_rng = Ok (results, self', g') /\
    map fst results = [AttackType.COLLUSION; AttackType.WHALE;
                       AttackType.SYBIL; AttackType.BIAS].
Proof.
  destruct (full_mechanism_test_counts quadratic_hybrid SimulationEngine.init
              half_rng)
    as (results & self' & g' & Hrun & Hkinds & _).
  - right; right; right; reflexivity.
  - right; right; reflexivity.
  - exact half_rng_uniform.
  - exists results, self', g'; auto.
Defined.

(** ** The parameter grid and the real-world classes *)

Lemma flat_map_length_const {A B : Type} (f : A -> list B) (n : nat)
    (l : list A) :
  (forall x, length (f x) = n) ->
  length (flat_map f l) = (length l * n)%nat.
Proof.
  intros Hf; induction l as [|x l IH]; simpl; [reflexivity|].
  rewrite length_app, Hf, IH; reflexivity.
Qed.

Lemma all_mechanisms_length :
  Z.of_nat (length MechanismGenerator.generate_all_mechanisms)
  = MechanismGenerator.calculate_total_possible_mechanisms.
Proof.
  unfold MechanismGenerator.generate_all_mechanisms,
    MechanismGenerator.calculate_total_possible_mechanisms.
  erewrite flat_map_length_const; [|intros v].
  2: { erewrite flat_map_length_const; [reflexivity|intros s].
       erewrite flat_map_length_const; [reflexivity|intros sl].
       erewrite flat_map_length_const; [reflexivity|intros ct].
       erewrite flat_map_length_const; [reflexivity|intros sr].
       erewrite flat_map_length_const; [reflexivity|intros sy].
       apply length_map. }
  rewrite !Nat2Z.inj_mul; lia.
Qed.

Lemma all_mechanisms_fields (m : GovernanceMechanism) :
  In m MechanismGenerator.generate_all_mechanisms <->
  In (voting_method m) MechanismGenerator.voting_methods /\
  In (stake_method m) MechanismGenerator.stake_methods /\
  In (slashing_method m) MechanismGenerator.slashing_methods /\
  In (consensus_threshold m) MechanismGenerator.consensus_thresholds /\
  In (slashing_rate m) MechanismGenerator.slashing_rates /\
  In (sybil_resistance m) MechanismGenerator.sybil_resistance_values /\
  In (max_voting_power m) MechanismGenerator.max_voting_power_values.
Proof.
  unfold MechanismGenerator.generate_all_mechanisms; split.
  - intros H.
    repeat (apply in_flat_map in H; destruct H as (? & ? & H)).
    apply in_map_iff in H; destruct H as (? & <- & ?).
    cbn [voting_method stake_method slashing_method consensus_threshold
         slashing_rate sybil_resistance max_voting_power].
    repeat split; assumption.
  - intros (H1 & H2 & H3 & H4 & H5 & H6 & H7).
    apply in_flat_map; eexists; split; [exact H1|].
    apply in_flat_map; eexists; split; [exact H2|].
    apply in_flat_map; eexists; split; [exact H3|].
    apply in_flat_map; eexists; split; [exact H4|].
    apply in_flat_map; eexists; split; [exact H5|].
    apply in_flat_map; eexists; split; [exact H6|].
    apply in_map_iff; eexists; split; [|exact H7].
    destruct m; reflexivity.
Qed.

(** X27: [generate_all_mechanisms] returns exactly the mechanisms whose
    seven fields are values of the generator's seven lists; there are
    [calculate_total_possible_mechanisms()] = 393120 of them; and each
    has a recognized voting, stake and slashing method, a threshold in
    [0.5, 1], a slashing rate in [0, 0.3], a sybil resistance in [0, 1]
    and a power share in [0.1, 1]. *)
Theorem all_mechanisms_are_the_grid :
  Z.of_nat (length MechanismGenerator.generate_all_mechanisms)
    = MechanismGenerator.calculate_total_possible_mechanisms /\
  MechanismGenerator.calculate_total_possible_mechanisms = 393120%Z /\
  (forall m,
     In m MechanismGenerator.generate_all_mechanisms <->
     In (voting_method m) MechanismGenerator.voting_methods /\
     In (stake_method m) MechanismGenerator.stake_methods /\
     In (slashing_method m) MechanismGenerator.slashing_methods /\
     In (consensus_threshold m) MechanismGenerator.consensus_thresholds /\
     In (slashing_rate m) MechanismGenerator.slashing_rates /\
     In (sybil_resistance m) MechanismGenerator.sybil_resistance_values /\
     In (max_voting_power m) MechanismGenerator.max_voting_power_values) /\
  (forall m,
     In m MechanismGenerator.generate_all_mechanisms ->
     recognized_voting_method (voting_method m) /\
     recognized_stake_method (stake_method m) /\
     In (slashing_method m) ["none"; "linear"; "exponential"; "progressive"]
     /\ 0.5 <= consensus_threshold m <= 1 /\
     0 <= slashing_rate m <= 0.3 /\
     0 <= sybil_resistance m <= 1 /\
     0.1 <= max_voting_power m <= 1).
Proof.
  split; [apply all_mechanisms_length|].
  split; [unfold MechanismGenerator.calculate_total_possible_mechanisms;
          simpl; lia|].
  split; [apply all_mechanisms_fields|].
  intros m Hm; apply all_mechanisms_fields in Hm.
  destruct Hm as (H1 & H2 & H3 & H4 & H5 & H6 & H7).
  unfold recognized_voting_method, recognized_stake_method.
  split; [simpl in H1; intuition|].
  split; [simpl in H2; intuition|].
  split; [exact H3|].
  split; [simpl in H4; repeat (destruct H4 as [<-|H4]; [lra|]);
          destruct H4|].
  split; [simpl in H5; repeat (destruct H5 as [<-|H5]; [lra|]);
          destruct H5|].
  split; [simpl in H6; repeat (destruct H6 as [<-|H6]; [lra|]);
          destruct H6|].
  simpl in H7; repeat (destruct H7 as [<-|H7]; [lra|]); destruct H7.
Qed.

Lemma real_world_needs_095 (m : GovernanceMechanism) :
  GovernancePipeline._is_real_world_mechanism m = true ->
  sybil_resistance m = 0.95 /\ max_voting_power m = 1.
Proof.
  unfold GovernancePipeline._is_real_world_mechanism.
  destruct (Reqb (sybil_resistance m) 0.95) eqn:E1;
    destruct (Reqb (max_voting_power m) 1) eqn:E2.
  - intros _; apply Reqb_true in E1, E2; auto.
  - rewrite !Bool.andb_false_r; discriminate.
  - rewrite !Bool.andb_false_r; simpl; discriminate.
  - rewrite !Bool.andb_false_r; discriminate.
Qed.

Lemma real_world_classes_recognized (m : GovernanceMechanism) :
  In m MechanismGenerator.generate_real_world_mechanism_classes ->
  GovernancePipeline._is_real_world_mechanism m = true /\
  recognized_voting_method (voting_method m) /\
  recognized_stake_method (stake_method m) /\
  In (slashing_method m) MechanismGenerator.slashing_methods /\
  In (slashing_rate m) MechanismGenerator.slashing_rates.
Proof.
  unfold MechanismGenerator.generate_real_world_mechanism_classes.
  cbv zeta; intros H.
  unfold recognized_voting_method, recognized_stake_method.
  apply in_app_or in H; destruct H as [H|H];
    [|apply in_app_or in H; destruct H as [H|H];
      [|apply in_app_or in H; destruct H as [H|H]]].
  - apply in_flat_map in H; destruct H as (sm & Hsm & H).
    apply in_map_iff in H; destruct H as (rate & <- & Hrate).
    unfold GovernancePipeline._is_real_world_mechanism;
      cbn [voting_method stake_method slashing_method consensus_threshold
           slashing_rate sybil_resistance max_voting_power].
    split; [float_eval; reflexivity | auto 10].
  - apply in_map_iff in H; destruct H as (rate & <- & Hrate).
    unfold GovernancePipeline._is_real_world_mechanism;
      cbn [voting_method stake_method slashing_method consensus_threshold
           slashing_rate sybil_resistance max_voting_power].
    split; [float_eval; reflexivity|].
    repeat split; simpl; auto 10.
  - destruct H as [<-|[]].
    unfold GovernancePipeline._is_real_world_mechanism;
      cbn [voting_method stake_method slashing_method consensus_threshold
           slashing_rate sybil_resistance max_voting_power].
    split; [float_eval; reflexivity|].
    repeat split; simpl; auto 10.
  - apply in_flat_map in H; destruct H as (sm & Hsm & H).
    apply in_map_iff in H; destruct H as (rate & <- & Hrate).
    unfold GovernancePipeline._is_real_world_mechanism;
      cbn [voting_method stake_method slashing_method consensus_threshold
           slashing_rate sybil_resistance max_voting_power].
    split; [float_eval; reflexivity | auto 10].
Qed.

Lemma real_world_length_64 :
  length MechanismGenerator.generate_real_world_mechanism_classes = 64%nat.
Proof.
  unfold MechanismGenerator.generate_real_world_mechanism_classes.
  cbv zeta; rewrite !length_app.
  rewrite !(flat_map_length_const _ 7)
    by (intros; apply length_map).
  rewrite length_map; reflexivity.
Qed.

(** X28: [generate_real_world_mechanism_classes] returns 64 mechanisms
    (28 + 7 + 1 + 28); each is recognized by [_is_real_world_mechanism]
    and has recognized methods and a slashing rate of the grid; and no
    mechanism that [_is_real_world_mechanism] accepts is among
    [generate_all_mechanisms], because its sybil resistance 0.95 is not
    a value of the grid. *)
Theorem real_world_classes_are_off_grid :
  length MechanismGenerator.generate_real_world_mechanism_classes
    = 64%nat /\
  (forall m,
     In m MechanismGenerator.generate_real_world_mechanism_classes ->
     GovernancePipeline._is_real_world_mechanism m = true /\
     recognized_voting_method (voting_method m) /\
     recognized_stake_method (stake_method m) /\
     In (slashing_method m) MechanismGenerator.slashing_methods /\
     In (slashing_rate m) MechanismGenerator.slashing_rates) /\
  (forall m,
     GovernancePipeline._is_real_world_mechanism m = true ->
     ~ In m MechanismGenerator.generate_all_mechanisms).
Proof.
  split; [|split; [apply real_world_classes_recognized|]].
  - unfold MechanismGenerator.generate_real_world_mechanism_classes.
    cbv zeta; rewrite !length_app.
    rewrite !(flat_map_length_const _ 7)
      by (intros; apply length_map).
    rewrite length_map; reflexivity.
  - intros m Hrw Hin; apply real_world_needs_095 in Hrw.
    destruct Hrw as [Hs _].
    apply all_mechanisms_fields in Hin.
    destruct Hin as (_ & _ & _ & _ & _ & H6 & _).
    rewrite Hs in H6; simpl in H6.
    repeat (destruct H6 as [H6|H6]; [lra|]); destruct H6.
Qed.

(** ** Random mechanisms without repetition *)

Lemma choice_returns {A : Type} (seq : list A) (c : Random.chooser) :
  seq <> [] ->
  exists x c', Random.choice seq c = Some (x, c') /\ In x seq.
Proof.
  intros Hne; unfold Random.choice.
  destruct seq as [|y ys]; [contradiction|].
  destruct (nth_error (y :: ys) (c O mod length (y :: ys))) as [x|] eqn:Hn.
  - exists x; eexists; split; [reflexivity|].
    eapply nth_error_In; exact Hn.
  - apply nth_error_None in Hn.
    pose proof (Nat.mod_upper_bound (c O) (length (y :: ys))) as Hlt.
    simpl in *; lia.
Qed.

Lemma random_mechanism_in_grid (c : Random.chooser) :
  exists m c',
    MechanismGenerator.generate_random_mechanism c = Some (m, c') /\
    In m MechanismGenerator.generate_all_mechanisms.
Proof.
  unfold MechanismGenerator.generate_random_mechanism.
  destruct (choice_returns MechanismGenerator.voting_methods c)
    as (x1 & c1 & -> & H1); [discriminate|].
  destruct (choice_returns MechanismGenerator.stake_methods c1)
    as (x2 & c2 & -> & H2); [discriminate|].
  destruct (choice_returns MechanismGenerator.slashing_methods c2)
    as (x3 & c3 & -> & H3); [discriminate|].
  destruct (choice_returns MechanismGenerator.consensus_thresholds c3)
    as (x4 & c4 & -> & H4); [discriminate|].
  destruct (choice_returns MechanismGenerator.slashing_rates c4)
    as (x5 & c5 & -> & H5); [discriminate|].
  destruct (choice_returns MechanismGenerator.sybil_resistance_values c5)
    as (x6 & c6 & -> & H6); [discriminate|].
  destruct (choice_returns MechanismGenerator.max_voting_power_values c6)
    as (x7 & c7 & -> & H7); [discriminate|].
  eexists; eexists; split; [reflexivity|].
  apply all_mechanisms_fields; repeat split; assumption.
Qed.

Lemma mechanism_eqb_eq (m1 m2 : GovernanceMechanism) :
  MechanismGenerator.mechanism_eqb m1 m2 = true <-> m1 = m2.
Proof.
  unfold MechanismGenerator.mechanism_eqb; split.
  - rewrite !Bool.andb_true_iff, !String.eqb_eq, !Reqb_true.
    destruct m1, m2; simpl; intuition congruence.
  - intros ->; rewrite !String.eqb_refl; simpl.
    rewrite !(proj2 (Reqb_true _ _) eq_refl); reflexivity.
Qed.

Lemma generated_membership (m : GovernanceMechanism)
    (generated : list GovernanceMechanism) :
  existsb (MechanismGenerator.mechanism_eqb m) generated = true
  <-> In m generated.
Proof.
  rewrite existsb_exists; split.
  - intros (x & Hx & Heq); apply mechanism_eqb_eq in Heq; subst; exact Hx.
  - intros Hin; exists m; split; [exact Hin | apply mechanism_eqb_eq; auto].
Qed.

Lemma unique_loop_spec (num : nat) :
  forall remaining mechanisms generated c,
    exists new generated' c',
      MechanismGenerator.unique_loop num remaining mechanisms generated c
        = Some ((mechanisms ++ new)%list, generated', c') /\
      (length (mechanisms ++ new) <= Nat.max num (length mechanisms))%nat /\
      List.NoDup new /\
      (forall m, In m new ->
                 ~ In m generated /\
                 In m MechanismGenerator.generate_all_mechanisms) /\
      (forall m, In m generated' <-> In m generated \/ In m new).
Proof.
  assert (Hstop : forall mechanisms generated (c : Random.chooser),
            exists new generated' c',
              Some (mechanisms, generated, c)
                = Some ((mechanisms ++ new)%list, generated', c') /\
              (length (mechanisms ++ new)
               <= Nat.max num (length mechanisms))%nat /\
              List.NoDup new /\
              (forall m, In m new ->
                         ~ In m generated /\
                         In m MechanismGenerator.generate_all_mechanisms) /\
              (forall m, In m generated' <-> In m generated \/ In m new)).
  { intros mechanisms generated c; exists [], generated, c.
    rewrite app_nil_r; split; [reflexivity|]; split; [lia|].
    split; [constructor|]; split; [intros m []|].
    intros m; split; [auto | intros [H|[]]; exact H]. }
  induction remaining as [|remaining IH]; intros mechanisms generated c;
    cbn [MechanismGenerator.unique_loop]; [apply Hstop|].
  destruct (Nat.ltb_spec (length mechanisms) num) as [Hlt|Hge];
    [|apply Hstop].
  destruct (random_mechanism_in_grid c) as (m & c1 & -> & Hgrid).
  destruct (existsb (MechanismGenerator.mechanism_eqb m) generated)
    eqn:Hmem; [apply IH|].
  assert (Hnew : ~ In m generated).
  { intros Hin; apply generated_membership in Hin; congruence. }
  destruct (IH (mechanisms ++ [m])%list (m :: generated) c1)
    as (new & generated' & c' & Hrun & Hlen & Hnd & Hfresh & Hset).
  exists (m :: new), generated', c'.
  rewrite Hrun, <- app_assoc.
  change ([m] ++ new)%list with (m :: new).
  rewrite <- app_assoc in Hlen; change ([m] ++ new)%list with (m :: new) in Hlen.
  rewrite !length_app in *; cbn [length] in *.
  split; [reflexivity|]; split; [lia|]; split.
  - constructor; [|exact Hnd].
    intros Hin; apply Hfresh in Hin; destruct Hin as [Hin _].
    apply Hin; left; reflexivity.
  - split.
    + intros x [<-|Hx]; [auto|].
      apply Hfresh in Hx; destruct Hx as [Hx Hg]; split; [|exact Hg].
      intros Hin; apply Hx; right; exact Hin.
    + intros x; rewrite Hset; split.
      * intros [[<-|H]|H]; [right; left; reflexivity | auto
                             | right; right; exact H].
      * intros [H|[<-|H]]; [left; right; exact H | left; left; reflexivity
                             | right; exact H].
Qed.

(** X29: [generate_unique_mechanisms] always returns, after at most
    [10 * num_mechanisms] draws: at most [num_mechanisms] mechanisms,
    pairwise distinct, none of them generated before, all of the grid of
    [generate_all_mechanisms] (so with recognized methods, and never of a
    real-world class); the set of generated mechanisms grows by exactly
    the mechanisms returned. *)
Theorem unique_mechanisms_are_new (num : nat)
    (generated : list GovernanceMechanism) (c : Random.chooser) :
  exists mechanisms generated' c',
    MechanismGenerator.generate_unique_mechanisms num generated c
      = Some (mechanisms, generated', c') /\
    (length mechanisms <= num)%nat /\
    List.NoDup mechanisms /\
    (forall m,
       In m mechanisms ->
       ~ In m generated /\
       In m MechanismGenerator.generate_all_mechanisms /\
       recognized_voting_method (voting_method m) /\
       recognized_stake_method (stake_method m) /\
       GovernancePipeline._is_real_world_mechanism m = false) /\
    (forall m, In m generated' <-> In m generated \/ In m mechanisms).
Proof.
  unfold MechanismGenerator.generate_unique_mechanisms.
  destruct (unique_loop_spec num (num * 10) [] generated c)
    as (new & generated' & c' & Hrun & Hlen & Hnd & Hfresh & Hset).
  exists new, generated', c'; cbn [app length] in *.
  split; [exact Hrun|]; split; [lia|]; split; [exact Hnd|].
  split; [|exact Hset].
  intros m Hm; destruct (Hfresh m Hm) as [Hnew Hgrid].
  split; [exact Hnew|]; split; [exact Hgrid|].
  pose proof Hgrid as Hfields; apply all_mechanisms_fields in Hfields.
  destruct Hfields as (H1 & H2 & _ & _ & _ & H6 & _).
  unfold recognized_voting_method, recognized_stake_method.
  split; [simpl in H1; intuition|].
  split; [simpl in H2; intuition|].
  destruct (GovernancePipeline._is_real_world_mechanism m) eqn:Hrw;
    [|reflexivity].
  apply real_world_needs_095 in Hrw; destruct Hrw as [Hs _].
  rewrite Hs in H6; simpl in H6.
  repeat (destruct H6 as [H6|H6]; [lra|]); destruct H6.
Qed.

Lemma firstn_subset {A : Type} (n : nat) (l : list A) (x : A) :
  In x (firstn n l) -> In x l.
Proof.
  revert l; induction n as [|n IH]; intros [|y l]; simpl; try tauto.
  intros [->|H]; auto.
Qed.

(** X30: [generate_mixed_with_real_world_classes] always returns.  For
    a [num_mechanisms] that is not negative it returns at most that many
    mechanisms, the real-world class mechanisms first: the first
    [num_mechanisms] of them up to 64, all 64 beyond.  For a negative
    [num_mechanisms] the final slice [mechanisms[:num_mechanisms]] drops
    the last [-num_mechanisms] of the 64 real-world mechanisms and
    returns the rest (63 of them for -1).  Up to 64, negative or not,
    nothing random is generated.  Every mechanism returned has a
    recognized voting method and stake method, so that no round on it
    raises for its configuration. *)
Theorem mixed_mechanisms_are_valid (num : Z)
    (generated : list GovernanceMechanism) (c : Random.chooser) :
  exists mechanisms generated' c',
    MechanismGenerator.generate_mixed_with_real_world_classes num
      generated c = Some (mechanisms, generated', c') /\
    ((0 <= num)%Z ->
     (Z.of_nat (length mechanisms) <= num)%Z /\
     firstn 64 mechanisms
       = firstn (Z.to_nat num)
           MechanismGenerator.generate_real_world_mechanism_classes) /\
    ((num < 0)%Z ->
     mechanisms
       = firstn (64 - Z.to_nat (- num))
           MechanismGenerator.generate_real_world_mechanism_classes /\
     length mechanisms = (64 - Z.to_nat (- num))%nat) /\
    ((num <= 64)%Z -> generated' = generated /\ c' = c) /\
    (forall m,
       In m mechanisms ->
       recognized_voting_method (voting_method m) /\
       recognized_stake_method (stake_method m)).
Proof.
  pose proof real_world_length_64 as Hlen.
  unfold MechanismGenerator.generate_mixed_with_real_world_classes,
    MechanismGenerator.slice_to.
  cbv zeta; rewrite Hlen.
  destruct (Z.ltb_spec 0 (Z.max 0 (num - Z.of_nat 64))) as [Hbig|Hsmall].
  - assert (Hnum : (64 < num)%Z) by lia.
    destruct (unique_loop_spec (Z.to_nat (Z.max 0 (num - Z.of_nat 64)))
                (Z.to_nat (Z.max 0 (num - Z.of_nat 64)) * 10) []
                generated c)
      as (new & generated' & c' & Hrun & _ & _ & Hfresh & _).
    unfold MechanismGenerator.generate_unique_mechanisms; rewrite Hrun.
    destruct (Z.leb_spec 0 num) as [_|Hneg]; [|lia].
    exists (firstn (Z.to_nat num)
              (MechanismGenerator.generate_real_world_mechanism_classes
               ++ new)), generated', c'.
    split; [reflexivity|]; split; [|split; [lia|split; [lia|]]].
    + intros _; split.
      * pose proof (firstn_le_length (Z.to_nat num)
                      (MechanismGenerator
                         .generate_real_world_mechanism_classes ++ new))
          as Hle.
        lia.
      * rewrite firstn_firstn, Nat.min_l by lia.
        rewrite firstn_app, Hlen, firstn_all2 by lia.
        replace (64 - 64)%nat with O by lia.
        change (firstn 0 new) with (@nil GovernanceMechanism).
        rewrite app_nil_r; symmetry; apply firstn_all2; lia.
    + intros m Hm; apply firstn_subset, in_app_or in Hm.
      destruct Hm as [Hm|Hm].
      * apply real_world_classes_recognized in Hm; tauto.
      * apply Hfresh in Hm; destruct Hm as [_ Hgrid].
        apply all_mechanisms_fields in Hgrid.
        destruct Hgrid as (H1 & H2 & _).
        unfold recognized_voting_method, recognized_stake_method.
        split; [simpl in H1; intuition | simpl in H2; intuition].
  - assert (Hnum : (num <= 64)%Z) by lia.
    assert (Hrec : forall n m,
              In m (firstn n
                      MechanismGenerator
                        .generate_real_world_mechanism_classes) ->
              recognized_voting_method (voting_method m) /\
              recognized_stake_method (stake_method m)).
    { intros n m Hm; apply firstn_subset in Hm.
      apply real_world_classes_recognized in Hm; tauto. }
    destruct (Z.leb_spec 0 num) as [Hpos|Hneg].
    + exists (firstn (Z.to_nat num)
                MechanismGenerator.generate_real_world_mechanism_classes),
        generated, c.
      split; [reflexivity|]; split; [|split; [lia|split; [auto|]]].
      * intros _; split.
        -- pose proof (firstn_le_length (Z.to_nat num)
                         MechanismGenerator
                           .generate_real_world_mechanism_classes) as Hle.
           lia.
        -- rewrite firstn_firstn; f_equal; lia.
      * apply Hrec.
    + exists (firstn (64 - Z.to_nat (- num))
                MechanismGenerator.generate_real_world_mechanism_classes),
        generated, c.
      split; [reflexivity|]; split; [lia|]; split; [|split; [auto|]].
      * intros _; split; [reflexivity|].
        rewrite length_firstn, Hlen; lia.
      * apply Hrec.
Qed.
